(** * The streaming-session client of the shopping-agent front end

    A shallow embedding of the [App] component: the frame decoder of
    [runAgent] and [runBatchAgent], the event dispatcher [handleEvent] and
    the five resume submitters, over the React state cells of the component;
    and of what [ControlPanel] and [ChatInterface] do with these cells and
    handlers: the upload of a batch, the run button, the inline prompts,
    the batch panel and the product card.

    Conventions of the embedding.
    - A JavaScript value that can reach the program is a JSON value or
      [undefined]; it is a [Js.value].
    - Text is a [string] holding the UTF-8 bytes of the JavaScript string.
      Every operation the program performs on text ([split] on two line
      feeds, [startsWith], [slice(6)], emptiness, [===] with an ASCII
      literal) gives the same answer on the bytes as on the UTF-16 code
      units; [.length] is computed in code units by [Js.js_length].
    - A number is the exact decimal [m * 10^e] of its literal.  The binary
      rounding, overflow and underflow of IEEE doubles are not modelled; the
      printed form [Js.Number_toString] follows Number::toString on the
      exact decimal, which is what JavaScript prints for a literal of at
      most 15 significant digits inside the range of doubles.
    - [new Date()] yields the ordinal of the Date object (the n-th one the
      program constructed); the wall-clock reading belongs to the
      environment. *)

From Stdlib Require Import String Ascii List ZArith NArith Lia Bool Arith.
From Stdlib Require Import DecimalString DecimalN DecimalPos.
Import ListNotations.
Open Scope string_scope.
Set Warnings "-register-all".

(* ================================================================== *)
(** ** JavaScript values                                                *)
(* ================================================================== *)

Module Js.

Inductive value : Type :=
| VUndefined
| VNull
| VBool (b : bool)
| VNum (m e : Z)
| VStr (s : string)
| VArr (items : list value)
| VObj (props : list (string * value)).

(** A thrown Error object: its constructor's name and its [message]. *)
Record exn : Type := JsError { ename : string; message : string }.

Definition Error (msg : string) : exn := JsError "Error" msg.
Definition TypeError (msg : string) : exn := JsError "TypeError" msg.
Definition SyntaxError (msg : string) : exn := JsError "SyntaxError" msg.

(** Computations that may throw. *)
Definition throws (A : Type) : Type := (exn + A)%type.

Definition bind {A B : Type} (m : throws A) (k : A -> throws B) : throws B :=
  match m with
  | inl e => inl e
  | inr a => k a
  end.

Definition nullish (v : value) : bool :=
  match v with
  | VUndefined | VNull => true
  | _ => false
  end.

(** ToBoolean. *)
Definition truthy (v : value) : bool :=
  match v with
  | VUndefined | VNull => false
  | VBool b => b
  | VNum m _ => negb (m =? 0)%Z
  | VStr s => negb (s =? "")
  | VArr _ | VObj _ => true
  end.

(** [a || b] on values. *)
Definition or_else (a b : value) : value := if truthy a then a else b.

Fixpoint lookup (k : string) (props : list (string * value)) : option value :=
  match props with
  | [] => None
  | (k', v) :: rest => if k' =? k then Some v else lookup k rest
  end.

(** CreateDataProperty on an ordinary object: an existing key keeps its
    place and takes the new value, a new key goes last. *)
Fixpoint define (k : string) (v : value) (props : list (string * value))
  : list (string * value) :=
  match props with
  | [] => [(k, v)]
  | (k', v') :: rest =>
      if k' =? k then (k', v) :: rest else (k', v') :: define k v rest
  end.

(** Number of UTF-16 code units of one UTF-8 byte: a continuation byte
    counts for nothing, the lead byte of a four-byte sequence for two. *)
Definition utf16_units (c : ascii) : nat :=
  let n := nat_of_ascii c in
  if (n <? 128)%nat then 1
  else if (n <? 192)%nat then 0
  else if (n <? 240)%nat then 1
  else 2.

Fixpoint js_length (s : string) : nat :=
  match s with
  | EmptyString => 0
  | String c s' => utf16_units c + js_length s'
  end.

Definition of_nat (n : nat) : value := VNum (Z.of_nat n) 0.

(** Property read [v.k].  The names the program reads ([type], [content],
    [session_id], [message], [products], [length], ...) are none of those
    inherited from [Object.prototype], and never an array index. *)
Definition get (v : value) (k : string) : throws value :=
  match v with
  | VUndefined =>
      inl (TypeError ("Cannot read properties of undefined (reading '" ++ k ++ "')"))
  | VNull =>
      inl (TypeError ("Cannot read properties of null (reading '" ++ k ++ "')"))
  | VObj props =>
      inr (match lookup k props with Some x => x | None => VUndefined end)
  | VArr items =>
      inr (if k =? "length" then of_nat (length items) else VUndefined)
  | VStr s =>
      inr (if k =? "length" then of_nat (js_length s) else VUndefined)
  | VBool _ | VNum _ _ => inr VUndefined
  end.

(** [v === 'lit'] for a string literal. *)
Definition is_str (v : value) (lit : string) : bool :=
  match v with
  | VStr s => s =? lit
  | _ => false
  end.

(** *** Number::toString, radix 10 *)

Definition digits_of (n : N) : string := NilEmpty.string_of_uint (N.to_uint n).

Fixpoint zeros (n : nat) : string :=
  match n with
  | O => ""
  | S n' => String "0" (zeros n')
  end.

(** Drops the trailing zeros of a digit string and counts them. *)
Fixpoint rstrip0 (s : string) : string * nat :=
  match s with
  | EmptyString => ("", 0)
  | String c s' =>
      let (t, z) := rstrip0 s' in
      if (t =? "") && (c =? "0")%char then ("", S z) else (String c t, z)
  end.

Definition exponent_part (x : Z) : string :=
  "e" ++ (if (x <? 0)%Z then "-" else "+") ++ digits_of (Z.to_N (Z.abs x)).

Definition Number_toString (m e : Z) : string :=
  if (m =? 0)%Z then "0"
  else
    let (s, z) := rstrip0 (digits_of (Z.to_N (Z.abs m))) in
    let k := Z.of_nat (String.length s) in
    let n := (k + e + Z.of_nat z)%Z in
    (if (m <? 0)%Z then "-" else "") ++
    (if (k <=? n)%Z && (n <=? 21)%Z then s ++ zeros (Z.to_nat (n - k))
     else if (0 <? n)%Z && (n <=? 21)%Z then
       substring 0 (Z.to_nat n) s ++ "." ++ substring (Z.to_nat n) (Z.to_nat (k - n)) s
     else if (-6 <? n)%Z && (n <=? 0)%Z then "0." ++ zeros (Z.to_nat (- n)) ++ s
     else if (k =? 1)%Z then s ++ exponent_part (n - 1)
     else substring 0 1 s ++ "." ++ substring 1 (Z.to_nat (k - 1)) s
          ++ exponent_part (n - 1)).

(** *** ToString

    An array prints as [join(",")], where [null] and [undefined] elements
    print as nothing.  A plain object prints as [[object Object]] through
    [Object.prototype.toString], unless it has an own [toString] property: a
    JSON value is never callable, so OrdinaryToPrimitive falls through
    [valueOf] and throws. *)
Fixpoint ToString (v : value) : throws string :=
  match v with
  | VUndefined => inr "undefined"
  | VNull => inr "null"
  | VBool true => inr "true"
  | VBool false => inr "false"
  | VNum m e => inr (Number_toString m e)
  | VStr s => inr s
  | VArr items =>
      (fix join (l : list value) : throws string :=
         match l with
         | [] => inr ""
         | x :: rest =>
             match (if nullish x then inr "" else ToString x) with
             | inl err => inl err
             | inr sx =>
                 match rest with
                 | [] => inr sx
                 | _ :: _ =>
                     match join rest with
                     | inl err => inl err
                     | inr sr => inr (sx ++ "," ++ sr)
                     end
                 end
             end
         end) items
  | VObj props =>
      match lookup "toString" props with
      | Some _ => inl (TypeError "Cannot convert object to primitive value")
      | None => inr "[object Object]"
      end
  end.

End Js.

(* ================================================================== *)
(** ** JSON.parse                                                       *)
(* ================================================================== *)

Module Json.
Import Js.

Definition code (c : ascii) : N := N_of_ascii c.

Definition is_ws (c : ascii) : bool :=
  let n := code c in
  ((n =? 32) || (n =? 9) || (n =? 10) || (n =? 13))%N.

Definition is_digit (c : ascii) : bool :=
  let n := code c in ((48 <=? n) && (n <=? 57))%N.

Fixpoint skip_ws (s : string) : string :=
  match s with
  | EmptyString => ""
  | String c s' => if is_ws c then skip_ws s' else s
  end.

(** *** String literals *)

Definition hex_value (c : ascii) : option N :=
  let n := code c in
  if ((48 <=? n) && (n <=? 57))%N then Some (n - 48)%N
  else if ((97 <=? n) && (n <=? 102))%N then Some (n - 87)%N
  else if ((65 <=? n) && (n <=? 70))%N then Some (n - 55)%N
  else None.

Definition hex4 (a b c d : ascii) : option N :=
  match hex_value a, hex_value b, hex_value c, hex_value d with
  | Some x, Some y, Some z, Some w => Some (((x * 16 + y) * 16 + z) * 16 + w)%N
  | _, _, _, _ => None
  end.

(** One element of a string literal: a character of the source text, or the
    code unit of a [\uXXXX] escape. *)
Inductive unit_ : Type :=
| Raw (c : ascii)
| Esc (n : N).

Definition simple_escape (c : ascii) : option ascii :=
  let n := code c in
  if (n =? 34)%N then Some c                        (* quote *)
  else if (n =? 92)%N then Some c                   (* backslash *)
  else if (n =? 47)%N then Some c                   (* slash *)
  else if (n =? 98)%N then Some (ascii_of_N 8)      (* b: backspace *)
  else if (n =? 102)%N then Some (ascii_of_N 12)    (* f: form feed *)
  else if (n =? 110)%N then Some (ascii_of_N 10)    (* n: line feed *)
  else if (n =? 114)%N then Some (ascii_of_N 13)    (* r: carriage return *)
  else if (n =? 116)%N then Some (ascii_of_N 9)     (* t: tab *)
  else None.

(** Reads a string literal after its opening quote, up to and including
    the closing quote. *)
Fixpoint scan_string (s : string) : option (list unit_ * string) :=
  match s with
  | EmptyString => None
  | String c s' =>
      if (code c =? 34)%N then Some ([], s')
      else if (code c =? 92)%N then
        match s' with
        | EmptyString => None
        | String x s'' =>
            match simple_escape x with
            | Some y =>
                match scan_string s'' with
                | Some (us, rest) => Some (Raw y :: us, rest)
                | None => None
                end
            | None =>
                if (code x =? 117)%N then
                  match s'' with
                  | String h1 (String h2 (String h3 (String h4 s5))) =>
                      match hex4 h1 h2 h3 h4 with
                      | Some n =>
                          match scan_string s5 with
                          | Some (us, rest) => Some (Esc n :: us, rest)
                          | None => None
                          end
                      | None => None
                      end
                  | _ => None
                  end
                else None
            end
        end
      else if (code c <? 32)%N then None
      else
        match scan_string s' with
        | Some (us, rest) => Some (Raw c :: us, rest)
        | None => None
        end
  end.

Definition byte (n : N) : string := String (ascii_of_N n) "".

(** UTF-8 bytes of a code point (a lone surrogate is written as the three
    bytes of its code unit). *)
Definition utf8 (n : N) : string :=
  (if n <? 128 then byte n
   else if n <? 2048 then byte (192 + n / 64) ++ byte (128 + n mod 64)
   else if n <? 65536 then
     byte (224 + n / 4096) ++ byte (128 + (n / 64) mod 64) ++ byte (128 + n mod 64)
   else
     byte (240 + n / 262144) ++ byte (128 + (n / 4096) mod 64)
     ++ byte (128 + (n / 64) mod 64) ++ byte (128 + n mod 64))%N.

Definition is_high (n : N) : bool := ((55296 <=? n) && (n <? 56320))%N.
Definition is_low (n : N) : bool := ((56320 <=? n) && (n <? 57344))%N.

Fixpoint encode_units (l : list unit_) : string :=
  match l with
  | [] => ""
  | Raw c :: r => String c (encode_units r)
  | Esc hi :: r =>
      match r with
      | Esc lo :: r' =>
          if is_high hi && is_low lo
          then utf8 (65536 + (hi - 55296) * 1024 + (lo - 56320))%N ++ encode_units r'
          else utf8 hi ++ encode_units r
      | _ => utf8 hi ++ encode_units r
      end
  end.

Definition parse_string (s : string) : option (string * string) :=
  match scan_string s with
  | Some (us, rest) => Some (encode_units us, rest)
  | None => None
  end.

(** *** Number literals *)

Fixpoint scan_digits (s : string) : string * string :=
  match s with
  | EmptyString => ("", "")
  | String c s' =>
      if is_digit c
      then let (ds, rest) := scan_digits s' in (String c ds, rest)
      else ("", s)
  end.

Fixpoint digits_value (acc : N) (ds : string) : N :=
  match ds with
  | EmptyString => acc
  | String c ds' => digits_value (10 * acc + (code c - 48))%N ds'
  end.

(** int: a single 0, or a non-zero digit followed by digits. *)
Definition int_ok (ds : string) : bool :=
  match ds with
  | EmptyString => false
  | String c EmptyString => true
  | String c _ => negb (c =? "0")%char
  end.

Definition scan_fraction (s : string) : option (string * string) :=
  match s with
  | String c s' =>
      if (c =? ".")%char then
        let (fs, rest) := scan_digits s' in
        if fs =? "" then None else Some (fs, rest)
      else Some ("", s)
  | EmptyString => Some ("", s)
  end.

Definition scan_sign (s : string) : bool * string :=
  match s with
  | String c t =>
      if (c =? "-")%char then (true, t)
      else if (c =? "+")%char then (false, t)
      else (false, s)
  | EmptyString => (false, s)
  end.

Definition scan_exponent (s : string) : option (Z * string) :=
  match s with
  | String c s' =>
      if ((c =? "e") || (c =? "E"))%char then
        let (neg, s1) := scan_sign s' in
        let (es, rest) := scan_digits s1 in
        if es =? "" then None
        else
          let x := Z.of_N (digits_value 0 es) in
          Some (if neg then (- x)%Z else x, rest)
      else Some (0%Z, s)
  | EmptyString => Some (0%Z, s)
  end.

Definition scan_minus (s : string) : bool * string :=
  match s with
  | String c t => if (c =? "-")%char then (true, t) else (false, s)
  | EmptyString => (false, s)
  end.

Definition parse_number (s : string) : option (value * string) :=
  let (neg, s0) := scan_minus s in
  let (ds, s1) := scan_digits s0 in
  if int_ok ds then
    match scan_fraction s1 with
    | Some (fs, s2) =>
        match scan_exponent s2 with
        | Some (x, s3) =>
            let m := Z.of_N (digits_value 0 (ds ++ fs)) in
            Some (VNum (if neg then (- m)%Z else m)
                       (x - Z.of_nat (String.length fs))%Z, s3)
        | None => None
        end
    | None => None
    end
  else None.

(** *** Values *)

Fixpoint drop (n : nat) (s : string) : string :=
  match n, s with
  | O, _ => s
  | S n', String _ s' => drop n' s'
  | S _, EmptyString => EmptyString
  end.

Definition literal (word : string) (v : value) (s : string)
  : option (value * string) :=
  if prefix word s then Some (v, drop (String.length word) s) else None.

(** Whether the text starts with the character [c], and what follows it. *)
Definition after (c : ascii) (s : string) : option string :=
  match s with
  | String c' rest => if (c' =? c)%char then Some rest else None
  | EmptyString => None
  end.

Fixpoint parse_value (fuel : nat) (s : string) {struct fuel}
  : option (value * string) :=
  match fuel with
  | O => None
  | S fuel' =>
      match s with
      | EmptyString => None
      | String c s' =>
          if (c =? "{")%char then
            match after "}" (skip_ws s') with
            | Some rest => Some (VObj [], rest)
            | None => parse_members fuel' (skip_ws s') []
            end
          else if (c =? "[")%char then
            match after "]" (skip_ws s') with
            | Some rest => Some (VArr [], rest)
            | None => parse_elements fuel' (skip_ws s') []
            end
          else if (code c =? 34)%N then
            match parse_string s' with
            | Some (str, rest) => Some (VStr str, rest)
            | None => None
            end
          else if (c =? "t")%char then literal "true" (VBool true) s
          else if (c =? "f")%char then literal "false" (VBool false) s
          else if (c =? "n")%char then literal "null" VNull s
          else parse_number s
      end
  end

with parse_elements (fuel : nat) (s : string) (acc : list value) {struct fuel}
  : option (value * string) :=
  match fuel with
  | O => None
  | S fuel' =>
      match parse_value fuel' s with
      | Some (v, r) =>
          match after "," (skip_ws r) with
          | Some r' => parse_elements fuel' (skip_ws r') (acc ++ [v])
          | None =>
              match after "]" (skip_ws r) with
              | Some r' => Some (VArr (acc ++ [v]), r')
              | None => None
              end
          end
      | None => None
      end
  end

with parse_members (fuel : nat) (s : string) (acc : list (string * value))
  {struct fuel} : option (value * string) :=
  match fuel with
  | O => None
  | S fuel' =>
      match after (ascii_of_N 34) s with
      | Some s' =>
          match parse_string s' with
          | Some (k, r) =>
              match after ":" (skip_ws r) with
              | Some r1 =>
                  match parse_value fuel' (skip_ws r1) with
                  | Some (v, r2) =>
                      match after "," (skip_ws r2) with
                      | Some r3 =>
                          parse_members fuel' (skip_ws r3) (define k v acc)
                      | None =>
                          match after "}" (skip_ws r2) with
                          | Some r3 => Some (VObj (define k v acc), r3)
                          | None => None
                          end
                      end
                  | None => None
                  end
              | None => None
              end
          | None => None
          end
      | None => None
      end
  end.

(** [JSON.parse(text)]: [None] stands for the SyntaxError it throws.  Every
    recursive call of the parser has consumed a character for at most two
    units of fuel. *)
Definition JSON_parse (text : string) : option value :=
  match parse_value (2 * String.length text + 2) (skip_ws text) with
  | Some (v, rest) =>
      match skip_ws rest with
      | EmptyString => Some v
      | _ => None
      end
  | None => None
  end.

(** Whether a text ends with white space. *)
Fixpoint ends_with_ws (s : string) : bool :=
  match s with
  | EmptyString => false
  | String c EmptyString => is_ws c
  | String _ s' => ends_with_ws s'
  end.

End Json.

(* ================================================================== *)
(** ** Where a JSON text is inside a string literal                     *)
(* ================================================================== *)

Module Lexical.
Import Json.

Inductive mode : Type := Outside | Inside | Escaped.

(** A coarse scanner of JSON texts.  Outside a string literal there is no
    backslash and no letter d; no escape is written with the letter d. *)
Definition lex_step (m : mode) (c : ascii) : option mode :=
  let n := code c in
  match m with
  | Outside =>
      if (n =? 34)%N then Some Inside
      else if ((n =? 92) || (n =? 100))%N then None
      else Some Outside
  | Inside =>
      if (n =? 34)%N then Some Outside
      else if (n =? 92)%N then Some Escaped
      else Some Inside
  | Escaped => if (n =? 100)%N then None else Some Inside
  end.

Fixpoint lex (m : mode) (s : string) : option mode :=
  match s with
  | EmptyString => Some m
  | String c s' =>
      match lex_step m c with
      | Some m' => lex m' s'
      | None => None
      end
  end.

(** [s] is [r] after a text that takes the scanner from [m] to [m']. *)
Definition consumed (m m' : mode) (s r : string) : Prop :=
  exists c, s = c ++ r /\ lex m c = Some m'.

(** Two scans on different sides of a quotation mark. *)
Definition opposite (m1 m2 : mode) : Prop :=
  (m1 = Inside /\ m2 = Outside) \/ (m1 = Outside /\ m2 = Inside).

End Lexical.

(* ================================================================== *)
(** ** The App component                                                *)
(* ================================================================== *)

Module App.
Import Js Json.

(** *** Text operations of the decoder *)

Definition LF : ascii := ascii_of_N 10.
Definition nl : string := String LF EmptyString.

(** A JSON text written with apostrophes for its quotation marks. *)
Fixpoint quoted (s : string) : string :=
  match s with
  | EmptyString => EmptyString
  | String c s' =>
      String (if (c =? "'")%char then ascii_of_N 34 else c) (quoted s')
  end.

Definition cons_head (c : ascii) (l : list string) : list string :=
  match l with
  | [] => [String c EmptyString]
  | h :: t => String c h :: t
  end.

(** [chunk.split('\n\n')]: cuts at each occurrence of two line feeds, read
    from the left; the pieces are never none. *)
Fixpoint split_nn (s : string) : list string :=
  match s with
  | EmptyString => [EmptyString]
  | String c s' =>
      match s' with
      | String c' s'' =>
          if ((c =? LF) && (c' =? LF))%char
          then EmptyString :: split_nn s''
          else cons_head c (split_nn s')
      | EmptyString => [String c EmptyString]
      end
  end.

(** [line.slice(n)] for [n >= 0]. *)
Fixpoint slice (n : nat) (s : string) : string :=
  match n, s with
  | O, _ => s
  | S n', String _ s' => slice n' s'
  | S _, EmptyString => EmptyString
  end.

Definition startsWith (s pre : string) : bool := prefix pre s.

(** *** State cells *)

Record LogEntry : Type := mkLog {
  type : string;
  content : value;
  results : option value;     (* only a batch-complete entry has the property *)
  timestamp : option nat      (* the connection-error entry has none *)
}.

Module HitlData.
Record t : Type := mk { isOpen : bool; question : value; sessionId : value }.
Definition close (p : t) : t := mk false (question p) (sessionId p).
End HitlData.

Module ProductChoices.
Record t : Type :=
  mk { isOpen : bool; message : value; products : value; sessionId : value }.
Definition close (p : t) : t := mk false (message p) (products p) (sessionId p).
End ProductChoices.

Module AddressChoices.
Record t : Type :=
  mk { isOpen : bool; message : value; addresses : value; sessionId : value }.
Definition close (p : t) : t := mk false (message p) (addresses p) (sessionId p).
End AddressChoices.

Module PaymentChoices.
Record t : Type :=
  mk { isOpen : bool; message : value; payments : value; sessionId : value }.
Definition close (p : t) : t := mk false (message p) (payments p) (sessionId p).
End PaymentChoices.

Module GeneralOptions.
Record t : Type :=
  mk { isOpen : bool; message : value; options : value; optionType : value;
       sessionId : value }.
Definition close (p : t) : t :=
  mk false (message p) (options p) (optionType p) (sessionId p).
End GeneralOptions.

(** The [useState] cells of [App] that the run, the dispatcher and the
    submitters write.  The form cells ([platform], [action], [userMessage],
    [productUrl], [quantity], [isBatchMode], [csvData]) only feed the
    request bodies and are written by none of them. *)
Record AppState : Type := mkApp {
  logs : list LogEntry;
  isRunning : bool;
  batchStatus : value;
  hitlData : HitlData.t;
  productChoices : ProductChoices.t;
  addressChoices : AddressChoices.t;
  paymentChoices : PaymentChoices.t;
  generalOptions : GeneralOptions.t
}.

Definition initial : AppState := {|
  logs := [];
  isRunning := false;
  batchStatus := VArr [];
  hitlData := HitlData.mk false (VStr "") (VStr "");
  productChoices := ProductChoices.mk false (VStr "") (VArr []) (VStr "");
  addressChoices := AddressChoices.mk false (VStr "") (VArr []) (VStr "");
  paymentChoices := PaymentChoices.mk false (VStr "") (VArr []) (VStr "");
  generalOptions :=
    GeneralOptions.mk false (VStr "") (VArr []) (VStr "general") (VStr "")
|}.

(** The setters, applied to the state in program order.  A setter that is
    given a value instead of an updater is the setter of the constant
    updater. *)
Definition setLogs (f : list LogEntry -> list LogEntry) (s : AppState) :=
  mkApp (f (logs s)) (isRunning s) (batchStatus s) (hitlData s)
        (productChoices s) (addressChoices s) (paymentChoices s) (generalOptions s).
Definition setIsRunning (b : bool) (s : AppState) :=
  mkApp (logs s) b (batchStatus s) (hitlData s)
        (productChoices s) (addressChoices s) (paymentChoices s) (generalOptions s).
Definition setBatchStatus (v : value) (s : AppState) :=
  mkApp (logs s) (isRunning s) v (hitlData s)
        (productChoices s) (addressChoices s) (paymentChoices s) (generalOptions s).
Definition setHitlData (f : HitlData.t -> HitlData.t) (s : AppState) :=
  mkApp (logs s) (isRunning s) (batchStatus s) (f (hitlData s))
        (productChoices s) (addressChoices s) (paymentChoices s) (generalOptions s).
Definition setProductChoices (f : ProductChoices.t -> ProductChoices.t) (s : AppState) :=
  mkApp (logs s) (isRunning s) (batchStatus s) (hitlData s)
        (f (productChoices s)) (addressChoices s) (paymentChoices s) (generalOptions s).
Definition setAddressChoices (f : AddressChoices.t -> AddressChoices.t) (s : AppState) :=
  mkApp (logs s) (isRunning s) (batchStatus s) (hitlData s)
        (productChoices s) (f (addressChoices s)) (paymentChoices s) (generalOptions s).
Definition setPaymentChoices (f : PaymentChoices.t -> PaymentChoices.t) (s : AppState) :=
  mkApp (logs s) (isRunning s) (batchStatus s) (hitlData s)
        (productChoices s) (addressChoices s) (f (paymentChoices s)) (generalOptions s).
Definition setGeneralOptions (f : GeneralOptions.t -> GeneralOptions.t) (s : AppState) :=
  mkApp (logs s) (isRunning s) (batchStatus s) (hitlData s)
        (productChoices s) (addressChoices s) (paymentChoices s) (f (generalOptions s)).

(** What the program can observe or change: the state cells, the console
    (the diagnostic sink of [console.error]) and the number of Date objects
    constructed so far. *)
Record World : Type := mkWorld {
  app : AppState;
  console : list (string * exn);
  dates : nat
}.

Definition update (f : AppState -> AppState) (w : World) : World :=
  mkWorld (f (app w)) (console w) (dates w).

Definition console_error (label : string) (e : exn) (w : World) : World :=
  mkWorld (app w) (console w ++ [(label, e)])%list (dates w).

(** How a handler ends.  An updater passed to a setter runs when React
    renders, outside the handler; one that throws is an error of the
    render, which no error boundary catches in this application, so React
    unmounts the component tree. *)
Inductive outcome : Type :=
| Returns (w : World)
| Throws (e : exn) (w : World)
| Unmounts (e : exn).

(** [setLogs(prev => [...prev, entry])], where [entry] is built by the
    updater and [new Date()] is its last property. *)
Definition append_log (entry : throws (option nat -> LogEntry)) (w : World)
  : outcome :=
  match entry with
  | inl e => Unmounts e
  | inr mk =>
      Returns (mkWorld (setLogs (fun prev => (prev ++ [mk (Some (dates w))])%list) (app w))
                       (console w) (S (dates w)))
  end.

(** Template literals: the pieces are evaluated and printed from the left. *)
Definition lit (s : string) : throws string := inr s.
Definition show (v : throws value) : throws string := bind v ToString.
Fixpoint template (parts : list (throws string)) : throws string :=
  match parts with
  | [] => inr EmptyString
  | p :: rest => bind p (fun a => bind (template rest) (fun b => inr (a ++ b)))
  end.

Definition text_entry (kind : string) (body : throws string)
  : throws (option nat -> LogEntry) :=
  bind body (fun s => inr (mkLog kind (VStr s) None)).

(** [v.k] where [v] is known not to be [null] or [undefined]. *)
Definition field (v : value) (k : string) : value :=
  match get v k with
  | inr x => x
  | inl _ => VUndefined
  end.

(** *** The dispatcher *)

Definition handleEvent (event : value) (w : World) : outcome :=
  if negb (truthy event) then Returns w
  else
    let ty := field event "type" in
    let content := field event "content" in
    let session_id := field event "session_id" in
    if is_str ty "config" then
      let config := content in
      append_log
        (text_entry "text"
           (template [lit "Agent started: "; show (get config "platform"); lit "/";
                      show (get config "action"); lit " (temperature: ";
                      show (get config "temperature"); lit ")"])) w
    else if is_str ty "batch_start" then
      let config := content in
      append_log
        (text_entry "batch-start"
           (template [lit "Batch order started: "; show (get config "total_items");
                      lit " items on "; show (get config "platform")])) w
    else if is_str ty "batch_status" then
      Returns (update (setBatchStatus content) w)
    else if is_str ty "batch_complete" then
      let result := content in
      append_log
        (bind (template [lit "Batch completed: "; show (get result "success"); lit "/";
                         show (get result "total"); lit " succeeded, ";
                         show (get result "failed"); lit " failed"])
           (fun s => bind (get result "results")
           (fun r => inr (mkLog "batch-complete" (VStr s) (Some r))))) w
    else if is_str ty "log" then
      append_log (inr (mkLog "text" content None)) w
    else if is_str ty "request_input" then
      Returns (update (setHitlData (fun _ => HitlData.mk true content session_id)) w)
    else if is_str ty "product_choices" then
      match get content "message", get content "products" with
      | inr message, inr products =>
          let w1 := update (setProductChoices (fun _ =>
                      ProductChoices.mk true message products session_id)) w in
          append_log
            (text_entry "text"
               (template [lit "Found "; show (get products "length");
                          lit " products. Please select one..."])) w1
      | inl e, _ | _, inl e => Throws e w
      end
    else if is_str ty "address_choices" then
      match get content "message", get content "addresses" with
      | inr message, inr addresses =>
          let w1 := update (setAddressChoices (fun _ =>
                      AddressChoices.mk true message addresses session_id)) w in
          append_log
            (text_entry "text"
               (template [lit "Found "; show (get addresses "length");
                          lit " delivery addresses. Please select one..."])) w1
      | inl e, _ | _, inl e => Throws e w
      end
    else if is_str ty "payment_choices" then
      match get content "message", get content "payments" with
      | inr message, inr payments =>
          let w1 := update (setPaymentChoices (fun _ =>
                      PaymentChoices.mk true message payments session_id)) w in
          append_log
            (text_entry "text" (lit "Available payment methods. Please select one...")) w1
      | inl e, _ | _, inl e => Throws e w
      end
    else if is_str ty "options" then
      match get content "message", get content "options", get content "option_type" with
      | inr message, inr options, inr option_type =>
          let w1 := update (setGeneralOptions (fun _ =>
                      GeneralOptions.mk true message options
                        (or_else option_type (VStr "general")) session_id)) w in
          append_log (text_entry "text" (template [show (inr message)])) w1
      | inl e, _, _ | _, inl e, _ | _, _, inl e => Throws e w
      end
    else if is_str ty "result" then
      match bind (ToString content)
              (fun s => match JSON_parse s with
                        | Some parsed => inr parsed
                        | None => inl (SyntaxError s)
                        end) with
      | inr parsed => append_log (inr (mkLog "result-json" parsed None)) w
      | inl _ =>
          append_log
            (text_entry "success" (template [lit "**Result:** "; show (inr content)])) w
      end
    else if is_str ty "error" then
      append_log
        (text_entry "error" (template [lit "**Error:** "; show (inr content)])) w
    else Returns w.

(** *** The resume submitters *)

(** What [fetch] resolves to: the [ok] flag and the status code of the
    response, and what [response.json()] settles to. *)
Record Response : Type := mkResponse {
  ok : bool;
  status : N;
  json : throws value
}.

(** The part the five submitters share, from the [fetch] of [/agent/input]
    to the check of the application-level status: the value of [result], or
    the error thrown inside the [try].  [reply] is what the [fetch] settles
    to, a rejection or a response. *)
Definition resume (reply : throws Response) : throws value :=
  bind reply (fun response =>
  if negb (ok response)
  then inl (Error ("Server error: " ++ digits_of (status response)))
  else
    bind (json response) (fun result =>
    bind (get result "status") (fun st =>
    if is_str st "error" then
      bind (get result "message") (fun m =>
      bind (ToString (or_else m (VStr "Unknown error"))) (fun msg =>
      inl (Error msg)))
    else inr result))).

Definition submission_failed (label : string) (body : string) (error : exn)
  (w : World) : outcome :=
  append_log (text_entry "error" (template [lit body; lit (Js.message error)]))
             (console_error label error w).

(** Each submitter is applied to the state at the time its request settles:
    between the call and that moment the handler only awaits. *)
Definition handleHitlSubmit (sessionId input : value) (reply : throws Response)
  (w : World) : outcome :=
  match resume reply with
  | inr _ => Returns (update (setHitlData HitlData.close) w)
  | inl error =>
      submission_failed "Failed to submit input:" "Failed to submit input: " error w
  end.

Definition handleProductSelect (sessionId : value) (selectedIndex : nat)
  (product : value) (reply : throws Response) (w : World) : outcome :=
  match resume reply with
  | inr _ =>
      append_log
        (text_entry "text"
           (template [lit "Selected: "; show (get product "product_name")]))
        (update (setProductChoices ProductChoices.close) w)
  | inl error =>
      submission_failed "Failed to submit selection:"
                        "Failed to submit selection: " error w
  end.

Definition handleAddressSelect (sessionId : value) (selectedIndex : nat)
  (address : value) (reply : throws Response) (w : World) : outcome :=
  match resume reply with
  | inr _ =>
      append_log
        (text_entry "text"
           (template [lit "Selected address: "; show (get address "name");
                      lit " - "; show (get address "address")]))
        (update (setAddressChoices AddressChoices.close) w)
  | inl error =>
      submission_failed "Failed to submit address selection:"
                        "Failed to submit selection: " error w
  end.

Definition handlePaymentSelect (sessionId : value) (selectedIndex : nat)
  (payment : value) (reply : throws Response) (w : World) : outcome :=
  match resume reply with
  | inr _ =>
      append_log
        (text_entry "text"
           (template [lit "Selected payment: "; show (get payment "method")]))
        (update (setPaymentChoices PaymentChoices.close) w)
  | inl error =>
      submission_failed "Failed to submit payment selection:"
                        "Failed to submit selection: " error w
  end.

Definition handleOptionSelect (sessionId : value) (selectedIndex : nat)
  (option : value) (reply : throws Response) (w : World) : outcome :=
  match resume reply with
  | inr _ =>
      append_log
        (text_entry "text" (template [lit "Selected: "; show (get option "label")]))
        (update (setGeneralOptions GeneralOptions.close) w)
  | inl error =>
      submission_failed "Failed to submit option selection:"
                        "Failed to submit selection: " error w
  end.

(** *** The read loop *)

(** The application while a stream is read: mounted with its world, or
    unmounted by React after an updater threw. *)
Inductive session : Type :=
| Live (w : World)
| Unmounted (e : exn).

(** [handleEvent(event)] inside the [try] of the loop body: what it throws
    is caught and reported on the console. *)
Definition caught (o : outcome) : session :=
  match o with
  | Returns w' => Live w'
  | Throws e w' => Live (console_error "Error parsing SSE:" e w')
  | Unmounts e => Unmounted e
  end.

(** The body of [for (const line of lines)].  The message of the
    SyntaxError of [JSON.parse] is the engine's; the rejected text stands
    for it. *)
Definition processLine (line : string) (w : World) : session :=
  if startsWith line "data: " then
    let jsonStr := slice 6 line in
    if jsonStr =? EmptyString then Live w
    else
      match JSON_parse jsonStr with
      | None => Live (console_error "Error parsing SSE:" (SyntaxError jsonStr) w)
      | Some event => caught (handleEvent event w)
      end
  else Live w.

Fixpoint processLines (lines : list string) (w : World) : session :=
  match lines with
  | [] => Live w
  | line :: rest =>
      match processLine line w with
      | Live w' => processLines rest w'
      | Unmounted e => Unmounted e
      end
  end.

(** One turn of [while (true)] whose read is not [done]: [chunk] is the
    decoded text of the read. *)
Definition processChunk (chunk : string) (w : World) : session :=
  processLines (split_nn chunk) w.

Fixpoint readLoop (chunks : list string) (w : World) : session :=
  match chunks with
  | [] => Live w
  | chunk :: rest =>
      match processChunk chunk w with
      | Live w' => readLoop rest w'
      | Unmounted e => Unmounted e
      end
  end.

(** What the server's response is to a run: the texts of its reads, and how
    the reading ends, with [done] or with a rejection (of the [fetch]
    itself when there is no read before it). *)
Record Stream : Type := mkStream {
  chunks : list string;
  failure : option exn
}.

Definition connection_error (error : exn) : LogEntry :=
  mkLog "error" (VStr ("Connection error: " ++ Js.message error)) None None.

(** The [catch] and [finally] of a run. *)
Definition finish (label : string) (failure : option exn) (w : World) : World :=
  let w1 :=
    match failure with
    | None => w
    | Some error =>
        update (setLogs (fun prev => (prev ++ [connection_error error])%list))
               (console_error label error w)
    end in
  update (setIsRunning false) w1.

(** The statements of [runAgent] before its [try]. *)
Definition runAgent_begin (w : World) : World :=
  update (setLogs (fun _ => [])) (update (setIsRunning true) w).

Definition runAgent (stream : Stream) (w : World) : session :=
  match readLoop (chunks stream) (runAgent_begin w) with
  | Live w' => Live (finish "Stream error:" (failure stream) w')
  | Unmounted e => Unmounted e
  end.

(** The statements of [runBatchAgent] before its [try]. *)
Definition runBatchAgent_begin (w : World) : World :=
  update (setBatchStatus (VArr []))
         (update (setLogs (fun _ => [])) (update (setIsRunning true) w)).

Definition runBatchAgent (stream : Stream) (w : World) : session :=
  match readLoop (chunks stream) (runBatchAgent_begin w) with
  | Live w' => Live (finish "Batch stream error:" (failure stream) w')
  | Unmounted e => Unmounted e
  end.

(** *** The resume submitter of each family, as [ChatInterface] is given it *)

Inductive family : Type := FreeText | Product | Address | Payment | Options.

(** [answer] is the operator's text for the free-text family, and the
    selected choice, at [selectedIndex], for the others. *)
Definition submit (f : family) (sessionId : value) (selectedIndex : nat)
  (answer : value) (reply : throws Response) (w : World) : outcome :=
  match f with
  | FreeText => handleHitlSubmit sessionId answer reply w
  | Product => handleProductSelect sessionId selectedIndex answer reply w
  | Address => handleAddressSelect sessionId selectedIndex answer reply w
  | Payment => handlePaymentSelect sessionId selectedIndex answer reply w
  | Options => handleOptionSelect sessionId selectedIndex answer reply w
  end.

(** A submission that does not succeed: the [fetch] rejects, the response
    is not [ok], its body is not JSON or is [null], or its [status] is
    [error]. *)
Definition failed (reply : throws Response) : bool :=
  match reply with
  | inl _ => true
  | inr response =>
      negb (ok response) ||
      match json response with
      | inl _ => true
      | inr result => nullish result || is_str (field result "status") "error"
      end
  end.

(** The two failures of a response: a status that is not [ok], and an
    application-level [status] of [error]. *)
Definition refused (response : Response) : bool :=
  negb (ok response) ||
  match json response with
  | inl _ => false
  | inr result => is_str (field result "status") "error"
  end.

(** *** The prompt registry as the interface reads it *)

Definition family_eq_dec (f g : family) : {f = g} + {f <> g}.
Proof. decide equality. Defined.

(** The type tag of the event that opens a prompt of a family. *)
Definition opening_type (f : family) : string :=
  match f with
  | FreeText => "request_input"
  | Product => "product_choices"
  | Address => "address_choices"
  | Payment => "payment_choices"
  | Options => "options"
  end.

(** One pending prompt, whatever its family: the free-text prompt has no
    choices, only the generic prompt has an option kind. *)
Module PendingPrompt.
Record t : Type :=
  mk { isOpen : bool; sessionId : value; message : value;
       choices : option value; optionType : option value }.
End PendingPrompt.

Definition pending (f : family) (s : AppState) : PendingPrompt.t :=
  match f with
  | FreeText =>
      let p := hitlData s in
      PendingPrompt.mk (HitlData.isOpen p) (HitlData.sessionId p)
                       (HitlData.question p) None None
  | Product =>
      let p := productChoices s in
      PendingPrompt.mk (ProductChoices.isOpen p) (ProductChoices.sessionId p)
                       (ProductChoices.message p) (Some (ProductChoices.products p)) None
  | Address =>
      let p := addressChoices s in
      PendingPrompt.mk (AddressChoices.isOpen p) (AddressChoices.sessionId p)
                       (AddressChoices.message p) (Some (AddressChoices.addresses p)) None
  | Payment =>
      let p := paymentChoices s in
      PendingPrompt.mk (PaymentChoices.isOpen p) (PaymentChoices.sessionId p)
                       (PaymentChoices.message p) (Some (PaymentChoices.payments p)) None
  | Options =>
      let p := generalOptions s in
      PendingPrompt.mk (GeneralOptions.isOpen p) (GeneralOptions.sessionId p)
                       (GeneralOptions.message p) (Some (GeneralOptions.options p))
                       (Some (GeneralOptions.optionType p))
  end.

(** The prompts [ChatInterface] renders, in the order it renders them. *)
Definition open_prompts (s : AppState) : list family :=
  filter (fun f => PendingPrompt.isOpen (pending f s))
         [Product; Address; Payment; Options; FreeText].

Definition is_arr (v : value) : bool :=
  match v with VArr _ => true | _ => false end.

Definition is_obj (v : value) : bool :=
  match v with VObj _ => true | _ => false end.

Definition is_num (v : value) : bool :=
  match v with VNum _ _ => true | _ => false end.

(** A value that prints without running code of its own. *)
Definition primitive (v : value) : bool :=
  match v with VArr _ | VObj _ => false | _ => true end.

(** An event that opens a prompt of family [f] and carries the payload of
    that family: a list of choices, and for the generic options a message
    that is a primitive. *)
Definition opens (f : family) (event : value) : bool :=
  let c := field event "content" in
  is_str (field event "type") (opening_type f) &&
  match f with
  | FreeText => true
  | Product => is_arr (field c "products")
  | Address => is_arr (field c "addresses")
  | Payment => is_arr (field c "payments")
  | Options => is_arr (field c "options") && primitive (field c "message")
  end.

(** The prompt an opening event announces. *)
Definition announced (f : family) (event : value) : PendingPrompt.t :=
  let c := field event "content" in
  let sid := field event "session_id" in
  match f with
  | FreeText => PendingPrompt.mk true sid c None None
  | Product =>
      PendingPrompt.mk true sid (field c "message") (Some (field c "products")) None
  | Address =>
      PendingPrompt.mk true sid (field c "message") (Some (field c "addresses")) None
  | Payment =>
      PendingPrompt.mk true sid (field c "message") (Some (field c "payments")) None
  | Options =>
      PendingPrompt.mk true sid (field c "message") (Some (field c "options"))
        (Some (or_else (field c "option_type") (VStr "general")))
  end.

(** *** The decoded events and the timeline they give *)

(** The events a line, a chunk and the reads of a stream decode to, in
    the order the loop reaches them. *)
Definition decoded_line (line : string) : list value :=
  if startsWith line "data: " then
    let jsonStr := slice 6 line in
    if jsonStr =? EmptyString then []
    else
      match JSON_parse jsonStr with
      | Some event => [event]
      | None => []
      end
  else [].

Definition decoded_chunk (chunk : string) : list value :=
  flat_map decoded_line (split_nn chunk).

Definition decoded (chunks : list string) : list value :=
  flat_map decoded_chunk chunks.

(** The entries an event adds to an empty timeline when [date] Date objects
    exist. *)
Definition entries_of (event : value) (date : nat) : list LogEntry :=
  match handleEvent event (mkWorld initial [] date) with
  | Returns w' | Throws _ w' => logs (app w')
  | Unmounts _ => []
  end.

(** The entries of a sequence of events, event after event. *)
Fixpoint timeline (events : list value) (date : nat) : list LogEntry :=
  match events with
  | [] => []
  | event :: rest =>
      (entries_of event date
         ++ timeline rest (date + length (entries_of event date)))%list
  end.

(** An event with the payload its type calls for: an object where the
    dispatcher reads properties, a list where it reads a length, and
    primitives where it prints. *)
Definition wf_event (event : value) : bool :=
  let ty := field event "type" in
  let c := field event "content" in
  is_obj event &&
  (if is_str ty "config" then
     is_obj c && primitive (field c "platform") && primitive (field c "action")
     && primitive (field c "temperature")
   else if is_str ty "batch_start" then
     is_obj c && primitive (field c "total_items") && primitive (field c "platform")
   else if is_str ty "batch_complete" then
     is_obj c && primitive (field c "success") && primitive (field c "total")
     && primitive (field c "failed")
   else if is_str ty "product_choices" then is_arr (field c "products")
   else if is_str ty "address_choices" then is_arr (field c "addresses")
   else if is_str ty "payment_choices" then is_arr (field c "payments")
   else if is_str ty "options" then
     is_arr (field c "options") && primitive (field c "message")
   else if is_str ty "result" then primitive c
   else if is_str ty "error" then primitive c
   else true).

(** The state of the timeline and of the Date counter after a step, from
    the events the step decoded. *)
Definition extends (w w' : World) (events : list value) : Prop :=
  logs (app w') = (logs (app w) ++ timeline events (dates w))%list /\
  dates w' = dates w + length (timeline events (dates w)).

(** *** Reading and dispatching *)

(** The events of a list, dispatched in order from the loop body. *)
Fixpoint dispatch_all (events : list value) (w : World) : session :=
  match events with
  | [] => Live w
  | event :: rest =>
      match caught (handleEvent event w) with
      | Live w' => dispatch_all rest w'
      | Unmounted e => Unmounted e
      end
  end.

(** Two worlds with the same cells and the same Date counter: they differ
    by what is on the console. *)
Definition same_cells (w1 w2 : World) : Prop :=
  app w1 = app w2 /\ dates w1 = dates w2.

(** Two sessions that are alike but for the console. *)
Definition alike (s1 s2 : session) : Prop :=
  match s1, s2 with
  | Live w1, Live w2 => same_cells w1 w2
  | Unmounted e1, Unmounted e2 => e1 = e2
  | _, _ => False
  end.

(** *** Frames *)

(** A frame as the decoder can delimit it: it has no two line feeds in a
    row and does not end with one. *)
Fixpoint clean (s : string) : bool :=
  match s with
  | EmptyString => true
  | String c s' =>
      match s' with
      | EmptyString => negb (c =? LF)%char
      | String c' _ => negb ((c =? LF) && (c' =? LF))%char && clean s'
      end
  end.

(** The text of a read that holds whole frames, each closed by its
    double line feed. *)
Fixpoint frames_text (frames : list string) : string :=
  match frames with
  | [] => EmptyString
  | f :: rest => f ++ nl ++ nl ++ frames_text rest
  end.

(** A frame body of the stream: the text of a JSON object, with no blank
    line inside and no white space after it. *)
Definition well_formed_body (body : string) : bool :=
  match JSON_parse body with
  | Some event => is_obj event
  | None => false
  end && clean body && negb (ends_with_ws body).

(** A frame with a log event. *)
Definition log_frame (text : string) : string :=
  quoted "data: {'type':'log','content':'" ++ text ++ quoted "'}".

Definition text_log (text : string) (date : nat) : LogEntry :=
  mkLog "text" (VStr text) None (Some date).

(** *** Events and states of the examples *)

Definition batch_status_event (items : value) : value :=
  VObj [("type", VStr "batch_status"); ("content", items)].

Definition batch_item (idx : Z) (status : string) : value :=
  VObj [("idx", VNum idx 0); ("status", VStr status)].

Definition is_batch_status (event : value) : bool :=
  is_str (field event "type") "batch_status".

Definition result_event (text : string) : value :=
  VObj [("type", VStr "result"); ("content", VStr text)].

Definition world_of (s : AppState) : World := mkWorld s [] 0.

(** A second list of products arrives while the first is still shown. *)
Definition first_products : value :=
  VObj [("type", VStr "product_choices");
        ("content", VObj [("message", VStr "Pick one");
                          ("products", VArr [VObj [("product_name", VStr "Kettle")]])]);
        ("session_id", VStr "s1")].

Definition second_products : value :=
  VObj [("type", VStr "product_choices");
        ("content", VObj [("message", VStr "Pick again");
                          ("products", VArr [VObj [("product_name", VStr "Mug")];
                                             VObj [("product_name", VStr "Cup")]])]);
        ("session_id", VStr "s2")].

Definition first_products_shown : World :=
  match handleEvent first_products (world_of initial) with
  | Returns w => w
  | _ => world_of initial
  end.

(** The server answers 500 while the second list of products is shown. *)
Definition server_error : Response :=
  mkResponse false 500 (inl (SyntaxError "Internal Server Error")).

(** The server answers 200 with an application-level error. *)
Definition unknown_session : Response :=
  mkResponse true 200
    (inr (VObj [("status", VStr "error"); ("message", VStr "Session not found")])).

(** A response the executor acknowledges the answer with. *)
Definition acknowledged : throws Response :=
  inr (mkResponse true 200 (inr (VObj [("status", VStr "ok")]))).

(** A free-text question is open and the operator's answer is acknowledged. *)
Definition question_shown : World :=
  match handleEvent (VObj [("type", VStr "request_input");
                           ("content", VStr "Which colour?");
                           ("session_id", VStr "s7")]) (world_of initial) with
  | Returns w => w
  | _ => world_of initial
  end.

(** Two reads of a run: a log and a list of products, then a malformed
    frame, a result and an error. *)
Definition sample_reads : list string :=
  [log_frame "a" ++ nl ++ nl
     ++ quoted "data: {'type':'product_choices','session_id':'s1','content':{'message':'Pick','products':[{'product_name':'Kettle'}]}}"
     ++ nl ++ nl;
   "data: not-json" ++ nl ++ nl
     ++ quoted "data: {'type':'result','content':'done'}" ++ nl ++ nl
     ++ quoted "data: {'type':'error','content':'late'}" ++ nl ++ nl].

(** A log frame whose text holds the marker, cut in front of it. *)
Definition cut_body : string := quoted "{'type':'log','content':'data: 1'}".
Definition cut_left : string := quoted "data: {'type':'log','content':'".
Definition cut_right : string := quoted "data: 1'}".

End App.

(* ================================================================== *)
(** ** Text operations of the components                                *)
(* ================================================================== *)

Module Text.
Import Js Json App.

(** [s.split(sep)] for a separator of one character: the pieces are never
    none, and the empty text has the one empty piece. *)
Fixpoint split (sep : ascii) (s : string) : list string :=
  match s with
  | EmptyString => [EmptyString]
  | String c s' =>
      if (c =? sep)%char then EmptyString :: split sep s'
      else cons_head c (split sep s')
  end.

(** The white space and the line terminators of the language, as [trim]
    and [parseInt] skip them, in UTF-8: the six of ASCII, U+00A0, and the
    three-byte ones U+1680, U+2000 to U+200A, U+2028, U+2029, U+202F,
    U+205F, U+3000 and U+FEFF. *)
Definition space1 (a : ascii) : bool :=
  let n := code a in
  (((9 <=? n) && (n <=? 13)) || (n =? 32))%N.

Definition space2 (a b : ascii) : bool :=
  ((code a =? 194) && (code b =? 160))%N.

Definition space3 (a b c : ascii) : bool :=
  let x := code a in
  let y := code b in
  let z := code c in
  (((x =? 225) && (y =? 154) && (z =? 128))
   || ((x =? 226) && (y =? 128)
       && (((128 <=? z) && (z <=? 138)) || (z =? 168) || (z =? 169) || (z =? 175)))
   || ((x =? 226) && (y =? 129) && (z =? 159))
   || ((x =? 227) && (y =? 128) && (z =? 128))
   || ((x =? 239) && (y =? 187) && (z =? 191)))%N.

Fixpoint trimStart (s : string) : string :=
  match s with
  | EmptyString => EmptyString
  | String a s1 =>
      if space1 a then trimStart s1
      else
        match s1 with
        | String b s2 =>
            if space2 a b then trimStart s2
            else
              match s2 with
              | String c s3 => if space3 a b c then trimStart s3 else s
              | EmptyString => s
              end
        | EmptyString => s
        end
  end.

(** The text is cut where all that follows is white space. *)
Fixpoint trimEnd (s : string) : string :=
  match s with
  | EmptyString => EmptyString
  | String c s' =>
      if trimStart s =? EmptyString then EmptyString else String c (trimEnd s')
  end.

Definition trim (s : string) : string := trimEnd (trimStart s).

(** [s.toLowerCase()], as far as a search for ASCII words can tell: the
    capital letters of ASCII, and the two letters from outside ASCII whose
    lower-case form has an ASCII letter, the dotted capital I (U+0130, to
    [i] and U+0307) and the Kelvin sign (U+212A, to [k]).  Every other
    letter from outside ASCII is kept as it is; its lower-case form has no
    ASCII character either, and the program only looks for ASCII words in
    the lower-case text and compares it with one. *)
Fixpoint toLowerCase (s : string) : string :=
  match s with
  | EmptyString => EmptyString
  | String a s1 =>
      let n := code a in
      if ((65 <=? n) && (n <=? 90))%N
      then String (ascii_of_N (n + 32)) (toLowerCase s1)
      else
        match s1 with
        | String b s2 =>
            if ((n =? 196) && (code b =? 176))%N
            then String "i" (String (ascii_of_N 204) (String (ascii_of_N 135)
                                                        (toLowerCase s2)))
            else
              match s2 with
              | String c s3 =>
                  if ((n =? 226) && (code b =? 132) && (code c =? 170))%N
                  then String "k" (toLowerCase s3)
                  else String a (toLowerCase s1)
              | EmptyString => String a (toLowerCase s1)
              end
        | EmptyString => String a (toLowerCase s1)
        end
  end.

(** [s.includes(word)]. *)
Fixpoint includes (s word : string) : bool :=
  prefix word s ||
  match s with
  | EmptyString => false
  | String _ s' => includes s' word
  end.

(** [l.findIndex(p)]: [None] stands for -1. *)
Fixpoint findIndex {A : Type} (p : A -> bool) (l : list A) : option nat :=
  match l with
  | [] => None
  | x :: rest => if p x then Some 0 else option_map S (findIndex p rest)
  end.

(** [l.filter((x, i) => p x i)], from index [i] on. *)
Fixpoint filter_from {A : Type} (p : A -> nat -> bool) (i : nat) (l : list A)
  : list A :=
  match l with
  | [] => []
  | x :: rest =>
      if p x i then x :: filter_from p (S i) rest else filter_from p (S i) rest
  end.

(** *** parseInt, with no radix given *)

Definition digit_of (radix : N) (c : ascii) : option N :=
  match hex_value c with
  | Some d => if (d <? radix)%N then Some d else None
  | None => None
  end.

(** The value of the longest prefix of digits; [acc] is the value of the
    digits read so far, [None] when there is none yet. *)
Fixpoint scan_int (radix : N) (acc : option N) (s : string) : option N :=
  match s with
  | EmptyString => acc
  | String c s' =>
      match digit_of radix c with
      | Some d =>
          scan_int radix
            (Some (radix * (match acc with Some a => a | None => 0 end) + d)%N) s'
      | None => acc
      end
  end.

(** [parseInt(s)]: [None] stands for NaN.  The value is the exact whole
    number of the digits; a double holds it exactly up to 2^53. *)
Definition parseInt (s : string) : option Z :=
  let (neg, s1) := scan_sign (trimStart s) in
  let (radix, s2) :=
    if prefix "0x" s1 || prefix "0X" s1 then (16%N, drop 2 s1) else (10%N, s1) in
  match scan_int radix None s2 with
  | Some n => Some (if neg then (- Z.of_N n)%Z else Z.of_N n)
  | None => None
  end.

(** [parseInt(s) || 1]. *)
Definition parseInt_or_1 (s : string) : Z :=
  match parseInt s with
  | Some z => if (z =? 0)%Z then 1%Z else z
  | None => 1%Z
  end.

(** *** substring, from the start

    The three bytes of the high surrogate of the character whose four
    UTF-8 bytes are the lead byte [c] and the first three bytes of [s]. *)
Definition high_surrogate (c : ascii) (s : string) : string :=
  let b k :=
    match String.get k s with Some x => (code x mod 64)%N | None => 0%N end in
  let cp :=
    ((((code c mod 8) * 64 + b 0%nat) * 64 + b 1%nat) * 64 + b 2%nat)%N in
  let hi := (55296 + ((cp - 65536) / 1024) mod 1024)%N in
  String (ascii_of_N 237)
    (String (ascii_of_N (128 + (hi / 64) mod 64))
       (String (ascii_of_N (128 + hi mod 64)) EmptyString)).

(** [s.substring(0, n)]: the first [n] code units.  A character of two
    code units that lies across the end gives its high surrogate. *)
Fixpoint substring0 (n : nat) (s : string) : string :=
  match s with
  | EmptyString => EmptyString
  | String c s' =>
      let u := utf16_units c in
      if (u <=? n)%nat then String c (substring0 (n - u) s')
      else if (n =? 1)%nat then high_surrogate c s'
      else EmptyString
  end.

(** A text of ASCII characters. *)
Fixpoint is_ascii (s : string) : bool :=
  match s with
  | EmptyString => true
  | String c s' => (code c <? 128)%N && is_ascii s'
  end.

(** A text of decimal digits. *)
Fixpoint all_digits (s : string) : bool :=
  match s with
  | EmptyString => true
  | String c s' => is_digit c && all_digits s'
  end.

(** A text of spaces, tabs and line breaks of ASCII. *)
Fixpoint all_space1 (s : string) : bool :=
  match s with
  | EmptyString => true
  | String c s' => space1 c && all_space1 s'
  end.

(** Whether a character occurs in a text. *)
Fixpoint has (c : ascii) (s : string) : bool :=
  match s with
  | EmptyString => false
  | String c' s' => (c' =? c)%char || has c s'
  end.

End Text.

(* ================================================================== *)
(** ** The control panel                                                *)
(* ================================================================== *)

Module ControlPanel.
Import Js Json App Text.

(** One order of the batch, as the upload builds it. *)
Module Item.
Record t : Type := mk { product_url : string; quantity : Z; color : option string }.
End Item.

(** What reading an uploaded text ends with: an [alert] and no change, or
    [setCsvData(items)]. *)
Inductive upload : Type :=
| Alert (message : string)
| Loaded (items : list Item.t).

(** [text.split('\n').filter(line => line.trim())]. *)
Definition lines_of (text : string) : list string :=
  filter (fun line => negb (trim line =? EmptyString)) (split LF text).

(** [lines[0].split(',').map(h => h.trim().toLowerCase())]. *)
Definition header_of (line : string) : list string :=
  map (fun h => toLowerCase (trim h)) (split "," line).

(** [values[i]] when it is there and not the empty text. *)
Definition filled (values : list string) (i : nat) : option string :=
  match nth_error values i with
  | Some v => if v =? EmptyString then None else Some v
  | None => None
  end.

(** The body of the loop over the data rows: the item a row gives, if it
    gives one. *)
Definition row_item (urlIndex : nat) (qtyIndex colorIndex : option nat)
  (line : string) : option Item.t :=
  let values := map trim (split "," line) in
  match filled values urlIndex with
  | Some url =>
      Some (Item.mk url
              (match qtyIndex with
               | Some q =>
                   match filled values q with
                   | Some v => parseInt_or_1 v
                   | None => 1%Z
                   end
               | None => 1%Z
               end)
              (match colorIndex with
               | Some c => filled values c
               | None => None
               end))
  | None => None
  end.

Fixpoint data_rows (urlIndex : nat) (qtyIndex colorIndex : option nat)
  (lines : list string) (items : list Item.t) : list Item.t :=
  match lines with
  | [] => items
  | line :: rest =>
      data_rows urlIndex qtyIndex colorIndex rest
        (match row_item urlIndex qtyIndex colorIndex line with
         | Some item => (items ++ [item])%list
         | None => items
         end)
  end.

Definition no_rows : string :=
  "CSV file must have a header row and at least one data row".

Definition no_url_column : string :=
  quoted "CSV must have a column containing 'url' or 'product_url'".

(** [reader.onload], given the text of the file. *)
Definition onload (text : string) : upload :=
  let lines := lines_of text in
  if (length lines <? 2)%nat then Alert no_rows
  else
    let header := header_of (hd EmptyString lines) in
    let urlIndex :=
      findIndex (fun h => includes h "url" || (h =? "product_url")) header in
    let qtyIndex :=
      findIndex (fun h => includes h "qty" || includes h "quantity") header in
    let colorIndex :=
      findIndex (fun h => includes h "color" || includes h "variant") header in
    match urlIndex with
    | None => Alert no_url_column
    | Some u => Loaded (data_rows u qtyIndex colorIndex (tl lines) [])
    end.

(** [handleFileUpload]: [file] is the text of the chosen file, if one was
    chosen.  The result is the alerts shown and the [csvData] cell. *)
Definition handleFileUpload (file : option string) (csvData : list Item.t)
  : list string * list Item.t :=
  match file with
  | None => ([], csvData)
  | Some text =>
      match onload text with
      | Alert message => ([message], csvData)
      | Loaded items => ([], items)
      end
  end.

Definition removeItem (index : nat) (prev : list Item.t) : list Item.t :=
  filter_from (fun _ i => negb (i =? index)%nat) 0 prev.

Definition clearCsv (prev : list Item.t) : list Item.t := [].

(** The change handler of the quantity field. *)
Definition quantity_onChange (value : string) : Z := parseInt_or_1 value.

(** The props the run button reads. *)
Record Props : Type := mkProps {
  action : string;
  userMessage : string;
  productUrl : string;
  isRunning : bool;
  isBatchMode : bool;
  csvData : list Item.t
}.

Inductive handler : Type := onRun | onRunBatch.

Definition run_onClick (p : Props) : handler :=
  if (action p =? "order") && isBatchMode p then onRunBatch else onRun.

Definition run_disabled (p : Props) : bool :=
  isRunning p ||
  (if action p =? "search" then userMessage p =? EmptyString
   else if isBatchMode p then (length (csvData p) =? 0)%nat
   else productUrl p =? EmptyString).

(** The link of an item in the preview of the list. *)
Definition preview (item : Item.t) : string :=
  if (40 <? js_length (Item.product_url item))%nat
  then substring0 40 (Item.product_url item) ++ "..."
  else Item.product_url item.

(** *** A table in the layout the panel asks for *)

(** A field that the upload reads back as it is written: it has no comma
    and no line feed, and nothing that [trim] removes. *)
Definition plain (s : string) : bool :=
  negb (has "," s) && negb (has LF s) && (trim s =? s).

(** An item of plain fields: its link is not empty, its colour is absent
    or not empty, and its quantity is a positive whole number that a double
    holds exactly (at most 2^53). *)
Definition plain_item (item : Item.t) : bool :=
  plain (Item.product_url item) && negb (Item.product_url item =? EmptyString)
  && ((0 <? Item.quantity item) && (Item.quantity item <=? 9007199254740992))%Z
  && match Item.color item with
     | Some c => plain c && negb (c =? EmptyString)
     | None => true
     end.

(** The conditions of [plain_item], one by one, and the text of a
    colour. *)
Record plain_parts (item : Item.t) : Prop := {
  url_plain : plain (Item.product_url item) = true;
  url_filled : Item.product_url item <> EmptyString;
  quantity_positive : (0 < Item.quantity item <= 9007199254740992)%Z;
  color_plain :
    match Item.color item with
    | Some c => plain c = true /\ c <> EmptyString
    | None => True
    end
}.

Definition color_text (item : Item.t) : string :=
  match Item.color item with Some c => c | None => EmptyString end.

Definition csv_row (item : Item.t) : string :=
  Item.product_url item ++ "," ++ digits_of (Z.to_N (Item.quantity item)) ++ ","
  ++ color_text item.

Fixpoint csv_rows (items : list Item.t) : string :=
  match items with
  | [] => EmptyString
  | item :: rest => csv_row item ++ nl ++ csv_rows rest
  end.

Definition csv_text (items : list Item.t) : string :=
  "product_url,quantity,color" ++ nl ++ csv_rows items.

(** *** Line endings *)

Definition CR : string := String (ascii_of_N 13) EmptyString.

(** The text of some lines, each followed by the same line ending. *)
Fixpoint unlines (eol : string) (lines : list string) : string :=
  match lines with
  | [] => EmptyString
  | line :: rest => line ++ eol ++ unlines eol rest
  end.

(** *** An upload of the examples *)

Definition sample_csv : string :=
  "Product URL , Qty, Colour/Variant" ++ nl
  ++ " https://shop.example/p/1 , 2 , red" ++ nl
  ++ nl
  ++ "https://shop.example/p/2,0," ++ nl
  ++ ",5,blue" ++ nl
  ++ "https://shop.example/p/3" ++ nl.

(** A link of 39 letters followed by an emoji of two code units. *)
Definition long_link : Item.t :=
  Item.mk ("https://shop.example/p/0123456789abcdef"
           ++ String (ascii_of_N 240) (String (ascii_of_N 159)
                (String (ascii_of_N 155) (String (ascii_of_N 146) EmptyString))))
          1 None.

Definition sample_items : list Item.t :=
  [Item.mk "https://shop.example/p/1" 2 (Some "red");
   Item.mk "https://shop.example/p/2" 1 None;
   Item.mk "https://shop.example/p/3" 1 None].

End ControlPanel.

(* ================================================================== *)
(** ** The chat interface                                               *)
(* ================================================================== *)

Module ChatInterface.
Import Js Json App Text.

(** *** The inline choices

    [InlineProductChoices], [InlineAddressChoices], [InlinePaymentChoices]
    and [InlineOptions] keep one cell, [selectedIndex], and hand a
    selection to [onSelect]. *)

Record Selection : Type :=
  mkSelection { sessionId : value; index : nat; item : value }.

(** [handleSelect(index, item)]: the new [selectedIndex] and the call of
    [onSelect]. *)
Definition handleSelect (sessionId : value) (index : nat) (item : value)
  : option nat * Selection :=
  (Some index, mkSelection sessionId index item).

(** A click on the select button of the card at [index].  The list has a
    card for each of its items; the button is disabled once an index is
    selected, and a disabled button runs no handler. *)
Definition click (choices : list value) (sessionId : value) (index : nat)
  (selectedIndex : option nat) : option nat * list Selection :=
  match nth_error choices index with
  | None => (selectedIndex, [])
  | Some item =>
      match selectedIndex with
      | Some _ => (selectedIndex, [])
      | None =>
          let (selected, call) := handleSelect sessionId index item in
          (selected, [call])
      end
  end.

(** The clicks on one mounted component, each under the props of its
    render: the calls of [onSelect] they make, in order. *)
Fixpoint clicks (events : list (list value * value * nat))
  (selectedIndex : option nat) : option nat * list Selection :=
  match events with
  | [] => (selectedIndex, [])
  | (choices, sessionId, index) :: rest =>
      let (s1, calls1) := click choices sessionId index selectedIndex in
      let (s2, calls2) := clicks rest s1 in
      (s2, (calls1 ++ calls2)%list)
  end.

(** [selectedIndex] of the inline list of a family when the state of the
    application has gone from [s] to [s'].  [ChatInterface] renders the list
    where the prompt of the family is open: React keeps the component and
    its cell from one render to the next while the prompt stays open, and
    mounts a new component, with nothing selected, when the prompt opens
    after it was closed. *)
Definition rerender (f : family) (s s' : AppState) (selectedIndex : option nat)
  : option nat :=
  if PendingPrompt.isOpen (pending f s) && PendingPrompt.isOpen (pending f s')
  then selectedIndex else None.

(** *** The inline input of the free-text prompt

    [handleSubmit] of [InlineInput] (and of [HitlModal]): the new text of
    the field and the calls of [onSubmit]. *)
Definition handleSubmit (sessionId : value) (input : string)
  : string * list (value * string) :=
  if trim input =? EmptyString then (input, [])
  else (EmptyString, [(sessionId, input)]).

(** *** What React renders

    What a component gives when React renders it: nothing (it returns
    [null]), its element, or an error.  The error is thrown by the
    component itself or by React while it builds the element and sets its
    attributes; no error boundary catches it in this application, so React
    unmounts the application.  Which error it is is not kept. *)
Inductive rendering (A : Type) : Type :=
| Nothing
| Element (a : A)
| RenderError.
Arguments Nothing {A}.
Arguments Element {A} a.
Arguments RenderError {A}.

(** A value in the place of a child of an element: a string or a number is
    text, a boolean, [null] and [undefined] are nothing, a list is the
    children it holds, and a plain object is an error of the render. *)
Fixpoint child_ok (v : value) : bool :=
  match v with
  | VObj _ => false
  | VArr items => forallb child_ok items
  | _ => true
  end.

(** A value that can be made a text.  The value of an attribute and the
    operand of a template or of [+] are coerced to a primitive; for a JSON
    value that is the text of ToString, or its TypeError, whatever the
    hint. *)
Definition prints (v : value) : bool :=
  match ToString v with
  | inr _ => true
  | inl _ => false
  end.

(** *** The header of the batch panel *)

(** [batchStatus.filter(item => item.status === lit).length] on the items
    of an array. *)
Fixpoint count_status (lit : string) (items : list value) : throws nat :=
  match items with
  | [] => inr 0
  | item :: rest =>
      bind (get item "status") (fun s =>
      bind (count_status lit rest) (fun n =>
      inr (if is_str s lit then S n else n)))
  end.

(** A JSON value that is no array has no method [filter]. *)
Definition filter_length (batchStatus : value) (lit : string) : throws nat :=
  match batchStatus with
  | VArr items => count_status lit items
  | VUndefined | VNull => bind (get batchStatus "filter") (fun _ => inr 0)
  | _ => inl (TypeError "batchStatus.filter is not a function")
  end.

(** [v === 0]. *)
Definition is_zero (v : value) : bool :=
  match v with
  | VNum m _ => (m =? 0)%Z
  | _ => false
  end.

Record Summary : Type := mkSummary { done : nat; failed : nat; remaining : nat }.

(** The three counts in the header of [BatchStatusPanel]; [None] when the
    panel renders nothing. *)
Definition summary (batchStatus : value) : throws (option Summary) :=
  if negb (truthy batchStatus) || is_zero (field batchStatus "length") then inr None
  else
    bind (filter_length batchStatus "success") (fun successCount =>
    bind (filter_length batchStatus "failed") (fun failedCount =>
    bind (filter_length batchStatus "pending") (fun pendingCount =>
    bind (filter_length batchStatus "in_progress") (fun inProgressCount =>
    inr (Some (mkSummary successCount failedCount
                         (pendingCount + inProgressCount))))))).

(** The icon of a row. *)
Inductive icon : Type := CheckCircle | XCircle | Loader | Clock.

Definition getStatusIcon (status : value) : icon :=
  if is_str status "success" then CheckCircle
  else if is_str status "failed" then XCircle
  else if is_str status "in_progress" then Loader
  else Clock.

(** A status the header counts. *)
Definition known_status (status : value) : bool :=
  is_str status "success" || is_str status "failed" || is_str status "pending"
  || is_str status "in_progress".

Definition icon_eqb (a b : icon) : bool :=
  match a, b with
  | CheckCircle, CheckCircle | XCircle, XCircle | Loader, Loader | Clock, Clock => true
  | _, _ => false
  end.

(** The number of rows that show a given icon. *)
Definition rows_with (i : icon) (items : list value) : nat :=
  length (filter (fun item => icon_eqb (getStatusIcon (field item "status")) i) items).

(** The number of rows whose status the header does not count. *)
Definition uncounted (items : list value) : nat :=
  length (filter (fun item => negb (known_status (field item "status"))) items).

(** *** The rows of the batch panel *)

(** The child of the link cell, [item.product_url.length > 50 ?
    item.product_url.substring(0, 50) + '...' : item.product_url]; [None]
    is an error.  A list has a [length] and no [substring]; a number or a
    boolean has no [length], and [undefined > 50] is false; for an object
    either [substring] is called and is no function, or the object is the
    child. *)
Definition link_child (product_url : value) : option value :=
  match product_url with
  | VUndefined | VNull => None
  | VStr s =>
      Some (VStr (if (50 <? js_length s)%nat then substring0 50 s ++ "..." else s))
  | VArr items =>
      if (50 <? length items)%nat then None
      else if child_ok product_url then Some product_url else None
  | VObj _ => None
  | VBool _ | VNum _ _ => Some product_url
  end.

(** A row: the operand of [item.index + 1], the icon, the child of the
    link cell, and the children [item.quantity] and [item.color] (the
    colour is in a [span] of its own when it is truthy).  The status text
    ([Completed], [Failed], [Processing...], [Waiting]) is a constant of
    the program and is not kept. *)
Record Row : Type := mkRow {
  number : value;
  status_icon : icon;
  link : value;
  quantity : value;
  color : value
}.

(** The element of one item; [None] is an error.  The class name prints
    [item.status] and the label adds 1 to [item.index], so both must
    print.  [item.message] and [item.error] are the [title] of the status
    text of a finished item when they are truthy, and every falsy value
    prints. *)
Definition row (item : value) : option Row :=
  if nullish item then None
  else
    let status := field item "status" in
    if negb (prints status) || negb (prints (field item "index")) then None
    else
      match link_child (field item "product_url") with
      | None => None
      | Some url =>
          if negb (child_ok (field item "quantity"))
             || negb (child_ok (field item "color"))
             || (is_str status "success" && negb (prints (field item "message")))
             || (is_str status "failed" && negb (prints (field item "error")))
          then None
          else Some (mkRow (field item "index") (getStatusIcon status) url
                           (field item "quantity") (field item "color"))
      end.

Fixpoint rows (items : list value) : option (list Row) :=
  match items with
  | [] => Some []
  | item :: rest =>
      match row item, rows rest with
      | Some r, Some rs => Some (r :: rs)
      | _, _ => None
      end
  end.

Record Panel : Type := mkPanel { header : Summary; body : list Row }.

(** [BatchStatusPanel]: the counts of the header are computed before the
    rows are built. *)
Definition BatchStatusPanel (batchStatus : value) : rendering Panel :=
  match summary batchStatus with
  | inl _ => RenderError
  | inr None => Nothing
  | inr (Some counts) =>
      match batchStatus with
      | VArr items =>
          match rows items with
          | Some rs => Element (mkPanel counts rs)
          | None => RenderError
          end
      | _ => RenderError
      end
  end.

(** An item as the executor reports it: an object with its link as a text
    and with primitives in the other places the panel shows. *)
Definition plain_row (item : value) : bool :=
  is_obj item
  && match field item "product_url" with VStr _ => true | _ => false end
  && forallb (fun k => primitive (field item k))
       ["index"; "status"; "quantity"; "color"; "message"; "error"].

(** *** The content of a log entry *)

(** What [ProductCard] shows: the card of a product, with its actions
    when it has a link, or the dump of the data as JSON text. *)
Inductive card : Type :=
| Card (product_name price rating : value) (product_url : option value)
| Dump (data : value).

(** [ProductCard].  The name, the price and the rating are children of
    the card; the link is the [href] of its anchor when it is truthy.  The
    truth of a number is that of its exact decimal, as everywhere in the
    embedding. *)
Definition ProductCard (data : value) : rendering card :=
  if nullish data then RenderError
  else
    let name := field data "product_name" in
    let url := field data "product_url" in
    if truthy name then
      if child_ok name && child_ok (field data "price")
         && child_ok (field data "rating")
         && (if truthy url then prints url else true)
      then Element (Card name (field data "price") (field data "rating")
                         (if truthy url then Some url else None))
      else RenderError
    else Element (Dump data).

(** The element in the content cell of an entry. *)
Inductive content_view : Type :=
| Image (src : value)
| Product (data : value)
| Markdown (children : value).

Definition log_content (log : LogEntry) : content_view :=
  if type log =? "image" then Image (content log)
  else if type log =? "result-json" then Product (content log)
  else Markdown (content log).

(** What the content cell of an entry gives when the entry is a
    structured result. *)
Definition product_view (log : LogEntry) : option (rendering card) :=
  match log_content log with
  | Product data => Some (ProductCard data)
  | _ => None
  end.

(** The types of the entries the application writes. *)
Definition written_type (t : string) : bool :=
  (t =? "text") || (t =? "batch-start") || (t =? "batch-complete")
  || (t =? "result-json") || (t =? "success") || (t =? "error").

(** *** Events and lists of the examples *)

Definition kettle : value :=
  VObj [("product_name", VStr "Kettle"); ("price", VStr "$9")].

Definition mug : value := VObj [("product_name", VStr "Mug")].

Definition two_products : value :=
  VObj [("type", VStr "product_choices");
        ("content", VObj [("message", VStr "Pick one");
                          ("products", VArr [kettle; mug])]);
        ("session_id", VStr "s1")].

(** The list of two products is shown. *)
Definition two_products_shown : World :=
  match handleEvent two_products (world_of initial) with
  | Returns w => w
  | _ => world_of initial
  end.

(** The server answers 500 to the choice of the mug. *)
Definition mug_refused : outcome :=
  submit App.Product (VStr "s1") 1 mug (inr server_error) two_products_shown.

Definition item_of (index : Z) (status url : string) : value :=
  VObj [("index", VNum index 0); ("status", VStr status);
        ("product_url", VStr url); ("quantity", VNum 1 0)].

Definition mixed_batch : list value :=
  [item_of 0 "success" "https://shop.example/p/1";
   item_of 1 "failed" "https://shop.example/p/2";
   item_of 2 "in_progress" "https://shop.example/p/3";
   item_of 3 "pending" "https://shop.example/p/4";
   item_of 4 "skipped" "https://shop.example/p/5"].

End ChatInterface.

(* ================================================================== *)
(** ** The handlers of the application, seen from outside               *)
(* ================================================================== *)

Module Handlers.
Import Js Json App.

(** The type tags the dispatcher has a branch for. *)
Definition event_types : list string :=
  ["config"; "batch_start"; "batch_status"; "batch_complete"; "log";
   "request_input"; "product_choices"; "address_choices"; "payment_choices";
   "options"; "result"; "error"].

(** The text in front of the error's message in the entry of a failed
    submission, and the label of its console line. *)
Definition failure_prefix (f : family) : string :=
  match f with
  | FreeText => "Failed to submit input: "
  | _ => "Failed to submit selection: "
  end.

Definition failure_label (f : family) : string :=
  match f with
  | FreeText => "Failed to submit input:"
  | Product => "Failed to submit selection:"
  | Address => "Failed to submit address selection:"
  | Payment => "Failed to submit payment selection:"
  | Options => "Failed to submit option selection:"
  end.

(** The entry of a failed submission, given the message of the error. *)
Definition failure_entry (f : family) (text : string) (date : nat) : LogEntry :=
  mkLog "error" (VStr (failure_prefix f ++ text)) None (Some date).

(** The properties of the selected choice that the confirmation prints. *)
Definition printed (f : family) : list string :=
  match f with
  | FreeText => []
  | Product => ["product_name"]
  | Address => ["name"; "address"]
  | Payment => ["method"]
  | Options => ["label"]
  end.

(** An answer whose confirmation can be printed: for a choice, an object
    (or another value with properties) whose printed properties are
    primitives. *)
Definition confirmable (f : family) (answer : value) : bool :=
  match f with
  | FreeText => true
  | _ => negb (nullish answer)
         && forallb (fun k => primitive (field answer k)) (printed f)
  end.

(** A prompt, closed, with what it showed. *)
Definition closed (p : PendingPrompt.t) : PendingPrompt.t :=
  PendingPrompt.mk false (PendingPrompt.sessionId p) (PendingPrompt.message p)
                   (PendingPrompt.choices p) (PendingPrompt.optionType p).

(** The entries of a timeline are of the types the application writes. *)
Definition written (s : AppState) : Prop :=
  Forall (fun entry => ChatInterface.written_type (type entry) = true) (logs s).

(** A prompt event of a choice family that has no content. *)
Definition bare_products : value :=
  VObj [("type", VStr "product_choices"); ("session_id", VStr "s1")].

End Handlers.

Import Js Json Lexical App.

(* ================================================================== *)
(** ** Properties                                                       *)
(* ================================================================== *)

Lemma append_nil_r (s : string) : s ++ EmptyString = s.
Proof. induction s as [|c s IH]; simpl; [reflexivity | now rewrite IH]. Qed.

Lemma is_str_true (v : value) (lit : string) :
  is_str v lit = true -> v = VStr lit.
Proof.
  destruct v; simpl; try discriminate.
  intros H. apply String.eqb_eq in H. now subst.
Qed.

(** Only an object has a property that is a string. *)
Lemma str_field_is_object (v : value) (k lit : string) :
  is_str (field v k) lit = true -> exists props, v = VObj props.
Proof.
  destruct v as [ | | b | m e | s | items | props ];
    unfold field, get; try discriminate;
    try (destruct (k =? "length"); discriminate).
  intros _. eauto.
Qed.

Lemma typed_is_object (event : value) (lit : string) :
  is_str (field event "type") lit = true -> exists props, event = VObj props.
Proof. apply str_field_is_object. Qed.

Lemma primitive_prints (v : value) :
  primitive v = true -> exists s, ToString v = inr s.
Proof.
  destruct v; simpl; try discriminate; intros _; eauto.
  destruct b; eauto.
Qed.

(** The [type] of an event settles the branch the dispatcher takes. *)
Ltac dispatch_on Hty :=
  unfold handleEvent; cbv zeta; rewrite Hty;
  cbn [truthy negb is_str String.eqb Ascii.eqb Bool.eqb].

Lemma get_field (v : value) (k : string) :
  nullish v = false -> get v k = inr (field v k).
Proof. destruct v; simpl; try discriminate; reflexivity. Qed.

Lemma is_arr_inv (v : value) : is_arr v = true -> exists items, v = VArr items.
Proof. destruct v; simpl; try discriminate; eauto. Qed.

Lemma is_arr_field (c : value) (k : string) :
  is_arr (field c k) = true -> nullish c = false.
Proof. destruct c; simpl; try discriminate; reflexivity. Qed.

(** C1. Every family has one slot, so it is open at most once among the
    prompts the interface renders; and an event that opens a prompt of a
    family puts its own data (message, choices, session) in that slot,
    whatever the slot held, and leaves the other families alone. *)
Theorem one_prompt_per_family :
  (forall (s : AppState) (f : family),
      count_occ family_eq_dec (open_prompts s) f <= 1) /\
  (forall (f : family) (event : value) (w : World),
      opens f event = true ->
      exists w',
        handleEvent event w = Returns w' /\
        pending f (app w') = announced f event /\
        (forall g, g <> f -> pending g (app w') = pending g (app w)) /\
        count_occ family_eq_dec (open_prompts (app w')) f = 1).
Proof.
  split.
  - intros s f. unfold open_prompts. simpl.
    destruct (ProductChoices.isOpen _), (AddressChoices.isOpen _),
      (PaymentChoices.isOpen _), (GeneralOptions.isOpen _), (HitlData.isOpen _);
      destruct f; simpl; lia.
  - intros f event w H. unfold opens in H. cbv zeta in H.
    apply andb_true_iff in H as [Hty Hp].
    destruct (typed_is_object _ _ Hty) as [props ->].
    apply is_str_true in Hty.
    assert (Hslots : forall (s : AppState) (g : family),
               PendingPrompt.isOpen (pending g s) = true ->
               count_occ family_eq_dec (open_prompts s) g = 1).
    { intros s g. unfold open_prompts. destruct g; simpl;
        destruct (ProductChoices.isOpen _), (AddressChoices.isOpen _),
          (PaymentChoices.isOpen _), (GeneralOptions.isOpen _), (HitlData.isOpen _);
        simpl; congruence. }
    destruct f; cbn [opening_type] in Hty; dispatch_on Hty;
      remember (field (VObj props) "content") as c eqn:Ec;
      try apply andb_true_iff in Hp as [Hp Hm];
      try (pose proof (is_arr_field _ _ Hp) as Hc;
           rewrite !(get_field c _ Hc);
           destruct (is_arr_inv _ Hp) as [items Hitems]; rewrite ?Hitems);
      try (destruct (primitive_prints _ Hm) as [s Hs];
           unfold text_entry, template, show, lit, bind; rewrite Hs);
      simpl; eexists; (split; [reflexivity|]);
      (split; [subst c; unfold announced; cbv zeta; rewrite ?Hitems; reflexivity|]);
      (split; [intros g Hg; destruct g; try reflexivity; congruence
              | apply Hslots; reflexivity]).
Qed.

Lemma one_prompt_per_family_witness :
  ProductChoices.isOpen (productChoices (app first_products_shown)) = true /\
  opens Product second_products = true /\
  exists w',
    handleEvent second_products first_products_shown = Returns w' /\
    pending Product (app w') = announced Product second_products /\
    (forall g, g <> Product ->
       pending g (app w') = pending g (app first_products_shown)) /\
    count_occ family_eq_dec (open_prompts (app w')) Product = 1.
Proof.
  split; [reflexivity|]. split; [reflexivity|].
  exact (proj2 one_prompt_per_family Product second_products first_products_shown
               eq_refl).
Defined.

(** *** Resume submissions *)

Lemma failed_resume (reply : throws Response) :
  failed reply = true -> exists e, resume reply = inl e.
Proof.
  destruct reply as [e | response]; simpl; [eauto|].
  unfold resume, bind. destruct (ok response); simpl; [|eauto].
  destruct (json response) as [e | result]; [eauto|].
  intros H. apply orb_true_iff in H as [Hn | Hs].
  - destruct result; simpl in Hn; try discriminate; simpl; eauto.
  - destruct (str_field_is_object _ _ _ Hs) as [props ->].
    rewrite (get_field (VObj props) "status" eq_refl), Hs.
    rewrite (get_field (VObj props) "message" eq_refl).
    destruct (ToString _); eauto.
Qed.

Lemma resume_not_failed (reply : throws Response) :
  failed reply = false -> exists result, resume reply = inr result.
Proof.
  destruct reply as [e | response]; simpl; [discriminate|].
  unfold resume, bind. destruct (ok response); simpl; [|discriminate].
  destruct (json response) as [e | result]; [discriminate|].
  intros H. apply orb_false_iff in H as [Hn Hs].
  rewrite (get_field result "status" Hn), Hs. eauto.
Qed.

Lemma refused_is_failed (response : Response) :
  refused response = true -> failed (inr response) = true.
Proof.
  unfold refused, failed. destruct (ok response); simpl; [|reflexivity].
  destruct (json response) as [e | result]; [discriminate|].
  intros ->. apply orb_true_r.
Qed.

(** When a submission fails (in particular when the response is not ok,
    or carries the status [error]), every prompt of the registry is left as
    it was, the open one included, and the timeline grows by exactly one
    entry, of type [error]. *)
Lemma failed_submission_cells :
  forall (f : family) (sessionId : value) (selectedIndex : nat) (answer : value)
         (reply : throws Response) (w : World),
    failed reply = true ->
    exists (w' : World) (entry : LogEntry),
      submit f sessionId selectedIndex answer reply w = Returns w' /\
      (forall g, pending g (app w') = pending g (app w)) /\
      logs (app w') = (logs (app w) ++ [entry])%list /\
      type entry = "error" /\
      isRunning (app w') = isRunning (app w) /\
      batchStatus (app w') = batchStatus (app w).
Proof.
  intros f sessionId selectedIndex answer reply w H.
  destruct (failed_resume _ H) as [e He].
  destruct f; simpl;
    unfold handleHitlSubmit, handleProductSelect, handleAddressSelect,
      handlePaymentSelect, handleOptionSelect;
    rewrite He; unfold submission_failed, append_log; simpl;
    do 2 eexists; (split; [reflexivity|]);
    (split; [intros g; destruct g; reflexivity|]);
    repeat split; reflexivity.
Qed.

(** The four choice families close their prompt and append one [text]
    entry that names the selection. *)
Lemma choice_submission_confirmed :
  forall (sessionId : value) (selectedIndex : nat) (name : string)
         (reply : throws Response) (w : World),
    failed reply = false ->
    handleProductSelect sessionId selectedIndex
        (VObj [("product_name", VStr name)]) reply w
      = Returns (mkWorld
          (setLogs (fun prev =>
                      (prev ++ [mkLog "text" (VStr ("Selected: " ++ name)) None
                                      (Some (dates w))])%list)
                   (setProductChoices ProductChoices.close (app w)))
          (console w) (S (dates w))) /\
    handleOptionSelect sessionId selectedIndex
        (VObj [("label", VStr name)]) reply w
      = Returns (mkWorld
          (setLogs (fun prev =>
                      (prev ++ [mkLog "text" (VStr ("Selected: " ++ name)) None
                                      (Some (dates w))])%list)
                   (setGeneralOptions GeneralOptions.close (app w)))
          (console w) (S (dates w))) /\
    handlePaymentSelect sessionId selectedIndex
        (VObj [("method", VStr name)]) reply w
      = Returns (mkWorld
          (setLogs (fun prev =>
                      (prev ++ [mkLog "text" (VStr ("Selected payment: " ++ name)) None
                                      (Some (dates w))])%list)
                   (setPaymentChoices PaymentChoices.close (app w)))
          (console w) (S (dates w))) /\
    handleAddressSelect sessionId selectedIndex
        (VObj [("name", VStr name); ("address", VStr name)]) reply w
      = Returns (mkWorld
          (setLogs (fun prev =>
                      (prev ++ [mkLog "text"
                                  (VStr ("Selected address: " ++ name ++ " - " ++ name))
                                  None (Some (dates w))])%list)
                   (setAddressChoices AddressChoices.close (app w)))
          (console w) (S (dates w))).
Proof.
  intros sessionId selectedIndex name reply w H.
  destruct (resume_not_failed _ H) as [result Hr].
  unfold handleProductSelect, handleOptionSelect, handlePaymentSelect,
    handleAddressSelect.
  rewrite Hr. unfold append_log. simpl.
  rewrite !append_nil_r. repeat split; reflexivity.
Qed.

(** C2, at the free-text family.  An acknowledged answer closes the
    free-text prompt, and the timeline is left as it was: no entry confirms
    the answer, where the acknowledged choice of a generic option appends
    its [Selected: ...] entry. *)
Theorem free_text_answer_not_confirmed :
  (forall (sessionId input : value) (w : World),
      handleHitlSubmit sessionId input acknowledged w
        = Returns (update (setHitlData HitlData.close) w)) /\
  HitlData.isOpen (hitlData (app question_shown)) = true /\
  (exists w',
      submit FreeText (VStr "s7") 0 (VStr "blue") acknowledged question_shown
        = Returns w' /\
      HitlData.isOpen (hitlData (app w')) = false /\
      logs (app w') = logs (app question_shown)) /\
  (exists w',
      submit Options (VStr "s7") 0 (VObj [("label", VStr "blue")]) acknowledged
             question_shown = Returns w' /\
      logs (app w') =
        (logs (app question_shown)
           ++ [mkLog "text" (VStr "Selected: blue") None (Some 0)])%list).
Proof.
  split; [reflexivity|]. split; [reflexivity|].
  split; eexists; (split; [reflexivity|]); split; reflexivity.
Qed.

(** *** The frame decoder *)

Lemma split_nn_delimiter (rest : string) :
  split_nn (nl ++ nl ++ rest) = EmptyString :: split_nn rest.
Proof. reflexivity. Qed.

Lemma split_nn_cons (c c' : ascii) (s : string) :
  split_nn (String c (String c' s)) =
    if ((c =? LF) && (c' =? LF))%char
    then EmptyString :: split_nn s
    else cons_head c (split_nn (String c' s)).
Proof. reflexivity. Qed.

Lemma split_nn_frame (f rest : string) :
  clean f = true ->
  split_nn (f ++ nl ++ nl ++ rest) = f :: split_nn rest.
Proof.
  induction f as [|c f IH]; intros Hc.
  - apply split_nn_delimiter.
  - destruct f as [|c' f'].
    + simpl in Hc. apply negb_true_iff in Hc.
      change (String c EmptyString ++ nl ++ nl ++ rest)
        with (String c (String LF (nl ++ rest))).
      rewrite split_nn_cons, Hc. cbn [andb].
      change (String LF (nl ++ rest)) with (nl ++ nl ++ rest).
      now rewrite split_nn_delimiter.
    + cbn [clean] in Hc. apply andb_true_iff in Hc as [Hcc Hf].
      apply negb_true_iff in Hcc.
      change (String c (String c' f') ++ nl ++ nl ++ rest)
        with (String c (String c' (f' ++ nl ++ nl ++ rest))).
      rewrite split_nn_cons, Hcc.
      change (String c' (f' ++ nl ++ nl ++ rest))
        with (String c' f' ++ nl ++ nl ++ rest).
      now rewrite (IH Hf).
Qed.

Lemma split_nn_frames (frames : list string) :
  Forall (fun f => clean f = true) frames ->
  split_nn (frames_text frames) = (frames ++ [EmptyString])%list.
Proof.
  induction 1 as [|f rest Hf _ IH]; [reflexivity|].
  cbn [frames_text]. rewrite (split_nn_frame _ _ Hf), IH. reflexivity.
Qed.

Lemma processLines_app (l1 l2 : list string) (w : World) :
  processLines (l1 ++ l2) w =
    match processLines l1 w with
    | Live w' => processLines l2 w'
    | Unmounted e => Unmounted e
    end.
Proof.
  revert w. induction l1 as [|l l1 IH]; intros w; simpl; [reflexivity|].
  destruct (processLine l w); [apply IH | reflexivity].
Qed.

Lemma slice_marker (body : string) : slice 6 ("data: " ++ body) = body.
Proof. reflexivity. Qed.

Lemma startsWith_marker (body : string) : startsWith ("data: " ++ body) "data: " = true.
Proof. unfold startsWith. simpl. now destruct body. Qed.

Lemma eqb_empty (s : string) : s <> EmptyString -> (s =? EmptyString) = false.
Proof. destruct s; [congruence | reflexivity]. Qed.

(** C5, as the code has it.  A read that holds whole frames is decoded
    frame by frame, in order.  A frame that starts with the marker and has
    a body after it is parsed; its event is dispatched when the body is
    JSON, and the frame goes to the console when it is not.  The marker
    alone is skipped.  A frame that does not start with the marker is
    skipped without being parsed. *)
Theorem marked_frames_dispatched :
  (forall (frames : list string) (w : World),
      Forall (fun f => clean f = true) frames ->
      processChunk (frames_text frames) w = processLines frames w) /\
  (forall (body : string) (event : value) (w : World),
      body <> EmptyString -> JSON_parse body = Some event ->
      processLine ("data: " ++ body) w = caught (handleEvent event w)) /\
  (forall (body : string) (w : World),
      body <> EmptyString -> JSON_parse body = None ->
      processLine ("data: " ++ body) w =
        Live (console_error "Error parsing SSE:" (SyntaxError body) w)) /\
  (forall w : World, processLine "data: " w = Live w) /\
  (forall (line : string) (w : World),
      startsWith line "data: " = false -> processLine line w = Live w).
Proof.
  repeat split.
  - intros frames w H. unfold processChunk.
    rewrite (split_nn_frames _ H), processLines_app.
    destruct (processLines frames w); reflexivity.
  - intros body event w Hb Hp. unfold processLine.
    rewrite startsWith_marker, slice_marker, (eqb_empty _ Hb), Hp. reflexivity.
  - intros body w Hb Hp. unfold processLine.
    rewrite startsWith_marker, slice_marker, (eqb_empty _ Hb), Hp. reflexivity.
  - intros line w H. unfold processLine. now rewrite H.
Qed.

Lemma nonempty_string (c : ascii) (s : string) : String c s <> EmptyString.
Proof. discriminate. Qed.

Lemma marked_frames_dispatched_witness :
  (processChunk (frames_text [log_frame "a"; quoted "{'type':'log','content':'b'}"])
                (world_of initial)
   = processLines [log_frame "a"; quoted "{'type':'log','content':'b'}"]
                  (world_of initial)) /\
  (processLine (log_frame "a") (world_of initial)
   = caught (handleEvent (VObj [("type", VStr "log"); ("content", VStr "a")])
                         (world_of initial))) /\
  (processLine "data: not-json" (world_of initial)
   = Live (console_error "Error parsing SSE:" (SyntaxError "not-json")
                         (world_of initial))) /\
  (processLine (quoted "{'type':'log','content':'b'}") (world_of initial)
   = Live (world_of initial)).
Proof.
  pose proof marked_frames_dispatched as [Hframes [Hjson [Hbad [_ Hskip]]]].
  split; [|split; [|split]].
  - apply Hframes. repeat constructor.
  - apply (Hjson (quoted "{'type':'log','content':'a'}")).
    + apply nonempty_string.
    + reflexivity.
  - apply (Hbad "not-json").
    + apply nonempty_string.
    + reflexivity.
  - apply Hskip. reflexivity.
Defined.

(** C5, as the claim has it: a well-formed frame without the marker would be
    parsed and dispatched.  The frame below is JSON and its event changes
    the timeline when it is dispatched, but the decoder skips it. *)
Lemma unmarked_frame_is_skipped :
  let frame := quoted "{'type':'log','content':'a'}" in
  let event := VObj [("type", VStr "log"); ("content", VStr "a")] in
  JSON_parse frame = Some event /\
  decoded [frame ++ nl ++ nl] = [] /\
  processChunk (frame ++ nl ++ nl) (world_of initial) = Live (world_of initial) /\
  processChunk (frame ++ nl ++ nl) (world_of initial)
    <> caught (handleEvent event (world_of initial)).
Proof.
  repeat split. discriminate.
Qed.

(** *** The start of a run *)

(** C6, as the code has it.  Either kind of run starts by setting
    [isRunning] and emptying the timeline, and a batch run also empties the
    batch tracker; the five prompts are left as they were, open ones
    included.  The first event of the run is dispatched on that state. *)
Theorem run_start_resets_timeline :
  (forall w : World,
      isRunning (app (runAgent_begin w)) = true /\
      logs (app (runAgent_begin w)) = [] /\
      (forall g, pending g (app (runAgent_begin w)) = pending g (app w))) /\
  (forall w : World,
      isRunning (app (runBatchAgent_begin w)) = true /\
      logs (app (runBatchAgent_begin w)) = [] /\
      batchStatus (app (runBatchAgent_begin w)) = VArr [] /\
      (forall g, pending g (app (runBatchAgent_begin w)) = pending g (app w))) /\
  (forall (chunk : string) (rest : list string) (failure : option exn) (w : World),
      runAgent (mkStream (chunk :: rest) failure) w =
        match processChunk chunk (runAgent_begin w) with
        | Live w1 =>
            match readLoop rest w1 with
            | Live w' => Live (finish "Stream error:" failure w')
            | Unmounted e => Unmounted e
            end
        | Unmounted e => Unmounted e
        end) /\
  (forall (chunk : string) (rest : list string) (failure : option exn) (w : World),
      runBatchAgent (mkStream (chunk :: rest) failure) w =
        match processChunk chunk (runBatchAgent_begin w) with
        | Live w1 =>
            match readLoop rest w1 with
            | Live w' => Live (finish "Batch stream error:" failure w')
            | Unmounted e => Unmounted e
            end
        | Unmounted e => Unmounted e
        end).
Proof.
  repeat split; try (destruct g; reflexivity).
  - intros chunk rest failure w. unfold runAgent. simpl.
    destruct (processChunk chunk (runAgent_begin w)); reflexivity.
  - intros chunk rest failure w. unfold runBatchAgent. simpl.
    destruct (processChunk chunk (runBatchAgent_begin w)); reflexivity.
Qed.

(** C6, as the claim has it: the start of a run would close every prompt.
    A free-text question left open by the previous run is still open when
    the next run, of either kind, has started. *)
Lemma run_start_keeps_open_prompt :
  HitlData.isOpen (hitlData (app question_shown)) = true /\
  open_prompts (app (runAgent_begin question_shown)) = [FreeText] /\
  open_prompts (app (runAgent_begin question_shown)) <> [] /\
  pending FreeText (app (runAgent_begin question_shown))
    = PendingPrompt.mk true (VStr "s7") (VStr "Which colour?") None None /\
  open_prompts (app (runBatchAgent_begin question_shown)) = [FreeText] /\
  open_prompts (app (runBatchAgent_begin question_shown)) <> [].
Proof. repeat split; discriminate. Qed.

(** *** The batch tracker *)

Lemma batch_status_step (event : value) (w : World) :
  is_batch_status event = true ->
  handleEvent event w = Returns (update (setBatchStatus (field event "content")) w).
Proof.
  intros H. unfold is_batch_status in H.
  destruct (typed_is_object _ _ H) as [props ->].
  apply is_str_true in H. dispatch_on H. reflexivity.
Qed.

Lemma batch_status_cells (event : value) (w : World) :
  is_batch_status event = true ->
  exists w',
    handleEvent event w = Returns w' /\
    batchStatus (app w') = field event "content" /\
    logs (app w') = logs (app w) /\
    isRunning (app w') = isRunning (app w) /\
    (forall g, pending g (app w') = pending g (app w)) /\
    console w' = console w /\ dates w' = dates w.
Proof.
  intros H. rewrite (batch_status_step _ _ H). eexists. split; [reflexivity|].
  repeat split.
Qed.

(** C7. A [batch_status] event puts its payload in the tracker in place of
    what the tracker held: after any sequence of such events the tracker
    holds the payload of the last one, whatever it held before and whatever
    the earlier events carried, and the timeline, the run flag, the prompts,
    the console and the Date counter are as they were.  After the snapshots
    [[0: pending]] and [[0: success, 1: pending]] the tracker holds the two
    items of the second, and its length is 2. *)
Theorem batch_status_replaces_snapshot :
  (forall (events : list value) (last : value) (w : World),
      Forall (fun ev => is_batch_status ev = true) events ->
      is_batch_status last = true ->
      exists w',
        dispatch_all (events ++ [last]) w = Live w' /\
        batchStatus (app w') = field last "content" /\
        logs (app w') = logs (app w) /\
        isRunning (app w') = isRunning (app w) /\
        (forall g, pending g (app w') = pending g (app w)) /\
        console w' = console w /\ dates w' = dates w) /\
  (forall w : World,
      exists w',
        dispatch_all
          [batch_status_event (VArr [batch_item 0 "pending"]);
           batch_status_event (VArr [batch_item 0 "success"; batch_item 1 "pending"])] w
          = Live w' /\
        batchStatus (app w')
          = VArr [batch_item 0 "success"; batch_item 1 "pending"] /\
        get (batchStatus (app w')) "length" = inr (of_nat 2) /\
        logs (app w') = logs (app w) /\
        (forall g, pending g (app w') = pending g (app w))).
Proof.
  assert (Hgen : forall (events : list value) (last : value) (w : World),
      Forall (fun ev => is_batch_status ev = true) events ->
      is_batch_status last = true ->
      exists w',
        dispatch_all (events ++ [last]) w = Live w' /\
        batchStatus (app w') = field last "content" /\
        logs (app w') = logs (app w) /\
        isRunning (app w') = isRunning (app w) /\
        (forall g, pending g (app w') = pending g (app w)) /\
        console w' = console w /\ dates w' = dates w).
  { intros events last w Hall Hlast. revert w.
    induction Hall as [|ev events Hev _ IH]; intros w; cbn [Datatypes.app dispatch_all].
    - destruct (batch_status_cells last w Hlast) as (w' & E & B & L & R & P & K & D).
      rewrite E. exists w'. cbn [caught]. split; [reflexivity|].
      repeat (split; [assumption|]). assumption.
    - destruct (batch_status_cells ev w Hev) as (w1 & E & _ & L & R & P & K & D).
      rewrite E. cbn [caught].
      destruct (IH w1) as (w' & E' & B' & L' & R' & P' & K' & D').
      exists w'. split; [exact E'|]. split; [exact B'|].
      split; [congruence|]. split; [congruence|].
      split; [intros g; now rewrite P', P|]. split; congruence. }
  split; [exact Hgen|].
  intros w.
  destruct (Hgen [batch_status_event (VArr [batch_item 0 "pending"])]
              (batch_status_event (VArr [batch_item 0 "success"; batch_item 1 "pending"]))
              w) as (w' & E & B & L & R & P & K & D).
  - repeat constructor.
  - reflexivity.
  - exists w'. split; [exact E|]. split; [exact B|]. split; [now rewrite B|].
    split; assumption.
Qed.

Lemma batch_status_replaces_snapshot_witness :
  exists w',
    dispatch_all
      ([batch_status_event (VArr [batch_item 0 "pending"])]
         ++ [batch_status_event (VArr [batch_item 0 "success"; batch_item 1 "pending"])])
      first_products_shown = Live w' /\
    batchStatus (app w')
      = field (batch_status_event
                 (VArr [batch_item 0 "success"; batch_item 1 "pending"])) "content" /\
    logs (app w') = logs (app first_products_shown) /\
    isRunning (app w') = isRunning (app first_products_shown) /\
    (forall g, pending g (app w') = pending g (app first_products_shown)) /\
    console w' = console first_products_shown /\ dates w' = dates first_products_shown.
Proof.
  apply (proj1 batch_status_replaces_snapshot).
  - repeat constructor.
  - reflexivity.
Defined.

(** *** Results *)

(** C8. A [result] event whose content is a string appends one entry: a
    [result-json] entry that carries the parsed value when the string is
    JSON, and otherwise a [success] entry whose text ends with the string as
    it came.  The two contents of the specification give a structured
    entry and a success entry. *)
Theorem result_parsed_or_raw :
  (forall (event : value) (text : string) (w : World),
      is_str (field event "type") "result" = true ->
      field event "content" = VStr text ->
      handleEvent event w =
        Returns (mkWorld
          (setLogs (fun prev =>
             (prev ++ [match JSON_parse text with
                       | Some parsed => mkLog "result-json" parsed None (Some (dates w))
                       | None => mkLog "success" (VStr ("**Result:** " ++ text)) None
                                       (Some (dates w))
                       end])%list) (app w))
          (console w) (S (dates w)))) /\
  (forall w : World,
      exists w',
        handleEvent (result_event (quoted "{'product_name':'X','price':'$9'}")) w
          = Returns w' /\
        logs (app w') =
          (logs (app w)
             ++ [mkLog "result-json"
                       (VObj [("product_name", VStr "X"); ("price", VStr "$9")])
                       None (Some (dates w))])%list) /\
  (forall w : World,
      exists w',
        handleEvent (result_event "not json") w = Returns w' /\
        logs (app w') =
          (logs (app w)
             ++ [mkLog "success" (VStr "**Result:** not json") None
                       (Some (dates w))])%list).
Proof.
  split; [|split].
  - intros event text w Hty Hc.
    destruct (typed_is_object _ _ Hty) as [props ->].
    apply is_str_true in Hty. dispatch_on Hty. rewrite Hc.
    cbn [ToString bind]. destruct (JSON_parse text) as [parsed|].
    + reflexivity.
    + unfold append_log. simpl. now rewrite append_nil_r.
  - intros w. eexists. split; reflexivity.
  - intros w. eexists. split; reflexivity.
Qed.

Lemma result_parsed_or_raw_witness :
  handleEvent (result_event "not json") (world_of initial) =
    Returns (mkWorld
      (setLogs (fun prev =>
         (prev ++ [match JSON_parse "not json" with
                   | Some parsed => mkLog "result-json" parsed None (Some 0)
                   | None => mkLog "success" (VStr ("**Result:** " ++ "not json")) None
                                   (Some 0)
                   end])%list) initial)
      [] 1).
Proof.
  apply (proj1 result_parsed_or_raw (result_event "not json") "not json"
               (world_of initial)); reflexivity.
Defined.

(** *** The timeline *)

(** Cases on the first test or partial computation of the dispatcher. *)
Ltac case_scrutinee :=
  match goal with
  | |- context [if is_str ?a ?b then _ else _] => destruct (is_str a b)
  | |- context [match get ?a ?b with _ => _ end] => destruct (get a b)
  | |- context [match template ?l with _ => _ end] => destruct (template l)
  | |- context [match ToString ?v with _ => _ end] => destruct (ToString v)
  | |- context [match JSON_parse ?s with _ => _ end] => destruct (JSON_parse s)
  end.

Lemma handleEvent_timeline (event : value) (w : World) :
  match handleEvent event w with
  | Returns w' | Throws _ w' =>
      logs (app w') = (logs (app w) ++ entries_of event (dates w))%list /\
      dates w' = dates w + length (entries_of event (dates w))
  | Unmounts _ => True
  end.
Proof.
  unfold entries_of, handleEvent. cbv zeta.
  destruct (truthy event); cbn [negb].
  2: { simpl. rewrite app_nil_r. split; [reflexivity | lia]. }
  unfold append_log, text_entry, bind.
  repeat (case_scrutinee; cbn [logs app dates update setLogs setBatchStatus
            setHitlData setProductChoices setAddressChoices setPaymentChoices
            setGeneralOptions initial length]);
    try exact I;
    try (rewrite app_nil_r; split; [reflexivity | lia]);
    try (split; [reflexivity | lia]);
    simpl; (split; [reflexivity | lia]).
Qed.

Lemma entries_at_most_one (event : value) (date : nat) :
  length (entries_of event date) <= 1.
Proof.
  unfold entries_of, handleEvent. cbv zeta.
  destruct (truthy event); cbn [negb]; [|simpl; lia].
  unfold append_log, text_entry, bind.
  repeat (case_scrutinee; cbn [logs app dates update setLogs setBatchStatus
            setHitlData setProductChoices setAddressChoices setPaymentChoices
            setGeneralOptions initial Datatypes.length Datatypes.app]);
    simpl; lia.
Qed.

Lemma show_primitive_field (c : value) (k : string) :
  is_obj c = true -> primitive (field c k) = true ->
  exists s, show (get c k) = inr s.
Proof.
  intros Hc Hp. destruct c; try discriminate.
  rewrite (get_field (VObj props) k eq_refl). now apply primitive_prints.
Qed.

(** A well-formed event is dispatched to the end: nothing is thrown, and no
    updater fails. *)
Lemma wf_event_returns (event : value) (w : World) :
  wf_event event = true -> exists w', handleEvent event w = Returns w'.
Proof.
  unfold wf_event. cbv zeta. intros H.
  apply andb_true_iff in H as [Ho H].
  destruct event as [ | | | | | | props]; try discriminate.
  unfold handleEvent. cbv zeta. cbn [truthy negb].
  remember (field (VObj props) "content") as c eqn:Ec.
  remember (field (VObj props) "type") as ty eqn:Ety.
  destruct (is_str ty "config").
  { repeat (apply andb_true_iff in H as [H ?]).
    destruct (show_primitive_field c "platform" H) as [s1 E1]; [assumption|].
    destruct (show_primitive_field c "action" H) as [s2 E2]; [assumption|].
    destruct (show_primitive_field c "temperature" H) as [s3 E3]; [assumption|].
    unfold template, lit. rewrite E1, E2, E3. simpl. eauto. }
  destruct (is_str ty "batch_start").
  { repeat (apply andb_true_iff in H as [H ?]).
    destruct (show_primitive_field c "total_items" H) as [s1 E1]; [assumption|].
    destruct (show_primitive_field c "platform" H) as [s2 E2]; [assumption|].
    unfold template, lit. rewrite E1, E2. simpl. eauto. }
  destruct (is_str ty "batch_status"); [eauto|].
  destruct (is_str ty "batch_complete").
  { repeat (apply andb_true_iff in H as [H ?]).
    destruct (show_primitive_field c "success" H) as [s1 E1]; [assumption|].
    destruct (show_primitive_field c "total" H) as [s2 E2]; [assumption|].
    destruct (show_primitive_field c "failed" H) as [s3 E3]; [assumption|].
    unfold template, lit. rewrite E1, E2, E3.
    destruct c; try discriminate. simpl. eauto. }
  destruct (is_str ty "log"); [simpl; eauto|].
  destruct (is_str ty "request_input"); [eauto|].
  destruct (is_str ty "product_choices").
  { rewrite !(get_field c _ (is_arr_field _ _ H)).
    destruct (is_arr_inv _ H) as [items ->]. simpl. eauto. }
  destruct (is_str ty "address_choices").
  { rewrite !(get_field c _ (is_arr_field _ _ H)).
    destruct (is_arr_inv _ H) as [items ->]. simpl. eauto. }
  destruct (is_str ty "payment_choices").
  { rewrite !(get_field c _ (is_arr_field _ _ H)). simpl. eauto. }
  destruct (is_str ty "options").
  { apply andb_true_iff in H as [H Hm].
    rewrite !(get_field c _ (is_arr_field _ _ H)).
    destruct (primitive_prints _ Hm) as [s Hs].
    unfold text_entry, template, show, lit, bind. rewrite Hs. simpl. eauto. }
  destruct (is_str ty "result").
  { destruct (primitive_prints _ H) as [s Hs]. rewrite Hs. cbn [bind].
    destruct (JSON_parse s); [simpl; eauto|].
    unfold text_entry, template, show, lit, bind. rewrite Hs. simpl. eauto. }
  destruct (is_str ty "error").
  { destruct (primitive_prints _ H) as [s Hs].
    unfold text_entry, template, show, lit, bind. rewrite Hs. simpl. eauto. }
  eauto.
Qed.


Lemma timeline_app (a b : list value) (date : nat) :
  timeline (a ++ b) date =
    (timeline a date ++ timeline b (date + length (timeline a date)))%list.
Proof.
  revert date. induction a as [|event a IH]; intros date; simpl.
  - f_equal. lia.
  - rewrite IH, <- app_assoc, length_app. do 3 f_equal. lia.
Qed.

Lemma extends_trans (w w1 w2 : World) (a b : list value) :
  extends w w1 a -> extends w1 w2 b -> extends w w2 (a ++ b).
Proof.
  intros [L1 D1] [L2 D2]. unfold extends.
  rewrite timeline_app, L2, L1, D2, D1, length_app, <- app_assoc.
  split; [reflexivity | lia].
Qed.

Lemma processLine_extends (line : string) (w : World) :
  forallb wf_event (decoded_line line) = true ->
  exists w', processLine line w = Live w' /\ extends w w' (decoded_line line).
Proof.
  unfold processLine, decoded_line, extends.
  destruct (startsWith line "data: ").
  2: { intros _. exists w. simpl. rewrite app_nil_r. repeat split; lia. }
  cbv zeta. destruct (slice 6 line =? EmptyString) eqn:Eempty.
  { intros _. exists w. simpl. rewrite app_nil_r. repeat split; lia. }
  destruct (JSON_parse (slice 6 line)) as [event|].
  2: { intros _. eexists. split; [reflexivity|]. simpl.
       rewrite app_nil_r. split; [reflexivity | lia]. }
  simpl. rewrite andb_true_r. intros Hwf.
  destruct (wf_event_returns event w Hwf) as [w' Hw'].
  pose proof (handleEvent_timeline event w) as Ht. rewrite Hw' in *.
  exists w'. split; [reflexivity|].
  rewrite app_nil_r. exact Ht.
Qed.

Lemma processLines_extends (lines : list string) (w : World) :
  forallb wf_event (flat_map decoded_line lines) = true ->
  exists w',
    processLines lines w = Live w' /\ extends w w' (flat_map decoded_line lines).
Proof.
  revert w. induction lines as [|line lines IH]; intros w; simpl.
  - intros _. exists w. split; [reflexivity|]. unfold extends. simpl.
    rewrite app_nil_r. split; [reflexivity | lia].
  - rewrite forallb_app. intros H. apply andb_true_iff in H as [H1 H2].
    destruct (processLine_extends line w H1) as [w1 [E1 X1]]. rewrite E1.
    destruct (IH w1 H2) as [w2 [E2 X2]].
    exists w2. split; [exact E2 | exact (extends_trans _ _ _ _ _ X1 X2)].
Qed.

Lemma readLoop_extends (chunks : list string) (w : World) :
  forallb wf_event (decoded chunks) = true ->
  exists w', readLoop chunks w = Live w' /\ extends w w' (decoded chunks).
Proof.
  revert w. induction chunks as [|chunk chunks IH]; intros w; simpl.
  - intros _. exists w. split; [reflexivity|]. unfold extends. simpl.
    rewrite app_nil_r. split; [reflexivity | lia].
  - unfold decoded. simpl. fold (decoded chunks).
    rewrite forallb_app. intros H. apply andb_true_iff in H as [H1 H2].
    unfold processChunk.
    destruct (processLines_extends (split_nn chunk) w H1) as [w1 [E1 X1]].
    rewrite E1. destruct (IH w1 H2) as [w2 [E2 X2]].
    exists w2. split; [exact E2 | exact (extends_trans _ _ _ _ _ X1 X2)].
Qed.

(** C9. An event adds at most one entry, after the entries that were
    there.  When the events a stream decodes to are well formed, the reads
    are all processed and the timeline is what it was, followed by the
    entries of the decoded events in the order of decoding; a run that
    starts from any state ends with exactly these entries, followed by the
    entry of the transport error if the stream ends with one. *)
Theorem timeline_append_only :
  (forall (event : value) (date : nat), length (entries_of event date) <= 1) /\
  (forall (event : value) (w w' : World),
      handleEvent event w = Returns w' ->
      logs (app w') = (logs (app w) ++ entries_of event (dates w))%list) /\
  (forall (chunks : list string) (w : World),
      forallb wf_event (decoded chunks) = true ->
      exists w',
        readLoop chunks w = Live w' /\
        logs (app w') = (logs (app w) ++ timeline (decoded chunks) (dates w))%list) /\
  (forall (chunks : list string) (failure : option exn) (w : World),
      forallb wf_event (decoded chunks) = true ->
      exists w',
        runAgent (mkStream chunks failure) w = Live w' /\
        logs (app w') =
          (timeline (decoded chunks) (dates w)
             ++ match failure with
                | Some error => [connection_error error]
                | None => []
                end)%list).
Proof.
  split; [exact entries_at_most_one|]. split; [|split].
  - intros event w w' H. pose proof (handleEvent_timeline event w) as Ht.
    rewrite H in Ht. apply Ht.
  - intros chunks w H.
    destruct (readLoop_extends chunks w H) as [w' [E [L _]]]. eauto.
  - intros chunks failure w H. unfold runAgent. simpl.
    destruct (readLoop_extends chunks (runAgent_begin w) H) as [w' [E [L _]]].
    rewrite E. eexists. split; [reflexivity|].
    destruct failure as [error|]; simpl; rewrite L; simpl.
    + reflexivity.
    + now rewrite app_nil_r.
Qed.

Lemma timeline_append_only_witness :
  forallb wf_event (decoded sample_reads) = true /\
  (exists w',
      runAgent (mkStream sample_reads None) (world_of initial) = Live w' /\
      logs (app w') = (timeline (decoded sample_reads) 0 ++ [])%list) /\
  logs (app first_products_shown)
    = (logs (app (world_of initial)) ++ entries_of first_products 0)%list.
Proof.
  split; [reflexivity|]. split.
  - apply (proj2 (proj2 (proj2 timeline_append_only)) sample_reads None
                 (world_of initial)).
    reflexivity.
  - apply (proj1 (proj2 timeline_append_only) first_products (world_of initial)
                 first_products_shown).
    reflexivity.
Defined.

(** *** The parser: unfolding, fuel *)

Lemma parse_value_S (f : nat) (s : string) :
  parse_value (S f) s =
    match s with
    | EmptyString => None
    | String c s' =>
        if (c =? "{")%char then
          match after "}" (skip_ws s') with
          | Some rest => Some (VObj [], rest)
          | None => parse_members f (skip_ws s') []
          end
        else if (c =? "[")%char then
          match after "]" (skip_ws s') with
          | Some rest => Some (VArr [], rest)
          | None => parse_elements f (skip_ws s') []
          end
        else if (code c =? 34)%N then
          match parse_string s' with
          | Some (str, rest) => Some (VStr str, rest)
          | None => None
          end
        else if (c =? "t")%char then literal "true" (VBool true) s
        else if (c =? "f")%char then literal "false" (VBool false) s
        else if (c =? "n")%char then literal "null" VNull s
        else parse_number s
    end.
Proof. reflexivity. Qed.

Lemma parse_elements_S (f : nat) (s : string) (acc : list value) :
  parse_elements (S f) s acc =
    match parse_value f s with
    | Some (v, r) =>
        match after "," (skip_ws r) with
        | Some r' => parse_elements f (skip_ws r') (acc ++ [v])
        | None =>
            match after "]" (skip_ws r) with
            | Some r' => Some (VArr (acc ++ [v]), r')
            | None => None
            end
        end
    | None => None
    end.
Proof. reflexivity. Qed.

Lemma parse_members_S (f : nat) (s : string) (acc : list (string * value)) :
  parse_members (S f) s acc =
    match after (ascii_of_N 34) s with
    | Some s' =>
        match parse_string s' with
        | Some (k, r) =>
            match after ":" (skip_ws r) with
            | Some r1 =>
                match parse_value f (skip_ws r1) with
                | Some (v, r2) =>
                    match after "," (skip_ws r2) with
                    | Some r3 => parse_members f (skip_ws r3) (define k v acc)
                    | None =>
                        match after "}" (skip_ws r2) with
                        | Some r3 => Some (VObj (define k v acc), r3)
                        | None => None
                        end
                    end
                | None => None
                end
            | None => None
            end
        | None => None
        end
    | None => None
    end.
Proof. reflexivity. Qed.

(** More fuel does not change an answer. *)
Lemma parse_fuel_S (f : nat) :
  (forall s x, parse_value f s = Some x -> parse_value (S f) s = Some x) /\
  (forall s acc x,
      parse_elements f s acc = Some x -> parse_elements (S f) s acc = Some x) /\
  (forall s acc x,
      parse_members f s acc = Some x -> parse_members (S f) s acc = Some x).
Proof.
  induction f as [|f [IHv [IHe IHm]]]; [repeat split; discriminate|].
  repeat split.
  - intros s x H. rewrite parse_value_S in H. rewrite parse_value_S.
    destruct s as [|c s']; [discriminate|].
    destruct (c =? "{")%char.
    { destruct (after "}" (skip_ws s')); [assumption | now apply IHm]. }
    destruct (c =? "[")%char.
    { destruct (after "]" (skip_ws s')); [assumption | now apply IHe]. }
    assumption.
  - intros s acc x H. rewrite parse_elements_S in H. rewrite parse_elements_S.
    destruct (parse_value f s) as [[v r]|] eqn:Ev; [|discriminate].
    rewrite (IHv _ _ Ev).
    destruct (after "," (skip_ws r)); [now apply IHe | assumption].
  - intros s acc x H. rewrite parse_members_S in H. rewrite parse_members_S.
    destruct (after (ascii_of_N 34) s) as [s'|]; [|discriminate].
    destruct (parse_string s') as [[k r]|]; [|discriminate].
    destruct (after ":" (skip_ws r)) as [r1|]; [|discriminate].
    destruct (parse_value f (skip_ws r1)) as [[v r2]|] eqn:Ev; [|discriminate].
    rewrite (IHv _ _ Ev).
    destruct (after "," (skip_ws r2)); [now apply IHm | assumption].
Qed.

Lemma parse_value_fuel (f f' : nat) (s : string) (x : value * string) :
  f <= f' -> parse_value f s = Some x -> parse_value f' s = Some x.
Proof.
  induction 1 as [|f' _ IH]; [trivial|].
  intros H. apply (proj1 (parse_fuel_S f')). auto.
Qed.

(** *** The parser reads from the left: text after what it consumed does
    not change what it consumed *)

Lemma app_String (c : ascii) (s e : string) : String c s ++ e = String c (s ++ e).
Proof. reflexivity. Qed.

Lemma skip_ws_app (s e : string) :
  skip_ws s <> EmptyString -> skip_ws (s ++ e) = skip_ws s ++ e.
Proof.
  induction s as [|c s IH]; simpl; [congruence|].
  destruct (is_ws c); [exact IH | reflexivity].
Qed.

Lemma after_app (c : ascii) (s r e : string) :
  after c s = Some r -> after c (s ++ e) = Some (r ++ e).
Proof.
  destruct s as [|c' s]; simpl; [discriminate|].
  destruct (c' =? c)%char; [|discriminate]. now intros [= ->].
Qed.

Lemma after_app_None (c : ascii) (s e : string) :
  s <> EmptyString -> after c s = None -> after c (s ++ e) = None.
Proof.
  destruct s as [|c' s]; simpl; [congruence|].
  now destruct (c' =? c)%char.
Qed.

Lemma after_nonempty (c : ascii) (s r : string) :
  after c s = Some r -> s <> EmptyString.
Proof. destruct s; simpl; [discriminate | congruence]. Qed.

Lemma scan_string_app (n : nat) :
  forall s us r e,
    String.length s <= n ->
    scan_string s = Some (us, r) -> scan_string (s ++ e) = Some (us, r ++ e).
Proof.
  induction n as [|n IH]; intros s us r e Hn H.
  - destruct s; [discriminate | simpl in Hn; lia].
  - destruct s as [|c s']; [discriminate|].
    rewrite app_String. simpl in H |- *. simpl in Hn.
    destruct (code c =? 34)%N.
    { now injection H as <- <-. }
    destruct (code c =? 92)%N.
    { destruct s' as [|x s'']; [discriminate|]. rewrite app_String.
      simpl in Hn. destruct (simple_escape x).
      - destruct (scan_string s'') as [[us' r']|] eqn:E; [|discriminate].
        injection H as <- <-.
        rewrite (IH s'' us' r' e); [reflexivity | lia | assumption].
      - destruct (code x =? 117)%N; [|discriminate].
        destruct s'' as [|h1 [|h2 [|h3 [|h4 s5]]]]; try discriminate.
        rewrite !app_String. simpl in Hn.
        destruct (hex4 h1 h2 h3 h4); [|discriminate].
        destruct (scan_string s5) as [[us' r']|] eqn:E; [|discriminate].
        injection H as <- <-.
        rewrite (IH s5 us' r' e); [reflexivity | lia | assumption]. }
    destruct (code c <? 32)%N; [discriminate|].
    destruct (scan_string s') as [[us' r']|] eqn:E; [|discriminate].
    injection H as <- <-.
    rewrite (IH s' us' r' e); [reflexivity | lia | assumption].
Qed.

Lemma parse_string_app (s str r e : string) :
  parse_string s = Some (str, r) -> parse_string (s ++ e) = Some (str, r ++ e).
Proof.
  unfold parse_string.
  destruct (scan_string s) as [[us r']|] eqn:E; [|discriminate].
  intros [= <- <-]. now rewrite (scan_string_app _ s us r' e (le_n _) E).
Qed.

Lemma scan_digits_app (s ds r e : string) :
  scan_digits s = (ds, r) -> r <> EmptyString ->
  scan_digits (s ++ e) = (ds, r ++ e).
Proof.
  revert ds. induction s as [|c s IH]; intros ds H Hr; simpl in H.
  - injection H as <- <-. congruence.
  - rewrite app_String. simpl. destruct (is_digit c).
    + destruct (scan_digits s) as [ds' r'] eqn:E. injection H as <- <-.
      now rewrite (IH ds' eq_refl Hr).
    + now injection H as <- <-.
Qed.

Lemma scan_digits_empty (ds r : string) :
  scan_digits EmptyString = (ds, r) -> r = EmptyString.
Proof. now intros [= <- <-]. Qed.

Lemma scan_fraction_app (s fs r e : string) :
  scan_fraction s = Some (fs, r) -> r <> EmptyString ->
  scan_fraction (s ++ e) = Some (fs, r ++ e).
Proof.
  destruct s as [|c s]; simpl.
  - intros [= <- <-]. congruence.
  - destruct (c =? ".")%char.
    + destruct (scan_digits s) as [fs' r'] eqn:E.
      destruct (fs' =? "") eqn:Ef; [discriminate|].
      intros [= <- <-] Hr. now rewrite (scan_digits_app _ _ _ e E Hr), Ef.
    + now intros [= <- <-].
Qed.

Lemma scan_sign_app (s r e : string) (neg : bool) :
  scan_sign s = (neg, r) -> r <> EmptyString ->
  scan_sign (s ++ e) = (neg, r ++ e).
Proof.
  destruct s as [|c s]; simpl.
  - intros [= <- <-]. congruence.
  - destruct (c =? "-")%char; [now intros [= <- <-]|].
    destruct (c =? "+")%char; now intros [= <- <-].
Qed.

Lemma scan_exponent_app (s r e : string) (x : Z) :
  scan_exponent s = Some (x, r) -> r <> EmptyString ->
  scan_exponent (s ++ e) = Some (x, r ++ e).
Proof.
  destruct s as [|c s]; simpl.
  - intros [= <- <-]. congruence.
  - destruct ((c =? "e") || (c =? "E"))%char.
    + destruct (scan_sign s) as [neg s1] eqn:Es.
      destruct (scan_digits s1) as [es r'] eqn:Ed.
      destruct (es =? "") eqn:Ee; [discriminate|].
      intros [= <- <-] Hr.
      assert (Hs1 : s1 <> EmptyString).
      { intros ->. apply Hr. now apply scan_digits_empty in Ed. }
      now rewrite (scan_sign_app _ _ e _ Es Hs1), (scan_digits_app _ _ _ e Ed Hr), Ee.
    + now intros [= <- <-].
Qed.

Lemma scan_minus_app (s r e : string) (neg : bool) :
  scan_minus s = (neg, r) -> r <> EmptyString ->
  scan_minus (s ++ e) = (neg, r ++ e).
Proof.
  destruct s as [|c s]; simpl.
  - intros [= <- <-]. congruence.
  - destruct (c =? "-")%char; now intros [= <- <-].
Qed.

Lemma parse_number_num (s r : string) (v : value) :
  parse_number s = Some (v, r) -> is_num v = true.
Proof.
  unfold parse_number.
  destruct (scan_minus s) as [neg s0]. destruct (scan_digits s0) as [ds s1].
  destruct (int_ok ds); [|discriminate].
  destruct (scan_fraction s1) as [[fs s2]|]; [|discriminate].
  destruct (scan_exponent s2) as [[x s3]|]; [|discriminate].
  now intros [= <- <-].
Qed.

Lemma parse_number_app (s r e : string) (v : value) :
  parse_number s = Some (v, r) -> r <> EmptyString ->
  parse_number (s ++ e) = Some (v, r ++ e).
Proof.
  unfold parse_number.
  destruct (scan_minus s) as [neg s0] eqn:Em.
  destruct (scan_digits s0) as [ds s1] eqn:Ed.
  destruct (int_ok ds) eqn:Ei; [|discriminate].
  destruct (scan_fraction s1) as [[fs s2]|] eqn:Ef; [|discriminate].
  destruct (scan_exponent s2) as [[x s3]|] eqn:Ex; [|discriminate].
  intros [= <- <-] Hr.
  assert (H2 : s2 <> EmptyString).
  { intros ->. simpl in Ex. injection Ex as <- <-. congruence. }
  assert (H1 : s1 <> EmptyString).
  { intros ->. simpl in Ef. injection Ef as <- <-. congruence. }
  assert (H0 : s0 <> EmptyString).
  { intros ->. apply H1. now apply scan_digits_empty in Ed. }
  rewrite (scan_minus_app _ _ e _ Em H0), (scan_digits_app _ _ _ e Ed H1), Ei,
    (scan_fraction_app _ _ _ e Ef H2), (scan_exponent_app _ _ e _ Ex Hr).
  reflexivity.
Qed.

Lemma prefix_app (w s e : string) : prefix w s = true -> prefix w (s ++ e) = true.
Proof.
  revert s. induction w as [|a w IH]; intros s; simpl;
    [now destruct (s ++ e)|].
  destruct s as [|b s]; [discriminate|]. rewrite app_String. simpl.
  destruct (ascii_dec a b); [apply IH | discriminate].
Qed.

Lemma drop_app (w s e : string) :
  prefix w s = true -> drop (String.length w) (s ++ e) = drop (String.length w) s ++ e.
Proof.
  revert s. induction w as [|a w IH]; intros s; simpl; [reflexivity|].
  destruct s as [|b s]; [discriminate|]. rewrite app_String. simpl.
  destruct (ascii_dec a b); [apply IH | discriminate].
Qed.

Lemma literal_app (w s r e : string) (v v' : value) :
  literal w v s = Some (v', r) -> literal w v (s ++ e) = Some (v', r ++ e).
Proof.
  unfold literal. destruct (prefix w s) eqn:E; [|discriminate].
  intros [= <- <-]. now rewrite (prefix_app _ _ e E), (drop_app _ _ e E).
Qed.

Lemma parse_members_nonempty (f : nat) (s : string) acc x :
  parse_members f s acc = Some x -> s <> EmptyString.
Proof. destruct f; [discriminate|]. now intros H ->. Qed.

Lemma parse_value_nonempty (f : nat) (s : string) x :
  parse_value f s = Some x -> s <> EmptyString.
Proof. destruct f; [discriminate|]. now intros H ->. Qed.

Lemma parse_elements_nonempty (f : nat) (s : string) acc x :
  parse_elements f s acc = Some x -> s <> EmptyString.
Proof.
  destruct f; [discriminate|]. intros H ->. rewrite parse_elements_S in H.
  destruct f; discriminate.
Qed.

Lemma skip_ws_nonempty (s : string) :
  skip_ws s <> EmptyString -> s <> EmptyString.
Proof. now intros H ->. Qed.

(** What is parsed from a text is parsed from the text followed by any
    other, which is left with the rest.  A number is the exception when
    nothing follows it: more digits would be read into it. *)
Lemma parse_stable (f : nat) :
  (forall s v r e,
      parse_value f s = Some (v, r) ->
      is_num v = false \/ r <> EmptyString ->
      parse_value f (s ++ e) = Some (v, r ++ e)) /\
  (forall s acc v r e,
      parse_elements f s acc = Some (v, r) ->
      parse_elements f (s ++ e) acc = Some (v, r ++ e)) /\
  (forall s acc v r e,
      parse_members f s acc = Some (v, r) ->
      parse_members f (s ++ e) acc = Some (v, r ++ e)).
Proof.
  induction f as [|f [IHv [IHe IHm]]]; [repeat split; discriminate|].
  repeat split.
  - intros s v r e H Hok. rewrite parse_value_S in H.
    destruct s as [|c s']; [discriminate|].
    rewrite app_String, parse_value_S. rewrite <- app_String.
    destruct (c =? "{")%char.
    { destruct (after "}" (skip_ws s')) as [rest|] eqn:Ea.
      - injection H as <- <-.
        rewrite (skip_ws_app _ e (after_nonempty _ _ _ Ea)).
        now rewrite (after_app _ _ _ e Ea).
      - pose proof (parse_members_nonempty _ _ _ _ H) as Hne.
        rewrite (skip_ws_app _ e Hne), (after_app_None _ _ e Hne Ea).
        now apply IHm. }
    destruct (c =? "[")%char.
    { destruct (after "]" (skip_ws s')) as [rest|] eqn:Ea.
      - injection H as <- <-.
        rewrite (skip_ws_app _ e (after_nonempty _ _ _ Ea)).
        now rewrite (after_app _ _ _ e Ea).
      - pose proof (parse_elements_nonempty _ _ _ _ H) as Hne.
        rewrite (skip_ws_app _ e Hne), (after_app_None _ _ e Hne Ea).
        now apply IHe. }
    destruct (code c =? 34)%N.
    { destruct (parse_string s') as [[str rest]|] eqn:Es; [|discriminate].
      injection H as <- <-. now rewrite (parse_string_app _ _ _ e Es). }
    destruct (c =? "t")%char; [now apply literal_app|].
    destruct (c =? "f")%char; [now apply literal_app|].
    destruct (c =? "n")%char; [now apply literal_app|].
    apply parse_number_app; [assumption|].
    destruct Hok as [Hn | Hr]; [|assumption].
    apply parse_number_num in H. congruence.
  - intros s acc v r e H. rewrite parse_elements_S in H. rewrite parse_elements_S.
    destruct (parse_value f s) as [[v1 r1]|] eqn:Ev; [|discriminate].
    assert (Hne : skip_ws r1 <> EmptyString).
    { destruct (after "," (skip_ws r1)) eqn:E1; [now apply after_nonempty in E1|].
      destruct (after "]" (skip_ws r1)) eqn:E2; [now apply after_nonempty in E2|].
      discriminate. }
    rewrite (IHv _ _ _ e Ev (or_intror (skip_ws_nonempty _ Hne))).
    rewrite (skip_ws_app _ e Hne).
    destruct (after "," (skip_ws r1)) as [r'|] eqn:E1.
    + rewrite (after_app _ _ _ e E1).
      rewrite (skip_ws_app _ e (parse_elements_nonempty _ _ _ _ H)).
      now apply IHe.
    + rewrite (after_app_None _ _ e Hne E1).
      destruct (after "]" (skip_ws r1)) as [r'|] eqn:E2; [|discriminate].
      rewrite (after_app _ _ _ e E2). now injection H as <- <-.
  - intros s acc v r e H. rewrite parse_members_S in H. rewrite parse_members_S.
    destruct (after (ascii_of_N 34) s) as [s'|] eqn:Eq; [|discriminate].
    rewrite (after_app _ _ _ e Eq).
    destruct (parse_string s') as [[k r0]|] eqn:Es; [|discriminate].
    rewrite (parse_string_app _ _ _ e Es).
    destruct (after ":" (skip_ws r0)) as [r1|] eqn:Ec; [|discriminate].
    rewrite (skip_ws_app _ e (after_nonempty _ _ _ Ec)), (after_app _ _ _ e Ec).
    destruct (parse_value f (skip_ws r1)) as [[v1 r2]|] eqn:Ev; [|discriminate].
    assert (Hne : skip_ws r2 <> EmptyString).
    { destruct (after "," (skip_ws r2)) eqn:E1; [now apply after_nonempty in E1|].
      destruct (after "}" (skip_ws r2)) eqn:E2; [now apply after_nonempty in E2|].
      discriminate. }
    rewrite (skip_ws_app _ e (parse_value_nonempty _ _ _ Ev)).
    rewrite (IHv _ _ _ e Ev (or_intror (skip_ws_nonempty _ Hne))).
    rewrite (skip_ws_app _ e Hne).
    destruct (after "," (skip_ws r2)) as [r3|] eqn:E1.
    + rewrite (after_app _ _ _ e E1).
      rewrite (skip_ws_app _ e (parse_members_nonempty _ _ _ _ H)).
      now apply IHm.
    + rewrite (after_app_None _ _ e Hne E1).
      destruct (after "}" (skip_ws r2)) as [r3|] eqn:E2; [|discriminate].
      rewrite (after_app _ _ _ e E2). now injection H as <- <-.
Qed.

(** *** A proper prefix of the text of an object is no JSON text *)

Lemma parse_containers (f : nat) :
  (forall s acc v r, parse_elements f s acc = Some (v, r) -> is_arr v = true) /\
  (forall s acc v r, parse_members f s acc = Some (v, r) -> is_obj v = true).
Proof.
  induction f as [|f IH]; [split; discriminate|].
  split.
  - intros s acc v r. rewrite parse_elements_S.
    destruct (parse_value f s) as [[v1 r1]|]; [|discriminate].
    destruct (after "," (skip_ws r1)); [apply IH|].
    destruct (after "]" (skip_ws r1)); [|discriminate]. now intros [= <- <-].
  - intros s acc v r. rewrite parse_members_S.
    destruct (after (ascii_of_N 34) s); [|discriminate].
    destruct (parse_string _) as [[k r0]|]; [|discriminate].
    destruct (after ":" (skip_ws r0)); [|discriminate].
    destruct (parse_value f _) as [[v1 r2]|]; [|discriminate].
    destruct (after "," (skip_ws r2)); [apply IH|].
    destruct (after "}" (skip_ws r2)); [|discriminate]. now intros [= <- <-].
Qed.

Lemma literal_value (w s r : string) (v v' : value) :
  literal w v s = Some (v', r) -> v' = v.
Proof. unfold literal. destruct (prefix w s); [now intros [= <- <-] | discriminate]. Qed.

(** The first character tells whether the value is an object. *)
Lemma parse_value_object (f : nat) (c : ascii) (s r : string) (v : value) :
  parse_value f (String c s) = Some (v, r) -> is_obj v = (c =? "{")%char.
Proof.
  destruct f; [discriminate|]. rewrite parse_value_S.
  destruct (c =? "{")%char.
  { destruct (after "}" (skip_ws s)); [now intros [= <- <-]|].
    apply (proj2 (parse_containers f)). }
  destruct (c =? "[")%char.
  { destruct (after "]" (skip_ws s)); [now intros [= <- <-]|].
    intros H. apply (proj1 (parse_containers f)) in H. now destruct v. }
  destruct (code c =? 34)%N.
  { destruct (parse_string s) as [[str rest]|]; [now intros [= <- <-] | discriminate]. }
  destruct (c =? "t")%char; [intros H; now rewrite (literal_value _ _ _ _ _ H)|].
  destruct (c =? "f")%char; [intros H; now rewrite (literal_value _ _ _ _ _ H)|].
  destruct (c =? "n")%char; [intros H; now rewrite (literal_value _ _ _ _ _ H)|].
  intros H. apply parse_number_num in H. now destruct v.
Qed.

Lemma ends_with_ws_app (p q : string) :
  q <> EmptyString -> ends_with_ws (p ++ q) = ends_with_ws q.
Proof.
  intros Hq. induction p as [|c p IH]; [reflexivity|].
  rewrite app_String. simpl. rewrite IH.
  destruct (p ++ q) eqn:E; [|reflexivity].
  destruct p; [simpl in E; congruence | discriminate].
Qed.

Lemma blank_ends_with_ws (s : string) :
  s <> EmptyString -> skip_ws s = EmptyString -> ends_with_ws s = true.
Proof.
  induction s as [|c s IH]; [congruence|]. intros _. simpl.
  destruct (is_ws c) eqn:E; [|discriminate].
  destruct s; [reflexivity | intros H; apply IH; [discriminate | exact H]].
Qed.

Lemma skip_ws_blank_app (a q : string) :
  skip_ws (a ++ q) = EmptyString -> skip_ws q = EmptyString.
Proof.
  induction a as [|c a IH]; [trivial|]. rewrite app_String. simpl.
  destruct (is_ws c); [exact IH | discriminate].
Qed.

Lemma length_skip_ws (s : string) : String.length (skip_ws s) <= String.length s.
Proof.
  induction s as [|c s IH]; simpl; [lia|]. destruct (is_ws c); simpl; lia.
Qed.

Lemma length_append (a b : string) :
  String.length (a ++ b) = String.length a + String.length b.
Proof. induction a as [|c a IH]; simpl; [reflexivity | now rewrite IH]. Qed.

(** When a text is the JSON of an object and does not end with white
    space, none of its proper prefixes is JSON. *)
Theorem JSON_parse_prefix (p q : string) (v : value) :
  JSON_parse (p ++ q) = Some v -> is_obj v = true ->
  q <> EmptyString -> ends_with_ws (p ++ q) = false ->
  JSON_parse p = None.
Proof.
  intros H Hobj Hq Hend.
  destruct (JSON_parse p) as [v'|] eqn:Hp; [exfalso | reflexivity].
  unfold JSON_parse in H, Hp.
  destruct (parse_value _ (skip_ws p)) as [[v1 r1]|] eqn:E1; [|discriminate].
  destruct (skip_ws r1) eqn:B1; [|discriminate].
  pose proof (parse_value_nonempty _ _ _ E1) as Hne.
  rewrite (skip_ws_app _ q Hne) in H.
  destruct (parse_value _ (skip_ws p ++ q)) as [[v2 r2]|] eqn:E2; [|discriminate].
  destruct (skip_ws r2) eqn:B2; [|discriminate].
  injection H as ->.
  assert (Hfuel : 2 * String.length p + 2 <= 2 * String.length (p ++ q) + 2).
  { rewrite length_append. lia. }
  destruct (is_num v1) eqn:Hnum; [destruct (string_dec r1 EmptyString) as [-> | Hr]|].
  - (* a number up to the end of the prefix: the text does not start as an object *)
    destruct (skip_ws p) as [|c s1]; [congruence|].
    apply parse_value_object in E1. rewrite app_String in E2.
    apply parse_value_object in E2. rewrite Hobj in E2. rewrite <- E2 in E1.
    destruct v1; discriminate.
  - pose proof (proj1 (parse_stable _) _ _ _ q E1 (or_intror Hr)) as E.
    apply (parse_value_fuel _ _ _ _ Hfuel) in E.
    rewrite E in E2. injection E2 as <- <-.
    apply skip_ws_blank_app in B2.
    rewrite (ends_with_ws_app _ _ Hq), (blank_ends_with_ws _ Hq B2) in Hend.
    discriminate.
  - pose proof (proj1 (parse_stable _) _ _ _ q E1 (or_introl Hnum)) as E.
    apply (parse_value_fuel _ _ _ _ Hfuel) in E.
    rewrite E in E2. injection E2 as <- <-.
    apply skip_ws_blank_app in B2.
    rewrite (ends_with_ws_app _ _ Hq), (blank_ends_with_ws _ Hq B2) in Hend.
    discriminate.
Qed.

(** *** Where a JSON text is inside a string literal *)

Lemma lex_app (m : mode) (a b : string) :
  lex m (a ++ b) =
    match lex m a with
    | Some m' => lex m' b
    | None => None
    end.
Proof.
  revert m. induction a as [|c a IH]; intros m; simpl; [reflexivity|].
  destruct (lex_step m c); [apply IH | reflexivity].
Qed.

Lemma consumed_refl (m : mode) (s : string) : consumed m m s s.
Proof. now exists EmptyString. Qed.

Lemma append_assoc (a b c : string) : (a ++ b) ++ c = a ++ b ++ c.
Proof. induction a as [|x a IH]; simpl; [reflexivity | now rewrite IH]. Qed.

Lemma consumed_trans (m1 m2 m3 : mode) (s r t : string) :
  consumed m1 m2 s r -> consumed m2 m3 r t -> consumed m1 m3 s t.
Proof.
  intros [a [-> Ha]] [b [-> Hb]]. exists (a ++ b).
  split; [now rewrite append_assoc | now rewrite lex_app, Ha].
Qed.

Lemma consumed_char (m m' : mode) (c : ascii) (s : string) :
  lex_step m c = Some m' -> consumed m m' (String c s) s.
Proof. intros H. exists (String c EmptyString). simpl. now rewrite H. Qed.

Lemma outside_step (c : ascii) :
  code c <> 34%N -> code c <> 92%N -> code c <> 100%N ->
  lex_step Outside c = Some Outside.
Proof.
  intros H1 H2 H3. unfold lex_step.
  apply N.eqb_neq in H1, H2, H3. now rewrite H1, H2, H3.
Qed.

Lemma inside_step (c : ascii) :
  code c <> 34%N -> code c <> 92%N -> lex_step Inside c = Some Inside.
Proof.
  intros H1 H2. unfold lex_step. apply N.eqb_neq in H1, H2. now rewrite H1, H2.
Qed.

Lemma char_code (c d : ascii) : (c =? d)%char = true -> code c = code d.
Proof. intros H. apply Ascii.eqb_eq in H. now subst. Qed.

Lemma ws_code (c : ascii) :
  is_ws c = true ->
  code c = 32%N \/ code c = 9%N \/ code c = 10%N \/ code c = 13%N.
Proof.
  unfold is_ws. cbv zeta. rewrite !orb_true_iff, !N.eqb_eq. tauto.
Qed.

Lemma digit_code (c : ascii) : is_digit c = true -> (48 <= code c <= 57)%N.
Proof.
  unfold is_digit. cbv zeta. rewrite andb_true_iff, !N.leb_le. tauto.
Qed.

Lemma skip_ws_consumed (s : string) : consumed Outside Outside s (skip_ws s).
Proof.
  induction s as [|c s IH]; simpl; [apply consumed_refl|].
  destruct (is_ws c) eqn:E; [|apply consumed_refl].
  apply (consumed_trans _ Outside _ _ s); [|exact IH].
  apply consumed_char, outside_step; apply ws_code in E; lia.
Qed.

Lemma after_consumed (m m' : mode) (c : ascii) (s r : string) :
  after c s = Some r -> lex_step m c = Some m' -> consumed m m' s r.
Proof.
  destruct s as [|c' s]; simpl; [discriminate|].
  destruct (c' =? c)%char eqn:E; [|discriminate].
  apply Ascii.eqb_eq in E. subst c'. intros [= ->]. apply consumed_char.
Qed.

Lemma simple_escape_code (x y : ascii) :
  simple_escape x = Some y -> code x <> 100%N.
Proof.
  unfold simple_escape. cbv zeta.
  repeat match goal with
         | |- context [(?a =? ?b)%N] =>
             destruct (N.eqb_spec a b); [intros _; lia|]
         end.
  discriminate.
Qed.

Lemma hex_code (c : ascii) (n : N) :
  hex_value c = Some n -> code c <> 34%N /\ code c <> 92%N.
Proof.
  unfold hex_value. cbv zeta.
  repeat match goal with
         | |- context [(?a && ?b)] =>
             let E := fresh in
             destruct (a && b) eqn:E;
             [apply andb_true_iff in E as [? ?];
              repeat match goal with H : (_ <=? _)%N = true |- _ =>
                       apply N.leb_le in H end;
              intros _; lia|]
         end.
  discriminate.
Qed.

Lemma hex4_codes (a b c d : ascii) (n : N) :
  hex4 a b c d = Some n ->
  lex Inside (String a (String b (String c (String d EmptyString)))) = Some Inside.
Proof.
  unfold hex4.
  destruct (hex_value a) eqn:Ea; [|discriminate].
  destruct (hex_value b) eqn:Eb; [|discriminate].
  destruct (hex_value c) eqn:Ec; [|discriminate].
  destruct (hex_value d) eqn:Ed; [|discriminate].
  intros _. apply hex_code in Ea, Eb, Ec, Ed. cbn [lex].
  rewrite !inside_step; tauto.
Qed.

Lemma scan_string_consumed (n : nat) :
  forall s us r,
    String.length s <= n ->
    scan_string s = Some (us, r) -> consumed Inside Outside s r.
Proof.
  induction n as [|n IH]; intros s us r Hn H.
  - destruct s; [discriminate | simpl in Hn; lia].
  - destruct s as [|c s']; [discriminate|]. simpl in H, Hn.
    destruct (code c =? 34)%N eqn:Eq.
    { injection H as <- <-. apply consumed_char. unfold lex_step. now rewrite Eq. }
    destruct (code c =? 92)%N eqn:Eb.
    { destruct s' as [|x s'']; [discriminate|]. simpl in Hn.
      apply (consumed_trans _ Escaped _ _ (String x s''));
        [apply consumed_char; unfold lex_step; now rewrite Eq, Eb|].
      destruct (simple_escape x) eqn:Ee.
      - destruct (scan_string s'') as [[us' r']|] eqn:E; [|discriminate].
        injection H as <- <-.
        apply (consumed_trans _ Inside _ _ s'');
          [|apply (IH s'' us' r'); [lia | assumption]].
        apply consumed_char. unfold lex_step. cbv zeta.
        apply simple_escape_code, N.eqb_neq in Ee. now rewrite Ee.
      - destruct (code x =? 117)%N eqn:Eu; [|discriminate].
        destruct s'' as [|h1 [|h2 [|h3 [|h4 s5]]]]; try discriminate.
        simpl in Hn.
        destruct (hex4 h1 h2 h3 h4) eqn:Eh; [|discriminate].
        destruct (scan_string s5) as [[us' r']|] eqn:E; [|discriminate].
        injection H as <- <-.
        apply (consumed_trans _ Inside _ _ (String h1 (String h2 (String h3 (String h4 s5))))).
        { apply consumed_char. unfold lex_step. cbv zeta.
          apply N.eqb_eq in Eu. rewrite Eu. reflexivity. }
        apply (consumed_trans _ Inside _ _ s5);
          [|apply (IH s5 us' r'); [lia | assumption]].
        exists (String h1 (String h2 (String h3 (String h4 EmptyString)))).
        split; [reflexivity | exact (hex4_codes _ _ _ _ _ Eh)]. }
    destruct (code c <? 32)%N; [discriminate|].
    destruct (scan_string s') as [[us' r']|] eqn:E; [|discriminate].
    injection H as <- <-.
    apply (consumed_trans _ Inside _ _ s');
      [|apply (IH s' us' r'); [lia | assumption]].
    apply consumed_char. unfold lex_step. now rewrite Eq, Eb.
Qed.

Lemma parse_string_consumed (s str r : string) :
  parse_string s = Some (str, r) -> consumed Inside Outside s r.
Proof.
  unfold parse_string.
  destruct (scan_string s) as [[us r']|] eqn:E; [|discriminate].
  intros [= <- <-]. exact (scan_string_consumed _ s us r' (le_n _) E).
Qed.

Lemma scan_digits_consumed (s ds r : string) :
  scan_digits s = (ds, r) -> consumed Outside Outside s r.
Proof.
  revert ds. induction s as [|c s IH]; intros ds H; simpl in H.
  - injection H as <- <-. apply consumed_refl.
  - destruct (is_digit c) eqn:Ed.
    + destruct (scan_digits s) as [ds' r'] eqn:E. injection H as <- <-.
      apply (consumed_trans _ Outside _ _ s); [|exact (IH ds' eq_refl)].
      apply consumed_char, outside_step; apply digit_code in Ed; lia.
    + injection H as <- <-. apply consumed_refl.
Qed.

(** One character outside a string literal, known by the test [E]. *)
Ltac one_char E :=
  apply consumed_char, outside_step;
  (apply char_code in E || (apply orb_true_iff in E as [E | E]; apply char_code in E));
  rewrite E; discriminate.

Lemma scan_fraction_consumed (s fs r : string) :
  scan_fraction s = Some (fs, r) -> consumed Outside Outside s r.
Proof.
  destruct s as [|c s]; simpl.
  - intros [= <- <-]. apply consumed_refl.
  - destruct (c =? ".")%char eqn:E.
    + destruct (scan_digits s) as [fs' r'] eqn:Ed.
      destruct (fs' =? ""); [discriminate|]. intros [= <- <-].
      apply (consumed_trans _ Outside _ _ s);
        [one_char E | exact (scan_digits_consumed _ _ _ Ed)].
    + intros [= <- <-]. apply consumed_refl.
Qed.

Lemma scan_sign_consumed (s r : string) (neg : bool) :
  scan_sign s = (neg, r) -> consumed Outside Outside s r.
Proof.
  destruct s as [|c s]; simpl.
  - intros [= <- <-]. apply consumed_refl.
  - destruct (c =? "-")%char eqn:E1; [intros [= <- <-]; one_char E1|].
    destruct (c =? "+")%char eqn:E2; [intros [= <- <-]; one_char E2|].
    intros [= <- <-]. apply consumed_refl.
Qed.

Lemma scan_minus_consumed (s r : string) (neg : bool) :
  scan_minus s = (neg, r) -> consumed Outside Outside s r.
Proof.
  destruct s as [|c s]; simpl.
  - intros [= <- <-]. apply consumed_refl.
  - destruct (c =? "-")%char eqn:E1; [intros [= <- <-]; one_char E1|].
    intros [= <- <-]. apply consumed_refl.
Qed.

Lemma scan_exponent_consumed (s r : string) (x : Z) :
  scan_exponent s = Some (x, r) -> consumed Outside Outside s r.
Proof.
  destruct s as [|c s]; simpl.
  - intros [= <- <-]. apply consumed_refl.
  - destruct ((c =? "e") || (c =? "E"))%char eqn:E.
    + destruct (scan_sign s) as [neg s1] eqn:Es.
      destruct (scan_digits s1) as [es r'] eqn:Ed.
      destruct (es =? ""); [discriminate|]. intros [= <- <-].
      apply (consumed_trans _ Outside _ _ s); [one_char E|].
      apply (consumed_trans _ Outside _ _ s1);
        [exact (scan_sign_consumed _ _ _ Es) | exact (scan_digits_consumed _ _ _ Ed)].
    + intros [= <- <-]. apply consumed_refl.
Qed.

Lemma parse_number_consumed (s r : string) (v : value) :
  parse_number s = Some (v, r) -> consumed Outside Outside s r.
Proof.
  unfold parse_number.
  destruct (scan_minus s) as [neg s0] eqn:Em.
  destruct (scan_digits s0) as [ds s1] eqn:Ed.
  destruct (int_ok ds); [|discriminate].
  destruct (scan_fraction s1) as [[fs s2]|] eqn:Ef; [|discriminate].
  destruct (scan_exponent s2) as [[x s3]|] eqn:Ex; [|discriminate].
  intros [= <- <-].
  apply (consumed_trans _ Outside _ _ s0); [exact (scan_minus_consumed _ _ _ Em)|].
  apply (consumed_trans _ Outside _ _ s1); [exact (scan_digits_consumed _ _ _ Ed)|].
  apply (consumed_trans _ Outside _ _ s2); [exact (scan_fraction_consumed _ _ _ Ef)|].
  exact (scan_exponent_consumed _ _ _ Ex).
Qed.

Lemma prefix_drop (w s : string) :
  prefix w s = true -> s = w ++ drop (String.length w) s.
Proof.
  revert s. induction w as [|a w IH]; intros s; simpl; [reflexivity|].
  destruct s as [|b s]; [discriminate|]. simpl.
  destruct (ascii_dec a b) as [-> |]; [|discriminate].
  intros H. now rewrite <- (IH s H).
Qed.

Lemma literal_consumed (w s r : string) (v v' : value) :
  literal w v s = Some (v', r) -> lex Outside w = Some Outside ->
  consumed Outside Outside s r.
Proof.
  unfold literal. destruct (prefix w s) eqn:E; [|discriminate].
  intros [= <- <-] Hw. exists w. split; [exact (prefix_drop _ _ E) | exact Hw].
Qed.

(** One structural character, found by [after]. *)
Ltac structural H :=
  apply (after_consumed Outside Outside _ _ _ H); reflexivity.

(** What the parser consumes takes the scanner from outside a string
    literal to outside a string literal. *)
Lemma parse_consumed (f : nat) :
  (forall s v r, parse_value f s = Some (v, r) -> consumed Outside Outside s r) /\
  (forall s acc v r,
      parse_elements f s acc = Some (v, r) -> consumed Outside Outside s r) /\
  (forall s acc v r,
      parse_members f s acc = Some (v, r) -> consumed Outside Outside s r).
Proof.
  induction f as [|f [IHv [IHe IHm]]]; [repeat split; discriminate|].
  repeat split.
  - intros s v r H. rewrite parse_value_S in H.
    destruct s as [|c s']; [discriminate|].
    destruct (c =? "{")%char eqn:Eo.
    { apply (consumed_trans _ Outside _ _ s'); [one_char Eo|].
      apply (consumed_trans _ Outside _ _ (skip_ws s')); [apply skip_ws_consumed|].
      destruct (after "}" (skip_ws s')) as [rest|] eqn:Ea.
      - injection H as <- <-. structural Ea.
      - exact (IHm _ _ _ _ H). }
    destruct (c =? "[")%char eqn:Eb.
    { apply (consumed_trans _ Outside _ _ s'); [one_char Eb|].
      apply (consumed_trans _ Outside _ _ (skip_ws s')); [apply skip_ws_consumed|].
      destruct (after "]" (skip_ws s')) as [rest|] eqn:Ea.
      - injection H as <- <-. structural Ea.
      - exact (IHe _ _ _ _ H). }
    destruct (code c =? 34)%N eqn:Eq.
    { destruct (parse_string s') as [[str rest]|] eqn:Es; [|discriminate].
      injection H as <- <-.
      apply (consumed_trans _ Inside _ _ s'); [|exact (parse_string_consumed _ _ _ Es)].
      apply consumed_char. unfold lex_step. now rewrite Eq. }
    destruct (c =? "t")%char; [exact (literal_consumed _ _ _ _ _ H eq_refl)|].
    destruct (c =? "f")%char; [exact (literal_consumed _ _ _ _ _ H eq_refl)|].
    destruct (c =? "n")%char; [exact (literal_consumed _ _ _ _ _ H eq_refl)|].
    exact (parse_number_consumed _ _ _ H).
  - intros s acc v r H. rewrite parse_elements_S in H.
    destruct (parse_value f s) as [[v1 r1]|] eqn:Ev; [|discriminate].
    apply (consumed_trans _ Outside _ _ r1); [exact (IHv _ _ _ Ev)|].
    apply (consumed_trans _ Outside _ _ (skip_ws r1)); [apply skip_ws_consumed|].
    destruct (after "," (skip_ws r1)) as [r'|] eqn:E1.
    + apply (consumed_trans _ Outside _ _ r'); [structural E1|].
      apply (consumed_trans _ Outside _ _ (skip_ws r')); [apply skip_ws_consumed|].
      exact (IHe _ _ _ _ H).
    + destruct (after "]" (skip_ws r1)) as [r'|] eqn:E2; [|discriminate].
      injection H as <- <-. structural E2.
  - intros s acc v r H. rewrite parse_members_S in H.
    destruct (after (ascii_of_N 34) s) as [s'|] eqn:Eq; [|discriminate].
    destruct (parse_string s') as [[k r0]|] eqn:Es; [|discriminate].
    destruct (after ":" (skip_ws r0)) as [r1|] eqn:Ec; [|discriminate].
    destruct (parse_value f (skip_ws r1)) as [[v1 r2]|] eqn:Ev; [|discriminate].
    apply (consumed_trans _ Inside _ _ s');
      [apply (after_consumed Outside Inside _ _ _ Eq); reflexivity|].
    apply (consumed_trans _ Outside _ _ r0); [exact (parse_string_consumed _ _ _ Es)|].
    apply (consumed_trans _ Outside _ _ (skip_ws r0)); [apply skip_ws_consumed|].
    apply (consumed_trans _ Outside _ _ r1); [structural Ec|].
    apply (consumed_trans _ Outside _ _ (skip_ws r1)); [apply skip_ws_consumed|].
    apply (consumed_trans _ Outside _ _ r2); [exact (IHv _ _ _ Ev)|].
    apply (consumed_trans _ Outside _ _ (skip_ws r2)); [apply skip_ws_consumed|].
    destruct (after "," (skip_ws r2)) as [r3|] eqn:E1.
    + apply (consumed_trans _ Outside _ _ r3); [structural E1|].
      apply (consumed_trans _ Outside _ _ (skip_ws r3)); [apply skip_ws_consumed|].
      exact (IHm _ _ _ _ H).
    + destruct (after "}" (skip_ws r2)) as [r3|] eqn:E2; [|discriminate].
      injection H as <- <-. structural E2.
Qed.

(** A JSON text is scanned from outside a string to outside a string. *)
Lemma JSON_parse_lex (s : string) (v : value) :
  JSON_parse s = Some v -> lex Outside s = Some Outside.
Proof.
  unfold JSON_parse.
  destruct (parse_value _ (skip_ws s)) as [[v1 r]|] eqn:E; [|discriminate].
  destruct (skip_ws r) eqn:B; [|discriminate]. intros _.
  assert (H : consumed Outside Outside s EmptyString).
  { apply (consumed_trans _ Outside _ _ (skip_ws s)); [apply skip_ws_consumed|].
    apply (consumed_trans _ Outside _ _ r);
      [exact (proj1 (parse_consumed _) _ _ _ E)|].
    rewrite <- B. apply skip_ws_consumed. }
  destruct H as [c [-> Hc]]. now rewrite append_nil_r.
Qed.

(** Two scans of one text that start on different sides of a quotation mark
    stay on different sides. *)
Lemma lex_opposite (x : string) :
  forall m1 m2 m1' m2',
    opposite m1 m2 -> lex m1 x = Some m1' -> lex m2 x = Some m2' ->
    opposite m1' m2'.
Proof.
  induction x as [|c x IH]; intros m1 m2 m1' m2' Hop H1 H2; simpl in H1, H2.
  - injection H1 as <-. injection H2 as <-. exact Hop.
  - destruct (lex_step m1 c) as [n1|] eqn:E1; [|discriminate].
    destruct (lex_step m2 c) as [n2|] eqn:E2; [|discriminate].
    apply (IH n1 n2 m1' m2'); [|assumption|assumption].
    unfold lex_step in E1, E2. cbv zeta in E1, E2.
    destruct Hop as [[-> ->] | [-> ->]];
      destruct (code c =? 34)%N; destruct (code c =? 92)%N;
      destruct (code c =? 100)%N; simpl in E1, E2;
      try discriminate;
      injection E1 as <-; injection E2 as <-; unfold opposite; tauto.
Qed.

(** The marker can only stand inside a string literal. *)
Lemma lex_marker (m m' : mode) (x : string) :
  lex m ("data: " ++ x) = Some m' -> m = Inside /\ lex Inside x = Some m'.
Proof. destruct m; simpl; try discriminate. tauto. Qed.

(** In a JSON text the marker stands inside a string literal, so what
    follows it starts inside the literal and is no JSON text. *)
Theorem JSON_parse_after_marker (p x : string) (v : value) :
  JSON_parse (p ++ "data: " ++ x) = Some v -> JSON_parse x = None.
Proof.
  intros H. apply JSON_parse_lex in H. rewrite lex_app in H.
  destruct (lex Outside p) as [m|]; [|discriminate].
  apply lex_marker in H as [-> H].
  destruct (JSON_parse x) as [v'|] eqn:E; [exfalso | reflexivity].
  apply JSON_parse_lex in E.
  destruct (lex_opposite x Inside Outside Outside Outside) as [[? _] | [_ ?]];
    try assumption; try discriminate.
  left. split; reflexivity.
Qed.

(** *** The fuel of [JSON_parse] is enough *)

Lemma after_length (c : ascii) (s r : string) :
  after c s = Some r -> String.length s = S (String.length r).
Proof.
  destruct s as [|c' s]; simpl; [discriminate|].
  destruct (c' =? c)%char; [now intros [= ->] | discriminate].
Qed.

Lemma scan_string_length (n : nat) :
  forall s us r,
    String.length s <= n ->
    scan_string s = Some (us, r) -> String.length r < String.length s.
Proof.
  induction n as [|n IH]; intros s us r Hn H.
  - destruct s; [discriminate | simpl in Hn; lia].
  - destruct s as [|c s']; [discriminate|]. simpl in H, Hn.
    destruct (code c =? 34)%N; [injection H as <- <-; simpl; lia|].
    destruct (code c =? 92)%N.
    { destruct s' as [|x s'']; [discriminate|]. simpl in Hn.
      destruct (simple_escape x).
      - destruct (scan_string s'') as [[us' r']|] eqn:E; [|discriminate].
        injection H as <- <-. apply IH in E; simpl; lia.
      - destruct (code x =? 117)%N; [|discriminate].
        destruct s'' as [|h1 [|h2 [|h3 [|h4 s5]]]]; try discriminate.
        simpl in Hn. destruct (hex4 h1 h2 h3 h4); [|discriminate].
        destruct (scan_string s5) as [[us' r']|] eqn:E; [|discriminate].
        injection H as <- <-. apply IH in E; simpl; lia. }
    destruct (code c <? 32)%N; [discriminate|].
    destruct (scan_string s') as [[us' r']|] eqn:E; [|discriminate].
    injection H as <- <-. apply IH in E; simpl; lia.
Qed.

Lemma parse_string_length (s str r : string) :
  parse_string s = Some (str, r) -> String.length r < String.length s.
Proof.
  unfold parse_string.
  destruct (scan_string s) as [[us r']|] eqn:E; [|discriminate].
  intros [= <- <-]. exact (scan_string_length _ s us r' (le_n _) E).
Qed.

Lemma scan_digits_length (s ds r : string) :
  scan_digits s = (ds, r) ->
  String.length s = String.length ds + String.length r.
Proof.
  revert ds. induction s as [|c s IH]; intros ds H; simpl in H.
  - now injection H as <- <-.
  - destruct (is_digit c).
    + destruct (scan_digits s) as [ds' r'] eqn:E. injection H as <- <-.
      simpl. now rewrite (IH ds' eq_refl).
    + now injection H as <- <-.
Qed.

Lemma scan_fraction_length (s fs r : string) :
  scan_fraction s = Some (fs, r) -> String.length r <= String.length s.
Proof.
  destruct s as [|c s]; simpl; [now intros [= <- <-]|].
  destruct (c =? ".")%char; [|now intros [= <- <-]].
  destruct (scan_digits s) as [fs' r'] eqn:E. destruct (fs' =? ""); [discriminate|].
  intros [= <- <-]. apply scan_digits_length in E. lia.
Qed.

Lemma scan_sign_length (s r : string) (neg : bool) :
  scan_sign s = (neg, r) -> String.length r <= String.length s.
Proof.
  destruct s as [|c s]; simpl; [now intros [= <- <-]|].
  destruct (c =? "-")%char; [intros [= <- <-]; lia|].
  destruct (c =? "+")%char; intros [= <- <-]; simpl; lia.
Qed.

Lemma scan_minus_length (s r : string) (neg : bool) :
  scan_minus s = (neg, r) -> String.length r <= String.length s.
Proof.
  destruct s as [|c s]; simpl; [now intros [= <- <-]|].
  destruct (c =? "-")%char; intros [= <- <-]; simpl; lia.
Qed.

Lemma scan_exponent_length (s r : string) (x : Z) :
  scan_exponent s = Some (x, r) -> String.length r <= String.length s.
Proof.
  destruct s as [|c s]; simpl; [now intros [= <- <-]|].
  destruct ((c =? "e") || (c =? "E"))%char; [|now intros [= <- <-]].
  destruct (scan_sign s) as [neg s1] eqn:Es.
  destruct (scan_digits s1) as [es r'] eqn:Ed. destruct (es =? ""); [discriminate|].
  intros [= <- <-]. apply scan_sign_length in Es. apply scan_digits_length in Ed. lia.
Qed.

Lemma parse_number_length (s r : string) (v : value) :
  parse_number s = Some (v, r) -> String.length r < String.length s.
Proof.
  unfold parse_number.
  destruct (scan_minus s) as [neg s0] eqn:Em.
  destruct (scan_digits s0) as [ds s1] eqn:Ed.
  destruct (int_ok ds) eqn:Ei; [|discriminate].
  destruct (scan_fraction s1) as [[fs s2]|] eqn:Ef; [|discriminate].
  destruct (scan_exponent s2) as [[x s3]|] eqn:Ex; [|discriminate].
  intros [= <- <-].
  apply scan_minus_length in Em. apply scan_digits_length in Ed.
  apply scan_fraction_length in Ef. apply scan_exponent_length in Ex.
  destruct ds; [discriminate|]. simpl in Ed. lia.
Qed.

Lemma literal_length (w s r : string) (v v' : value) :
  literal w v s = Some (v', r) -> w <> EmptyString ->
  String.length r < String.length s.
Proof.
  unfold literal. destruct (prefix w s) eqn:E; [|discriminate].
  intros [= <- <-] Hw. apply prefix_drop in E.
  rewrite E at 2. rewrite length_append. destruct w; [congruence | simpl; lia].
Qed.

(** A successful parse consumes text, and fuel up to the length of what it
    consumed is enough for it. *)
Lemma length_String (c : ascii) (s : string) :
  String.length (String c s) = S (String.length s).
Proof. reflexivity. Qed.

Lemma parse_fuel_enough (F : nat) :
  (forall s v r,
      parse_value F s = Some (v, r) ->
      String.length r < String.length s /\
      forall f, String.length s - String.length r <= f ->
                parse_value f s = Some (v, r)) /\
  (forall s acc v r,
      parse_elements F s acc = Some (v, r) ->
      String.length r < String.length s /\
      forall f, String.length s - String.length r <= f ->
                parse_elements f s acc = Some (v, r)) /\
  (forall s acc v r,
      parse_members F s acc = Some (v, r) ->
      String.length r < String.length s /\
      forall f, String.length s - String.length r <= f ->
                parse_members f s acc = Some (v, r)).
Proof.
  induction F as [|F [IHv [IHe IHm]]]; [repeat split; discriminate|].
  split; [|split].
  - intros s v r H. rewrite parse_value_S in H.
    destruct s as [|c s']; [discriminate|].
    pose proof (length_skip_ws s') as Hws.
    destruct (c =? "{")%char eqn:Eo.
    { destruct (after "}" (skip_ws s')) as [rest|] eqn:Ea.
      - injection H as <- <-. pose proof (after_length _ _ _ Ea) as La. rewrite length_String. split; [lia|].
        intros [|f] Hf; [lia|]. now rewrite parse_value_S, Eo, Ea.
      - destruct (IHm _ _ _ _ H) as [Hl Hf']. rewrite length_String. split; [lia|].
        intros [|f] Hf; [lia|]. rewrite parse_value_S, Eo, Ea.
        apply Hf'. lia. }
    destruct (c =? "[")%char eqn:Eb.
    { destruct (after "]" (skip_ws s')) as [rest|] eqn:Ea.
      - injection H as <- <-. pose proof (after_length _ _ _ Ea) as La. rewrite length_String. split; [lia|].
        intros [|f] Hf; [lia|]. now rewrite parse_value_S, Eo, Eb, Ea.
      - destruct (IHe _ _ _ _ H) as [Hl Hf']. rewrite length_String. split; [lia|].
        intros [|f] Hf; [lia|]. rewrite parse_value_S, Eo, Eb, Ea.
        apply Hf'. lia. }
    assert (Hleaf : forall f, parse_value (S f) (String c s') = parse_value (S F) (String c s')).
    { intros f. rewrite !parse_value_S, Eo, Eb. reflexivity. }
    assert (Hlen : String.length r < String.length (String c s')).
    { destruct (code c =? 34)%N.
      { destruct (parse_string s') as [[str rest]|] eqn:Es; [|discriminate].
        injection H as <- <-. apply parse_string_length in Es. rewrite length_String. lia. }
      destruct (c =? "t")%char; [apply (literal_length _ _ _ _ _ H); discriminate|].
      destruct (c =? "f")%char; [apply (literal_length _ _ _ _ _ H); discriminate|].
      destruct (c =? "n")%char; [apply (literal_length _ _ _ _ _ H); discriminate|].
      exact (parse_number_length _ _ _ H). }
    split; [exact Hlen|].
    intros [|f] Hf; [lia|]. rewrite Hleaf, parse_value_S, Eo, Eb. exact H.
  - intros s acc v r H. rewrite parse_elements_S in H.
    destruct (parse_value F s) as [[v1 r1]|] eqn:Ev; [|discriminate].
    destruct (IHv _ _ _ Ev) as [L1 F1].
    pose proof (length_skip_ws r1) as Hws.
    destruct (after "," (skip_ws r1)) as [r'|] eqn:E1.
    + destruct (IHe _ _ _ _ H) as [L2 F2].
      pose proof (length_skip_ws r') as Hws'. apply after_length in E1 as L3.
      split; [lia|].
      intros [|f] Hf; [lia|]. rewrite parse_elements_S, (F1 f), E1; [|lia].
      apply F2. lia.
    + destruct (after "]" (skip_ws r1)) as [r'|] eqn:E2; [|discriminate].
      injection H as <- <-. apply after_length in E2 as L3.
      split; [lia|].
      intros [|f] Hf; [lia|]. rewrite parse_elements_S, (F1 f), E1, E2; [reflexivity|lia].
  - intros s acc v r H. rewrite parse_members_S in H.
    destruct (after (ascii_of_N 34) s) as [s'|] eqn:Eq; [|discriminate].
    destruct (parse_string s') as [[k r0]|] eqn:Es; [|discriminate].
    destruct (after ":" (skip_ws r0)) as [r1|] eqn:Ec; [|discriminate].
    destruct (parse_value F (skip_ws r1)) as [[v1 r2]|] eqn:Ev; [|discriminate].
    destruct (IHv _ _ _ Ev) as [L1 F1].
    apply after_length in Eq as Lq. apply parse_string_length in Es as Ls.
    apply after_length in Ec as Lc.
    pose proof (length_skip_ws r0) as Hw0. pose proof (length_skip_ws r1) as Hw1.
    pose proof (length_skip_ws r2) as Hw2.
    destruct (after "," (skip_ws r2)) as [r3|] eqn:E1.
    + destruct (IHm _ _ _ _ H) as [L2 F2].
      pose proof (length_skip_ws r3) as Hw3. apply after_length in E1 as L3.
      split; [lia|].
      intros [|f] Hf; [lia|].
      rewrite parse_members_S, Eq, Es, Ec, (F1 f), E1; [|lia].
      apply F2. lia.
    + destruct (after "}" (skip_ws r2)) as [r3|] eqn:E2; [|discriminate].
      injection H as <- <-. apply after_length in E2 as L3.
      split; [lia|].
      intros [|f] Hf; [lia|].
      rewrite parse_members_S, Eq, Es, Ec, (F1 f), E1, E2; [reflexivity|lia].
Qed.

(** [JSON_parse] rejects a text only when no amount of fuel makes the
    parser accept it. *)
Theorem JSON_parse_fuel (F : nat) (text : string) (v : value) (rest : string) :
  parse_value F (skip_ws text) = Some (v, rest) ->
  skip_ws rest = EmptyString ->
  JSON_parse text = Some v.
Proof.
  intros H Hr. unfold JSON_parse.
  destruct (proj1 (parse_fuel_enough F) _ _ _ H) as [_ Hf].
  rewrite (Hf (2 * String.length text + 2)), Hr; [reflexivity|].
  pose proof (length_skip_ws text). lia.
Qed.

(** *** Reading is dispatching the decoded events *)

Lemma alike_refl (s : session) : alike s s.
Proof. destruct s; simpl; [split|]; reflexivity. Qed.

Lemma same_cells_console (label : string) (e : exn) (w : World) :
  same_cells (console_error label e w) w.
Proof. split; reflexivity. Qed.

Lemma same_cells_trans (w1 w2 w3 : World) :
  same_cells w1 w2 -> same_cells w2 w3 -> same_cells w1 w3.
Proof. intros [A1 D1] [A2 D2]. split; congruence. Qed.

Lemma same_cells_sym (w1 w2 : World) : same_cells w1 w2 -> same_cells w2 w1.
Proof. intros [A D]. split; congruence. Qed.

(** The dispatcher does not read the console. *)
Lemma handleEvent_cells (event : value) (w1 w2 : World) :
  same_cells w1 w2 ->
  alike (caught (handleEvent event w1)) (caught (handleEvent event w2)).
Proof.
  destruct w1 as [s1 c1 d1], w2 as [s2 c2 d2]. intros [A D]. simpl in A, D.
  subst s2 d2. unfold handleEvent. cbv zeta.
  destruct (truthy event); cbn [negb]; [|split; reflexivity].
  unfold append_log, text_entry, bind.
  repeat (case_scrutinee; cbn [caught alike]);
    try reflexivity; try (split; reflexivity).
  all: simpl; try reflexivity; try (split; reflexivity).
Qed.

Lemma processLine_cells (line : string) (w1 w2 : World) :
  same_cells w1 w2 -> alike (processLine line w1) (processLine line w2).
Proof.
  intros H. unfold processLine.
  destruct (startsWith line "data: "); [|exact H]. cbv zeta.
  destruct (slice 6 line =? EmptyString); [exact H|].
  destruct (JSON_parse (slice 6 line)) as [event|].
  - now apply handleEvent_cells.
  - simpl. destruct H as [A D]. split; assumption.
Qed.

(** Reading the lines of a chunk is dispatching the events they decode
    to, but for the console. *)
Lemma processLine_decoded (line : string) (w1 w2 : World) :
  same_cells w1 w2 ->
  alike (processLine line w1) (dispatch_all (decoded_line line) w2).
Proof.
  intros H. unfold processLine, decoded_line.
  destruct (startsWith line "data: "); [|exact H]. cbv zeta.
  destruct (slice 6 line =? EmptyString); [exact H|].
  destruct (JSON_parse (slice 6 line)) as [event|].
  - cbn [dispatch_all]. pose proof (handleEvent_cells event w1 w2 H) as Hc.
    destruct (caught (handleEvent event w1)), (caught (handleEvent event w2));
      simpl in Hc |- *; assumption.
  - simpl. destruct H as [A D]. split; assumption.
Qed.

Lemma dispatch_all_app (a b : list value) (w : World) :
  dispatch_all (a ++ b) w =
    match dispatch_all a w with
    | Live w' => dispatch_all b w'
    | Unmounted e => Unmounted e
    end.
Proof.
  revert w. induction a as [|event a IH]; intros w; simpl; [reflexivity|].
  destruct (caught (handleEvent event w)); [apply IH | reflexivity].
Qed.

Lemma processLines_decoded (lines : list string) (w1 w2 : World) :
  same_cells w1 w2 ->
  alike (processLines lines w1) (dispatch_all (flat_map decoded_line lines) w2).
Proof.
  revert w1 w2. induction lines as [|line lines IH]; intros w1 w2 H; simpl.
  - exact H.
  - rewrite dispatch_all_app.
    pose proof (processLine_decoded line w1 w2 H) as Hl.
    destruct (processLine line w1), (dispatch_all (decoded_line line) w2);
      simpl in Hl; try contradiction; [now apply IH | exact Hl].
Qed.

(** The cells after the reads of a stream are the cells after its decoded
    events, dispatched in order. *)
Theorem readLoop_decoded (chunks : list string) (w1 w2 : World) :
  same_cells w1 w2 ->
  alike (readLoop chunks w1) (dispatch_all (decoded chunks) w2).
Proof.
  revert w1 w2. induction chunks as [|chunk chunks IH]; intros w1 w2 H; simpl.
  - exact H.
  - unfold decoded. simpl. fold (decoded chunks). rewrite dispatch_all_app.
    unfold processChunk, decoded_chunk.
    pose proof (processLines_decoded (split_nn chunk) w1 w2 H) as Hl.
    destruct (processLines (split_nn chunk) w1),
      (dispatch_all (flat_map decoded_line (split_nn chunk)) w2);
      simpl in Hl; try contradiction; [now apply IH | exact Hl].
Qed.

(** *** A frame cut by the end of a read *)

Lemma well_formed_body_inv (body : string) :
  well_formed_body body = true ->
  exists event,
    JSON_parse body = Some event /\ is_obj event = true /\
    clean body = true /\ ends_with_ws body = false.
Proof.
  unfold well_formed_body. intros H.
  apply andb_true_iff in H as [H He]. apply andb_true_iff in H as [H Hc].
  destruct (JSON_parse body) as [event|]; [|discriminate].
  exists event. apply negb_true_iff in He. auto.
Qed.

Lemma clean_suffix (a b : string) :
  clean (a ++ b) = true -> b <> EmptyString -> clean b = true.
Proof.
  intros H Hb. induction a as [|c a IH]; [exact H|].
  rewrite app_String in H. cbn [clean] in H.
  destruct (a ++ b) eqn:E.
  - destruct a; [simpl in E; congruence | discriminate].
  - apply andb_true_iff in H as [_ H]. exact (IH H).
Qed.

Lemma clean_prefix_unsplit (a b : string) :
  clean (a ++ b) = true -> split_nn a = [a].
Proof.
  induction a as [|c a IH]; [reflexivity|].
  rewrite app_String. cbn [clean]. destruct a as [|c' a'].
  - reflexivity.
  - rewrite app_String. rewrite <- app_String. intros H.
    apply andb_true_iff in H as [Hc H]. apply negb_true_iff in Hc.
    rewrite split_nn_cons, Hc, (IH H). reflexivity.
Qed.

Lemma clean_marker (body : string) :
  clean body = true -> clean ("data: " ++ body) = true.
Proof. intros H. destruct body; [reflexivity | simpl in *; exact H]. Qed.

(** A line that is dropped: it does not start with the marker, or what
    follows the marker is not JSON. *)
Lemma processLine_dropped (line : string) (w : World) :
  startsWith line "data: " = false \/ JSON_parse (slice 6 line) = None ->
  decoded_line line = [] /\
  exists w', processLine line w = Live w' /\ app w' = app w /\ dates w' = dates w.
Proof.
  unfold processLine, decoded_line. cbv zeta. intros [H | H]; rewrite H.
  - split; [reflexivity | eauto].
  - destruct (startsWith line "data: "); [|split; [reflexivity | eauto]].
    destruct (slice 6 line =? EmptyString); split; eauto.
Qed.

Lemma startsWith_inv (line : string) :
  startsWith line "data: " = true -> line = "data: " ++ slice 6 line.
Proof. unfold startsWith. intros H. exact (prefix_drop _ _ H). Qed.

Lemma JSON_parse_trailing_nl (body : string) (event : value) :
  JSON_parse body = Some event -> is_obj event = true ->
  JSON_parse (body ++ nl) = Some event.
Proof.
  unfold JSON_parse. intros H Hobj.
  destruct (parse_value _ (skip_ws body)) as [[v r]|] eqn:E; [|discriminate].
  destruct (skip_ws r) eqn:B; [|discriminate]. injection H as ->.
  rewrite (skip_ws_app _ nl (parse_value_nonempty _ _ _ E)).
  assert (Hnum : is_num event = false) by now destruct event.
  pose proof (proj1 (parse_stable _) _ _ _ nl E (or_introl Hnum)) as E'.
  apply (parse_value_fuel _ (2 * String.length (body ++ nl) + 2)) in E';
    [|rewrite length_append; lia].
  rewrite E'.
  assert (Hb : skip_ws (r ++ nl) = EmptyString).
  { clear E E'. induction r as [|c r IH]; [reflexivity|].
    simpl in B |- *. destruct (is_ws c); [now apply IH | discriminate]. }
  now rewrite Hb.
Qed.

Lemma clean_one_nl (s : string) : clean s = true -> split_nn (s ++ nl) = [s ++ nl].
Proof.
  induction s as [|c s IH]; [reflexivity|].
  cbn [clean]. destruct s as [|c' s'].
  - intros H. apply negb_true_iff in H.
    change (String c EmptyString ++ nl) with (String c (String LF EmptyString)).
    rewrite split_nn_cons, H. reflexivity.
  - intros H. apply andb_true_iff in H as [Hc H]. apply negb_true_iff in Hc.
    rewrite !app_String. rewrite split_nn_cons, Hc.
    rewrite <- app_String, (IH H). reflexivity.
Qed.

Lemma alike_sym (s1 s2 : session) : alike s1 s2 -> alike s2 s1.
Proof.
  destruct s1, s2; simpl; try contradiction; [apply same_cells_sym | congruence].
Qed.

Lemma alike_trans (s1 s2 s3 : session) : alike s1 s2 -> alike s2 s3 -> alike s1 s3.
Proof.
  destruct s1, s2, s3; simpl; try contradiction;
    [apply same_cells_trans | congruence].
Qed.

Lemma same_cells_refl (w : World) : same_cells w w.
Proof. split; reflexivity. Qed.

Lemma split_nn_after_frames (pre : list string) (a : string) :
  Forall (fun f => clean f = true) pre ->
  split_nn (frames_text pre ++ a) = (pre ++ split_nn a)%list.
Proof.
  induction 1 as [|f pre Hf _ IH]; [reflexivity|].
  cbn [frames_text]. rewrite !append_assoc.
  rewrite (split_nn_frame _ _ Hf), IH. reflexivity.
Qed.

(** The two fragments of a well-formed frame are dropped. *)
Lemma fragments_dropped (body a b : string) :
  well_formed_body body = true ->
  a <> EmptyString -> b <> EmptyString -> "data: " ++ body = a ++ b ->
  (startsWith a "data: " = false \/ JSON_parse (slice 6 a) = None) /\
  (startsWith b "data: " = false \/ JSON_parse (slice 6 b) = None) /\
  split_nn a = [a] /\ clean b = true.
Proof.
  intros Hwf Ha Hb Hcut.
  destruct (well_formed_body_inv _ Hwf) as [event [Hp [Hobj [Hc He]]]].
  pose proof (clean_marker _ Hc) as Hframe. rewrite Hcut in Hframe.
  split; [|split; [|split]].
  - destruct a as [|c1 [|c2 [|c3 [|c4 [|c5 [|c6 p]]]]]]; [congruence|..];
      simpl in Hcut; injection Hcut; intros; subst; try (left; reflexivity).
    right. change (slice 6 ("data: " ++ p)) with p.
    apply (JSON_parse_prefix p b event); assumption.
  - destruct a as [|c1 [|c2 [|c3 [|c4 [|c5 [|c6 p]]]]]]; [congruence|..];
      simpl in Hcut; injection Hcut; intros; subst; try (left; reflexivity).
    destruct (startsWith b "data: ") eqn:E; [right | now left].
    apply startsWith_inv in E. rewrite E in Hp.
    exact (JSON_parse_after_marker _ _ _ Hp).
  - exact (clean_prefix_unsplit _ _ Hframe).
  - exact (clean_suffix _ _ Hframe Hb).
Qed.

Lemma decoded_line_dropped (line : string) :
  startsWith line "data: " = false \/ JSON_parse (slice 6 line) = None ->
  decoded_line line = [].
Proof.
  unfold decoded_line. cbv zeta. intros [H | H]; rewrite H; [reflexivity|].
  destruct (startsWith line "data: "); [|reflexivity].
  now destruct (slice 6 line =? EmptyString).
Qed.

(** C10, as the code has it.  Each read is split and decoded on its own,
    nothing of a read is kept for the next.  When the text of a well-formed
    frame, marker and body, is cut in two non-empty parts and the parts
    arrive in two successive reads, no event is decoded from either read
    and no cell changes: the first part fails the marker check, is the bare
    marker or does not parse, the second fails the marker check or does not
    parse.  With whole frames in front of the cut and any text after the
    delimiter, the events decoded and the cells are those of the reads
    without the cut frame.  When only the delimiter is cut, one line feed in
    each read, the event is decoded and dispatched from the first read. *)
Theorem split_frame_is_lost :
  (forall (body a b : string) (w : World),
      well_formed_body body = true ->
      a <> EmptyString -> b <> EmptyString -> "data: " ++ body = a ++ b ->
      decoded [a; b ++ nl ++ nl] = [] /\
      exists w',
        readLoop [a; b ++ nl ++ nl] w = Live w' /\
        app w' = app w /\ dates w' = dates w) /\
  (forall (body a b : string) (earlier : list string) (later : string) (w : World),
      well_formed_body body = true ->
      a <> EmptyString -> b <> EmptyString -> "data: " ++ body = a ++ b ->
      Forall (fun f => clean f = true) earlier ->
      decoded [frames_text earlier ++ a; b ++ nl ++ nl ++ later]
        = decoded [frames_text earlier; later] /\
      alike (readLoop [frames_text earlier ++ a; b ++ nl ++ nl ++ later] w)
            (readLoop [frames_text earlier; later] w)) /\
  (forall (body : string) (event : value) (w : World),
      well_formed_body body = true -> JSON_parse body = Some event ->
      decoded [("data: " ++ body) ++ nl; nl] = [event] /\
      readLoop [("data: " ++ body) ++ nl; nl] w = caught (handleEvent event w)).
Proof.
  split; [|split].
  - intros body a b w Hwf Ha Hb Hcut.
    destruct (fragments_dropped _ _ _ Hwf Ha Hb Hcut) as [Hda [Hdb [Hsa Hcb]]].
    unfold decoded, decoded_chunk, readLoop, processChunk. cbn [flat_map].
    rewrite !Hsa.
    change (b ++ nl ++ nl) with (b ++ nl ++ nl ++ EmptyString).
    rewrite !(split_nn_frame b EmptyString Hcb).
    cbn [flat_map processLines split_nn].
    rewrite !(decoded_line_dropped _ Hda), !(decoded_line_dropped _ Hdb).
    destruct (processLine_dropped a w Hda) as [_ [w1 [E1 [A1 D1]]]].
    destruct (processLine_dropped b w1 Hdb) as [_ [w2 [E2 [A2 D2]]]].
    rewrite E1, E2. split; [reflexivity|].
    exists w2. repeat split; congruence.
  - intros body a b earlier later w Hwf Ha Hb Hcut Hearlier.
    destruct (fragments_dropped _ _ _ Hwf Ha Hb Hcut) as [Hda [Hdb [Hsa Hcb]]].
    assert (Hdec : decoded [frames_text earlier ++ a; b ++ nl ++ nl ++ later]
                   = decoded [frames_text earlier; later]).
    { unfold decoded, decoded_chunk. cbn [flat_map].
      rewrite (split_nn_after_frames _ _ Hearlier), Hsa.
      rewrite (split_nn_frame _ _ Hcb), (split_nn_frames _ Hearlier).
      rewrite !flat_map_app. cbn [flat_map].
      rewrite (decoded_line_dropped _ Hda), (decoded_line_dropped _ Hdb).
      reflexivity. }
    split; [exact Hdec|].
    apply (alike_trans _ (dispatch_all
             (decoded [frames_text earlier ++ a; b ++ nl ++ nl ++ later]) w)).
    + apply readLoop_decoded, same_cells_refl.
    + rewrite Hdec. apply alike_sym, readLoop_decoded, same_cells_refl.
  - intros body event w Hwf Hp.
    destruct (well_formed_body_inv _ Hwf) as [event' [Hp' [Hobj [Hc He]]]].
    rewrite Hp in Hp'. injection Hp' as <-.
    assert (Hbody : body <> EmptyString) by (intros ->; discriminate).
    unfold decoded, decoded_chunk, readLoop, processChunk. cbn [flat_map].
    rewrite !(clean_one_nl _ (clean_marker _ Hc)).
    change (split_nn nl) with [nl].
    cbn [flat_map processLines]. unfold decoded_line, processLine.
    rewrite append_assoc, startsWith_marker, slice_marker.
    rewrite (JSON_parse_trailing_nl _ _ Hp Hobj).
    assert (Hne : (body ++ nl =? EmptyString) = false).
    { destruct body; [congruence | reflexivity]. }
    rewrite Hne. cbv zeta.
    change (startsWith nl "data: ") with false. cbn iota.
    split; [reflexivity|].
    destruct (caught (handleEvent event w)); reflexivity.
Qed.

Lemma split_frame_is_lost_witness :
  well_formed_body cut_body = true /\
  "data: " ++ cut_body = cut_left ++ cut_right /\
  (decoded [cut_left; cut_right ++ nl ++ nl] = [] /\
   exists w',
     readLoop [cut_left; cut_right ++ nl ++ nl] (world_of initial) = Live w' /\
     app w' = app (world_of initial) /\ dates w' = dates (world_of initial)) /\
  (decoded [frames_text [log_frame "a"] ++ cut_left;
            cut_right ++ nl ++ nl ++ frames_text [log_frame "b"]]
     = decoded [frames_text [log_frame "a"]; frames_text [log_frame "b"]] /\
   alike (readLoop [frames_text [log_frame "a"] ++ cut_left;
                    cut_right ++ nl ++ nl ++ frames_text [log_frame "b"]]
                   (world_of initial))
         (readLoop [frames_text [log_frame "a"]; frames_text [log_frame "b"]]
                   (world_of initial))) /\
  (decoded [("data: " ++ cut_body) ++ nl; nl]
     = [VObj [("type", VStr "log"); ("content", VStr "data: 1")]] /\
   readLoop [("data: " ++ cut_body) ++ nl; nl] (world_of initial)
     = caught (handleEvent (VObj [("type", VStr "log"); ("content", VStr "data: 1")])
                           (world_of initial))).
Proof.
  pose proof split_frame_is_lost as [Hcut [Hamong Hdelim]].
  split; [reflexivity|]. split; [reflexivity|]. split; [|split].
  - apply (Hcut cut_body cut_left cut_right (world_of initial)).
    + reflexivity.
    + discriminate.
    + discriminate.
    + reflexivity.
  - apply (Hamong cut_body cut_left cut_right [log_frame "a"]
                  (frames_text [log_frame "b"]) (world_of initial)).
    + reflexivity.
    + discriminate.
    + discriminate.
    + reflexivity.
    + repeat constructor.
  - apply (Hdelim cut_body
             (VObj [("type", VStr "log"); ("content", VStr "data: 1")])
             (world_of initial)); reflexivity.
Defined.

(** C10, as the claim has it: no event would be dispatched for a frame whose
    delimiter straddles two reads.  The frame below is well formed; its
    first read ends after the first line feed of the delimiter, the second
    read is the other line feed, and the event is dispatched. *)
Lemma delimiter_split_is_dispatched :
  well_formed_body (slice 6 (log_frame "a")) = true /\
  (log_frame "a" ++ nl) ++ nl = log_frame "a" ++ nl ++ nl /\
  decoded [log_frame "a" ++ nl; nl]
    = [VObj [("type", VStr "log"); ("content", VStr "a")]] /\
  decoded [log_frame "a" ++ nl; nl] <> [] /\
  exists w',
    readLoop [log_frame "a" ++ nl; nl] (world_of initial) = Live w' /\
    logs (app w') = [text_log "a" 0] /\
    app w' <> app (world_of initial).
Proof.
  split; [reflexivity|]. split; [reflexivity|]. split; [reflexivity|].
  split; [discriminate|].
  eexists. split; [reflexivity|]. split; [reflexivity | discriminate].
Qed.

(* ================================================================== *)
(** ** The application around the session                            *)
(* ================================================================== *)

(** *** The dispatcher, whatever the event *)

Lemma field_of_non_object (v : value) (k : string) :
  is_obj v = false -> (k =? "length") = false -> field v k = VUndefined.
Proof.
  intros Hv Hk. destruct v; try discriminate; unfold field, get; try reflexivity;
    now rewrite Hk.
Qed.

Lemma unknown_type_returns (event : value) (w : World) :
  (forall t, In t Handlers.event_types -> is_str (field event "type") t = false) ->
  handleEvent event w = Returns w.
Proof.
  intros H. unfold handleEvent. cbv zeta.
  destruct (truthy event); cbn [negb]; [|reflexivity].
  rewrite !H; [reflexivity | | | | | | | | | | | | ];
    unfold Handlers.event_types; simpl; tauto.
Qed.

(** X1. An event that is not an object ([null], a number, a text, a list),
    and an event whose [type] is none of the twelve tags the dispatcher
    has a branch for, changes nothing: no cell, no console line, no Date. *)
Theorem unknown_event_is_ignored :
  (forall (event : value) (w : World),
      is_obj event = false -> handleEvent event w = Returns w) /\
  (forall (event : value) (w : World),
      (forall t, In t Handlers.event_types ->
                 is_str (field event "type") t = false) ->
      handleEvent event w = Returns w).
Proof.
  split; [|exact unknown_type_returns].
  intros event w Ho. apply unknown_type_returns. intros t _.
  now rewrite (field_of_non_object event "type" Ho eq_refl).
Qed.

Lemma unknown_event_is_ignored_witness :
  handleEvent VNull (world_of initial) = Returns (world_of initial) /\
  handleEvent (VObj [("type", VStr "ping")]) first_products_shown
    = Returns first_products_shown.
Proof.
  split.
  - apply (proj1 unknown_event_is_ignored). reflexivity.
  - apply (proj2 unknown_event_is_ignored).
    intros t Ht. unfold Handlers.event_types in Ht. simpl in Ht.
    repeat (destruct Ht as [<- | Ht]; [reflexivity|]). destruct Ht.
Defined.

(** What a dispatch leaves alone. *)
Lemma handleEvent_frame (event : value) (w : World) :
  match handleEvent event w with
  | Returns w' => isRunning (app w') = isRunning (app w) /\ console w' = console w
  | Throws _ w' => w' = w
  | Unmounts _ => True
  end.
Proof.
  unfold handleEvent. cbv zeta.
  destruct (truthy event); cbn [negb]; [|split; reflexivity].
  unfold append_log, text_entry, bind.
  repeat (case_scrutinee; cbn [logs app dates update setLogs setBatchStatus
            setHitlData setProductChoices setAddressChoices setPaymentChoices
            setGeneralOptions isRunning console]);
    try exact I; try reflexivity; try (split; reflexivity).
Qed.

Lemma handleEvent_tracker (event : value) (w : World) :
  is_batch_status event = false ->
  match handleEvent event w with
  | Returns w' | Throws _ w' => batchStatus (app w') = batchStatus (app w)
  | Unmounts _ => True
  end.
Proof.
  unfold is_batch_status, handleEvent. cbv zeta. intros H. rewrite H.
  destruct (truthy event); cbn [negb]; [|reflexivity].
  unfold append_log, text_entry, bind.
  repeat (case_scrutinee; cbn [logs app dates update setLogs setBatchStatus
            setHitlData setProductChoices setAddressChoices setPaymentChoices
            setGeneralOptions batchStatus]);
    try exact I; reflexivity.
Qed.

(** X2. Dispatching an event never writes the run flag or the console;
    only a [batch_status] event writes the batch tracker; and an event
    that makes the dispatcher throw has changed nothing when it throws. *)
Theorem dispatch_leaves_run_state :
  (forall (event : value) (w w' : World),
      handleEvent event w = Returns w' ->
      isRunning (app w') = isRunning (app w) /\ console w' = console w) /\
  (forall (event : value) (w w' : World),
      is_batch_status event = false ->
      handleEvent event w = Returns w' ->
      batchStatus (app w') = batchStatus (app w)) /\
  (forall (event : value) (e : exn) (w w' : World),
      handleEvent event w = Throws e w' -> w' = w).
Proof.
  split; [|split].
  - intros event w w' H. pose proof (handleEvent_frame event w) as F.
    now rewrite H in F.
  - intros event w w' Hb H. pose proof (handleEvent_tracker event w Hb) as F.
    now rewrite H in F.
  - intros event e w w' H. pose proof (handleEvent_frame event w) as F.
    now rewrite H in F.
Qed.

Lemma dispatch_leaves_run_state_witness :
  (isRunning (app first_products_shown) = isRunning (app (world_of initial)) /\
   console first_products_shown = console (world_of initial)) /\
  batchStatus (app first_products_shown) = batchStatus (app (world_of initial)) /\
  world_of initial = world_of initial.
Proof.
  split; [|split].
  - apply (proj1 dispatch_leaves_run_state first_products (world_of initial)).
    reflexivity.
  - apply (proj1 (proj2 dispatch_leaves_run_state) first_products
             (world_of initial)); reflexivity.
  - apply (proj2 (proj2 dispatch_leaves_run_state) Handlers.bare_products
             (TypeError "Cannot read properties of undefined (reading 'message')")
             (world_of initial)).
    reflexivity.
Defined.

Lemma get_nullish (v : value) (k : string) :
  nullish v = true -> exists e, get v k = inl e /\ ename e = "TypeError".
Proof. destruct v; try discriminate; intros _; simpl; eauto. Qed.

(** X3. A prompt event of a choice family (products, addresses, payments,
    options) whose [content] is missing or [null] makes the dispatcher
    throw a TypeError before any cell is written; the read loop catches it,
    so the frame only adds a console line under the label of the parse
    errors. *)
Theorem prompt_without_content_is_reported :
  forall (f : family) (event : value) (w : World),
    f <> FreeText ->
    is_str (field event "type") (opening_type f) = true ->
    nullish (field event "content") = true ->
    exists e,
      ename e = "TypeError" /\
      handleEvent event w = Throws e w /\
      (forall body, body <> EmptyString -> JSON_parse body = Some event ->
         processLine ("data: " ++ body) w
           = Live (console_error "Error parsing SSE:" e w)).
Proof.
  intros f event w Hf Hty Hc.
  destruct (get_nullish _ "message" Hc) as [e [Hg He]].
  exists e. split; [exact He|].
  assert (Hd : handleEvent event w = Throws e w).
  { destruct (typed_is_object _ _ Hty) as [props ->].
    apply is_str_true in Hty.
    destruct f; try congruence; cbn [opening_type] in Hty; dispatch_on Hty;
      rewrite Hg; reflexivity. }
  split; [exact Hd|].
  intros body Hb Hp. unfold processLine.
  rewrite startsWith_marker, slice_marker. cbv zeta.
  rewrite (eqb_empty _ Hb), Hp, Hd. reflexivity.
Qed.

Lemma prompt_without_content_is_reported_witness :
  exists e,
    ename e = "TypeError" /\
    handleEvent Handlers.bare_products first_products_shown
      = Throws e first_products_shown /\
    (forall body, body <> EmptyString ->
       JSON_parse body = Some Handlers.bare_products ->
       processLine ("data: " ++ body) first_products_shown
         = Live (console_error "Error parsing SSE:" e first_products_shown)).
Proof.
  apply (prompt_without_content_is_reported Product Handlers.bare_products
           first_products_shown).
  - discriminate.
  - reflexivity.
  - reflexivity.
Defined.

(** *** The run flag, and how a run ends *)

Lemma processLine_running (line : string) (w w' : World) :
  processLine line w = Live w' -> isRunning (app w') = isRunning (app w).
Proof.
  unfold processLine.
  destruct (startsWith line "data: "); [|intros [= <-]; reflexivity].
  cbv zeta. destruct (slice 6 line =? EmptyString); [intros [= <-]; reflexivity|].
  destruct (JSON_parse (slice 6 line)) as [event|]; [|intros [= <-]; reflexivity].
  pose proof (handleEvent_frame event w) as F.
  destruct (handleEvent event w) as [w1 | e w1 | e]; simpl.
  - intros [= <-]. apply F.
  - intros [= <-]. now subst w1.
  - discriminate.
Qed.

Lemma processLines_running (lines : list string) (w w' : World) :
  processLines lines w = Live w' -> isRunning (app w') = isRunning (app w).
Proof.
  revert w. induction lines as [|line lines IH]; intros w; simpl.
  - intros [= <-]. reflexivity.
  - destruct (processLine line w) as [w1|e] eqn:E; [|discriminate].
    intros H. rewrite (IH _ H). exact (processLine_running _ _ _ E).
Qed.

Lemma readLoop_running (chunks : list string) (w w' : World) :
  readLoop chunks w = Live w' -> isRunning (app w') = isRunning (app w).
Proof.
  revert w. induction chunks as [|chunk chunks IH]; intros w; simpl.
  - intros [= <-]. reflexivity.
  - unfold processChunk.
    destruct (processLines (split_nn chunk) w) as [w1|e] eqn:E; [|discriminate].
    intros H. rewrite (IH _ H). exact (processLines_running _ _ _ E).
Qed.

(** X4. The read loop never writes the run flag: it is set from the start
    of a run, single or batch, through all its reads, so the run button of
    the control panel is disabled all along; and it is cleared when the run
    ends, however the stream ended. *)
Theorem run_flag_set_while_reading :
  (forall (chunks : list string) (w w' : World),
      readLoop chunks w = Live w' -> isRunning (app w') = isRunning (app w)) /\
  (forall (chunks : list string) (w w' : World),
      readLoop chunks (runAgent_begin w) = Live w' \/
      readLoop chunks (runBatchAgent_begin w) = Live w' ->
      isRunning (app w') = true /\
      forall p : ControlPanel.Props,
        ControlPanel.isRunning p = isRunning (app w') ->
        ControlPanel.run_disabled p = true) /\
  (forall (stream : Stream) (w w' : World),
      runAgent stream w = Live w' \/ runBatchAgent stream w = Live w' ->
      isRunning (app w') = false).
Proof.
  split; [exact readLoop_running|]. split.
  - intros chunks w w' H.
    assert (R : isRunning (app w') = true).
    { destruct H as [H|H]; rewrite (readLoop_running _ _ _ H); reflexivity. }
    split; [exact R|]. intros p Hp. unfold ControlPanel.run_disabled.
    rewrite Hp, R. reflexivity.
  - intros stream w w' [H|H]; [unfold runAgent in H | unfold runBatchAgent in H];
      destruct (readLoop _ _) as [w1|e]; try discriminate;
      injection H as <-; reflexivity.
Qed.

Lemma run_flag_set_while_reading_witness :
  (exists w', readLoop sample_reads (world_of initial) = Live w' /\
              isRunning (app w') = isRunning (app (world_of initial))) /\
  (exists w', readLoop sample_reads (runAgent_begin (world_of initial)) = Live w' /\
              isRunning (app w') = true) /\
  (exists w', runAgent (mkStream sample_reads None) (world_of initial) = Live w' /\
              isRunning (app w') = false).
Proof.
  split; [|split].
  - eexists. split; [reflexivity|].
    apply (proj1 run_flag_set_while_reading sample_reads (world_of initial)).
    reflexivity.
  - eexists. split; [reflexivity|].
    apply (proj1 (proj2 run_flag_set_while_reading) sample_reads (world_of initial)).
    left. reflexivity.
  - eexists. split; [reflexivity|].
    apply (proj2 (proj2 run_flag_set_while_reading)
             (mkStream sample_reads None) (world_of initial)).
    left. reflexivity.
Defined.

(** X5. When the stream of a run ends with a rejection, the run ends with
    what its reads left, plus one entry of type [error] without timestamp,
    whose text is the message of the rejection after a fixed prefix, and
    one console line under the label of the run; prompts and tracker are
    as the reads left them. *)
Theorem connection_error_is_appended :
  forall (chunks : list string) (error : exn) (w w1 : World),
    (readLoop chunks (runAgent_begin w) = Live w1 ->
     exists w',
       runAgent (mkStream chunks (Some error)) w = Live w' /\
       logs (app w') = (logs (app w1) ++ [connection_error error])%list /\
       console w' = (console w1 ++ [("Stream error:", error)])%list /\
       batchStatus (app w') = batchStatus (app w1) /\
       (forall g, pending g (app w') = pending g (app w1))) /\
    (readLoop chunks (runBatchAgent_begin w) = Live w1 ->
     exists w',
       runBatchAgent (mkStream chunks (Some error)) w = Live w' /\
       logs (app w') = (logs (app w1) ++ [connection_error error])%list /\
       console w' = (console w1 ++ [("Batch stream error:", error)])%list /\
       batchStatus (app w') = batchStatus (app w1) /\
       (forall g, pending g (app w') = pending g (app w1))) /\
    content (connection_error error) = VStr ("Connection error: " ++ Js.message error) /\
    type (connection_error error) = "error" /\
    timestamp (connection_error error) = None.
Proof.
  intros chunks error w w1. split; [|split; [|repeat split]].
  - intros E. unfold runAgent. simpl. rewrite E. eexists.
    split; [reflexivity|]. repeat split.
  - intros E. unfold runBatchAgent. simpl. rewrite E. eexists.
    split; [reflexivity|]. repeat split.
Qed.

Lemma connection_error_is_appended_witness :
  (exists w',
    runAgent (mkStream [] (Some (TypeError "Failed to fetch"))) first_products_shown
      = Live w' /\
    logs (app w')
      = (logs (app (runAgent_begin first_products_shown))
           ++ [connection_error (TypeError "Failed to fetch")])%list /\
    console w'
      = (console (runAgent_begin first_products_shown)
           ++ [("Stream error:", TypeError "Failed to fetch")])%list /\
    batchStatus (app w') = batchStatus (app (runAgent_begin first_products_shown)) /\
    (forall g,
        pending g (app w') = pending g (app (runAgent_begin first_products_shown)))) /\
  (exists w',
    runBatchAgent (mkStream [] (Some (TypeError "Failed to fetch"))) first_products_shown
      = Live w' /\
    logs (app w')
      = (logs (app (runBatchAgent_begin first_products_shown))
           ++ [connection_error (TypeError "Failed to fetch")])%list /\
    console w'
      = (console (runBatchAgent_begin first_products_shown)
           ++ [("Batch stream error:", TypeError "Failed to fetch")])%list /\
    batchStatus (app w')
      = batchStatus (app (runBatchAgent_begin first_products_shown)) /\
    (forall g,
        pending g (app w')
          = pending g (app (runBatchAgent_begin first_products_shown)))).
Proof.
  split.
  - apply (proj1 (connection_error_is_appended [] (TypeError "Failed to fetch")
                    first_products_shown (runAgent_begin first_products_shown))).
    reflexivity.
  - apply (proj1 (proj2 (connection_error_is_appended [] (TypeError "Failed to fetch")
                    first_products_shown (runBatchAgent_begin first_products_shown)))).
    reflexivity.
Defined.

(** X6. A batch run is a single run started after the batch tracker was
    emptied: the same state when the stream ends well, and the same cells
    in every case (the console label of a rejection differs). *)
Theorem batch_run_is_run_after_reset :
  (forall w : World,
      runBatchAgent_begin w = runAgent_begin (update (setBatchStatus (VArr [])) w)) /\
  (forall (chunks : list string) (w : World),
      runBatchAgent (mkStream chunks None) w
        = runAgent (mkStream chunks None) (update (setBatchStatus (VArr [])) w)) /\
  (forall (stream : Stream) (w : World),
      alike (runBatchAgent stream w)
            (runAgent stream (update (setBatchStatus (VArr [])) w))).
Proof.
  assert (B : forall w : World,
             runBatchAgent_begin w
               = runAgent_begin (update (setBatchStatus (VArr [])) w)).
  { intros w. reflexivity. }
  split; [exact B|]. split.
  - intros chunks w. unfold runBatchAgent, runAgent. rewrite B. reflexivity.
  - intros [chunks failure] w. unfold runBatchAgent, runAgent. rewrite B. simpl.
    destruct (readLoop chunks _) as [w1|e]; [|reflexivity].
    destruct failure as [error|]; simpl; split; reflexivity.
Qed.

(** *** A malformed frame among well-formed ones *)

Lemma marked_line (body : string) (w : World) :
  body <> EmptyString ->
  processLine ("data: " ++ body) w =
    match JSON_parse body with
    | Some event => caught (handleEvent event w)
    | None => Live (console_error "Error parsing SSE:" (SyntaxError body) w)
    end.
Proof.
  intros Hb. unfold processLine.
  now rewrite startsWith_marker, slice_marker, (eqb_empty _ Hb).
Qed.

Lemma parsed_nonempty (body : string) (event : value) :
  JSON_parse body = Some event -> body <> EmptyString.
Proof. intros H ->. discriminate. Qed.

Lemma frames_lines (frames : list string) (w : World) :
  Forall (fun f => clean f = true) frames ->
  processChunk (frames_text frames) w = processLines frames w.
Proof.
  intros Hc. unfold processChunk.
  rewrite (split_nn_frames _ Hc), processLines_app.
  destruct (processLines frames w); reflexivity.
Qed.

Lemma three_frames_lines (body1 junk body2 : string) (w : World) :
  clean body1 = true -> clean junk = true -> clean body2 = true ->
  processChunk
    (frames_text ["data: " ++ body1; "data: " ++ junk; "data: " ++ body2]) w
  = processLines ["data: " ++ body1; "data: " ++ junk; "data: " ++ body2] w.
Proof.
  intros C1 Cj C2. apply frames_lines.
  repeat constructor; now apply clean_marker.
Qed.

Lemma three_frames_decoded (body1 junk body2 : string) (e1 e2 : value) :
  JSON_parse body1 = Some e1 -> JSON_parse body2 = Some e2 ->
  JSON_parse junk = None ->
  flat_map decoded_line ["data: " ++ body1; "data: " ++ junk; "data: " ++ body2]
    = [e1; e2].
Proof.
  intros P1 P2 Pj. cbn [flat_map]. unfold decoded_line.
  rewrite !startsWith_marker, !slice_marker.
  rewrite (eqb_empty _ (parsed_nonempty _ _ P1)),
    (eqb_empty _ (parsed_nonempty _ _ P2)), P1, P2, Pj.
  destruct (junk =? EmptyString); reflexivity.
Qed.

Lemma malformed_between (body1 junk body2 : string) (e1 e2 : value) (w : World) :
  clean body1 = true -> clean junk = true -> clean body2 = true ->
  JSON_parse body1 = Some e1 -> JSON_parse body2 = Some e2 ->
  junk <> EmptyString -> JSON_parse junk = None ->
  processChunk
    (frames_text ["data: " ++ body1; "data: " ++ junk; "data: " ++ body2]) w =
    match caught (handleEvent e1 w) with
    | Live w1 =>
        caught (handleEvent e2
                  (console_error "Error parsing SSE:" (SyntaxError junk) w1))
    | Unmounted e => Unmounted e
    end.
Proof.
  intros C1 Cj C2 P1 P2 Hj Pj.
  rewrite (three_frames_lines body1 junk body2 w C1 Cj C2). cbn [processLines].
  rewrite (marked_line body1 w (parsed_nonempty _ _ P1)), P1.
  destruct (caught (handleEvent e1 w)) as [w1|e]; [|reflexivity].
  rewrite (marked_line junk w1 Hj), Pj.
  rewrite (marked_line body2 _ (parsed_nonempty _ _ P2)), P2.
  destruct (caught (handleEvent e2 _)); reflexivity.
Qed.

(** C4.  A read that holds a frame whose body is not JSON between two
    frames whose bodies are JSON: the event of the first frame is
    dispatched, the malformed frame adds one line to the console and
    nothing else, and the event of the second frame is dispatched on the
    state the first left; the cells are those that dispatching the two
    events alone gives.  The same holds with whole frames before and after
    the three: the cells are those that dispatching the events of the
    frames before, the two events, and the events of the frames after
    gives.  When the two events carry the payload their type calls for,
    the read goes through, the timeline grows by the entries of the first
    event and then those of the second, and the loop goes on with the
    reads that follow.  The chunk of the
    specification appends exactly the two text entries [a] then [b] and
    changes no other cell, and a run made of that chunk ends with exactly
    these two entries. *)
Theorem malformed_frame_between_two :
  (forall (body1 junk body2 : string) (e1 e2 : value) (w : World),
      clean body1 = true -> clean junk = true -> clean body2 = true ->
      JSON_parse body1 = Some e1 -> JSON_parse body2 = Some e2 ->
      junk <> EmptyString -> JSON_parse junk = None ->
      processChunk
        (frames_text ["data: " ++ body1; "data: " ++ junk; "data: " ++ body2]) w =
        match caught (handleEvent e1 w) with
        | Live w1 =>
            caught (handleEvent e2
                      (console_error "Error parsing SSE:" (SyntaxError junk) w1))
        | Unmounted e => Unmounted e
        end /\
      alike (processChunk
               (frames_text ["data: " ++ body1; "data: " ++ junk; "data: " ++ body2]) w)
            (dispatch_all [e1; e2] w)) /\
  (forall (before after : list string) (body1 junk body2 : string)
          (e1 e2 : value) (w : World),
      Forall (fun f => clean f = true) before ->
      Forall (fun f => clean f = true) after ->
      clean body1 = true -> clean junk = true -> clean body2 = true ->
      JSON_parse body1 = Some e1 -> JSON_parse body2 = Some e2 ->
      JSON_parse junk = None ->
      alike (processChunk
               (frames_text
                  (before
                     ++ ["data: " ++ body1; "data: " ++ junk; "data: " ++ body2]
                     ++ after)) w)
            (dispatch_all
               (flat_map decoded_line before ++ [e1; e2]
                  ++ flat_map decoded_line after) w)) /\
  (forall (body1 junk body2 : string) (e1 e2 : value) (w : World),
      clean body1 = true -> clean junk = true -> clean body2 = true ->
      JSON_parse body1 = Some e1 -> JSON_parse body2 = Some e2 ->
      junk <> EmptyString -> JSON_parse junk = None ->
      wf_event e1 = true -> wf_event e2 = true ->
      exists w',
        processChunk
          (frames_text ["data: " ++ body1; "data: " ++ junk; "data: " ++ body2]) w
          = Live w' /\
        logs (app w') = (logs (app w) ++ timeline [e1; e2] (dates w))%list /\
        console w' = (console w ++ [("Error parsing SSE:", SyntaxError junk)])%list /\
        dispatch_all [e1; e2] w = Live (mkWorld (app w') (console w) (dates w')) /\
        (forall rest : list string,
            readLoop
              (frames_text ["data: " ++ body1; "data: " ++ junk; "data: " ++ body2]
                 :: rest) w
            = readLoop rest w')) /\
  (forall w : World,
      processChunk
        (log_frame "a" ++ nl ++ nl ++ "data: not-json" ++ nl ++ nl ++
         log_frame "b" ++ nl ++ nl) w =
        Live (mkWorld
                (setLogs (fun prev =>
                            (prev ++ [text_log "a" (dates w);
                                      text_log "b" (S (dates w))])%list) (app w))
                (console w ++ [("Error parsing SSE:", SyntaxError "not-json")])
                (S (S (dates w))))) /\
  (forall w : World,
      exists w',
        runAgent
          (mkStream [log_frame "a" ++ nl ++ nl ++ "data: not-json" ++ nl ++ nl ++
                     log_frame "b" ++ nl ++ nl] None) w = Live w' /\
        logs (app w') = [text_log "a" (dates w); text_log "b" (S (dates w))]).
Proof.
  split; [|split; [|split; [|split]]].
  - intros body1 junk body2 e1 e2 w C1 Cj C2 P1 P2 Hj Pj.
    split; [now apply malformed_between|].
    rewrite (three_frames_lines body1 junk body2 w C1 Cj C2).
    rewrite <- (three_frames_decoded body1 junk body2 e1 e2 P1 P2 Pj).
    apply processLines_decoded. split; reflexivity.
  - intros before after body1 junk body2 e1 e2 w Hb Ha C1 Cj C2 P1 P2 Pj.
    rewrite frames_lines.
    + rewrite <- (three_frames_decoded body1 junk body2 e1 e2 P1 P2 Pj).
      rewrite <- !flat_map_app.
      apply processLines_decoded. split; reflexivity.
    + apply Forall_app. split; [exact Hb|]. apply Forall_app. split; [|exact Ha].
      repeat constructor; now apply clean_marker.
  - intros body1 junk body2 e1 e2 w C1 Cj C2 P1 P2 Hj Pj W1 W2.
    pose proof (malformed_between body1 junk body2 e1 e2 w C1 Cj C2 P1 P2 Hj Pj) as M.
    destruct (wf_event_returns e1 w W1) as [w1 E1].
    remember (console_error "Error parsing SSE:" (SyntaxError junk) w1) as v1 eqn:Ev.
    destruct (wf_event_returns e2 v1 W2) as [w2 E2].
    destruct (wf_event_returns e2 w1 W2) as [w3 E3].
    rewrite E1 in M. cbn [caught] in M. rewrite <- Ev, E2 in M. cbn [caught] in M.
    pose proof (handleEvent_timeline e1 w) as T1. rewrite E1 in T1.
    pose proof (handleEvent_frame e1 w) as F1. rewrite E1 in F1.
    pose proof (handleEvent_timeline e2 v1) as T2. rewrite E2 in T2.
    pose proof (handleEvent_frame e2 v1) as F2. rewrite E2 in F2.
    pose proof (handleEvent_frame e2 w1) as F3. rewrite E3 in F3.
    pose proof (handleEvent_cells e2 w1 v1) as Hc. rewrite E2, E3 in Hc.
    destruct T1 as [L1 D1], F1 as [_ K1], T2 as [L2 D2], F2 as [_ K2], F3 as [_ K3].
    subst v1. cbn [console_error app dates console] in L2, D2, K2.
    exists w2. split; [exact M|]. split.
    { rewrite L2, L1, D1. cbn [timeline]. now rewrite app_nil_r, <- app_assoc. }
    split; [now rewrite K2, K1|]. split.
    { cbn [dispatch_all]. rewrite E1. cbn [caught]. rewrite E3. cbn [caught].
      destruct Hc as [A D]; [split; reflexivity|].
      destruct w3 as [s3 c3 d3]. simpl in A, D, K3. subst s3 c3 d3.
      now rewrite K1. }
    intros rest. cbn [readLoop]. now rewrite M.
  - intros [s cons d]. unfold processChunk.
    change (split_nn (log_frame "a" ++ nl ++ nl ++ "data: not-json" ++ nl ++ nl ++
                      log_frame "b" ++ nl ++ nl)) with
      [log_frame "a"; "data: not-json"; log_frame "b"; EmptyString].
    cbn -[app]. unfold setLogs. cbn. now rewrite <- app_assoc.
  - intros [s cons d]. eexists. split; [reflexivity|]. reflexivity.
Qed.

Lemma malformed_frame_between_two_witness :
  alike (processChunk
           (frames_text
              ([log_frame "x"; "ping"]
                 ++ ["data: " ++ quoted "{'type':'log','content':'a'}";
                     "data: " ++ "not-json";
                     "data: " ++ quoted "{'type':'error','content':'b'}"]
                 ++ [log_frame "y"])) first_products_shown)
        (dispatch_all
           (flat_map decoded_line [log_frame "x"; "ping"]
              ++ [VObj [("type", VStr "log"); ("content", VStr "a")];
                  VObj [("type", VStr "error"); ("content", VStr "b")]]
              ++ flat_map decoded_line [log_frame "y"]) first_products_shown) /\
  (processChunk
     (frames_text ["data: " ++ quoted "{'type':'log','content':'a'}";
                   "data: " ++ "not-json";
                   "data: " ++ quoted "{'type':'error','content':'b'}"])
     first_products_shown =
     match caught (handleEvent (VObj [("type", VStr "log"); ("content", VStr "a")])
                               first_products_shown) with
     | Live w1 =>
         caught (handleEvent (VObj [("type", VStr "error"); ("content", VStr "b")])
                   (console_error "Error parsing SSE:" (SyntaxError "not-json") w1))
     | Unmounted e => Unmounted e
     end /\
   alike (processChunk
            (frames_text ["data: " ++ quoted "{'type':'log','content':'a'}";
                          "data: " ++ "not-json";
                          "data: " ++ quoted "{'type':'error','content':'b'}"])
            first_products_shown)
         (dispatch_all [VObj [("type", VStr "log"); ("content", VStr "a")];
                        VObj [("type", VStr "error"); ("content", VStr "b")]]
                       first_products_shown)) /\
  exists w',
    processChunk
      (frames_text ["data: " ++ quoted "{'type':'log','content':'a'}";
                    "data: " ++ "{";
                    "data: " ++ quoted "{'type':'error','content':'b'}"])
      first_products_shown = Live w' /\
    logs (app w') =
      (logs (app first_products_shown)
         ++ timeline [VObj [("type", VStr "log"); ("content", VStr "a")];
                      VObj [("type", VStr "error"); ("content", VStr "b")]]
                     (dates first_products_shown))%list /\
    console w' =
      (console first_products_shown ++ [("Error parsing SSE:", SyntaxError "{")])%list /\
    dispatch_all [VObj [("type", VStr "log"); ("content", VStr "a")];
                  VObj [("type", VStr "error"); ("content", VStr "b")]]
                 first_products_shown
      = Live (mkWorld (app w') (console first_products_shown) (dates w')) /\
    (forall rest : list string,
        readLoop
          (frames_text ["data: " ++ quoted "{'type':'log','content':'a'}";
                        "data: " ++ "{";
                        "data: " ++ quoted "{'type':'error','content':'b'}"]
             :: rest) first_products_shown
        = readLoop rest w').
Proof.
  split; [|split].
  - apply (proj1 (proj2 malformed_frame_between_two)); try reflexivity.
    + repeat constructor.
    + repeat constructor.
  - apply (proj1 malformed_frame_between_two); try reflexivity.
    discriminate.
  - apply (proj1 (proj2 (proj2 malformed_frame_between_two))); try reflexivity.
    discriminate.
Defined.

(** *** Reads and frames *)

Lemma processChunk_frames (frames : list string) (w : World) :
  Forall (fun f => clean f = true) frames ->
  processChunk (frames_text frames) w = processLines frames w.
Proof.
  intros H. unfold processChunk.
  rewrite (split_nn_frames frames H), processLines_app.
  destruct (processLines frames w); reflexivity.
Qed.

Lemma readLoop_frames (groups : list (list string)) (w : World) :
  Forall (Forall (fun f => clean f = true)) groups ->
  readLoop (map frames_text groups) w = processLines (concat groups) w.
Proof.
  intros H. revert w. induction H as [|g groups Hg _ IH]; intros w; simpl.
  - reflexivity.
  - rewrite (processChunk_frames g w Hg), processLines_app.
    destruct (processLines g w); [apply IH | reflexivity].
Qed.

(** X7. When every read holds whole frames, each closed by its blank line,
    the loop processes the frames one after the other as if they came in
    one list: how the frames are grouped into reads does not matter. *)
Theorem reads_cut_between_frames :
  (forall (groups : list (list string)) (w : World),
      Forall (Forall (fun f => clean f = true)) groups ->
      readLoop (map frames_text groups) w = processLines (concat groups) w) /\
  (forall (groups groups' : list (list string)) (w : World),
      Forall (Forall (fun f => clean f = true)) groups ->
      Forall (Forall (fun f => clean f = true)) groups' ->
      concat groups = concat groups' ->
      readLoop (map frames_text groups) w = readLoop (map frames_text groups') w).
Proof.
  split; [exact readLoop_frames|].
  intros groups groups' w H H' E.
  rewrite (readLoop_frames groups w H), (readLoop_frames groups' w H'), E.
  reflexivity.
Qed.

Lemma reads_cut_between_frames_witness :
  readLoop (map frames_text [[log_frame "a"; log_frame "b"]; [log_frame "c"]])
           (world_of initial)
  = processLines (concat [[log_frame "a"; log_frame "b"]; [log_frame "c"]])
                 (world_of initial) /\
  readLoop (map frames_text [[log_frame "a"; log_frame "b"]; [log_frame "c"]])
           (world_of initial)
  = readLoop (map frames_text [[log_frame "a"]; []; [log_frame "b"; log_frame "c"]])
             (world_of initial).
Proof.
  split.
  { apply (proj1 reads_cut_between_frames
             [[log_frame "a"; log_frame "b"]; [log_frame "c"]] (world_of initial)).
    repeat constructor. }
  apply (proj2 reads_cut_between_frames
           [[log_frame "a"; log_frame "b"]; [log_frame "c"]]
           [[log_frame "a"]; []; [log_frame "b"; log_frame "c"]]
           (world_of initial)).
  - repeat constructor.
  - repeat constructor.
  - reflexivity.
Defined.

(** X8. The cells after reading a stream are the cells after dispatching,
    in order, the events its reads decode to: all that the frame decoder
    contributes besides the events are console lines. *)
Theorem reading_is_dispatching :
  forall (chunks : list string) (w : World),
    alike (readLoop chunks w) (dispatch_all (decoded chunks) w).
Proof.
  intros chunks w. apply readLoop_decoded. apply same_cells_refl.
Qed.

(** *** What a submission writes *)

Lemma submit_failure (f : family) (sessionId : value) (selectedIndex : nat)
  (answer : value) (reply : throws Response) (w : World) (error : exn) :
  resume reply = inl error ->
  submit f sessionId selectedIndex answer reply w =
    Returns (mkWorld
      (setLogs (fun prev =>
         (prev ++ [mkLog "error"
                     (VStr (Handlers.failure_prefix f ++ Js.message error))
                     None (Some (dates w))])%list) (app w))
      (console w ++ [(Handlers.failure_label f, error)])%list
      (S (dates w))).
Proof.
  intros H.
  destruct f; unfold submit, handleHitlSubmit, handleProductSelect,
    handleAddressSelect, handlePaymentSelect, handleOptionSelect;
    rewrite H; unfold submission_failed, append_log, text_entry, template, lit, bind;
    cbn [Handlers.failure_prefix Handlers.failure_label console_error dates app
         console]; rewrite append_nil_r; reflexivity.
Qed.

Lemma failure_logged (f : family) (sessionId : value) (selectedIndex : nat)
  (answer : value) (reply : throws Response) (w : World) (error : exn) :
  resume reply = inl error ->
  exists w',
    submit f sessionId selectedIndex answer reply w = Returns w' /\
    logs (app w')
      = (logs (app w) ++ [Handlers.failure_entry f (Js.message error) (dates w)])%list /\
    console w' = (console w ++ [(Handlers.failure_label f, error)])%list /\
    dates w' = S (dates w).
Proof.
  intros H. rewrite (submit_failure f _ _ _ _ _ _ H).
  eexists. split; [reflexivity|]. repeat split.
Qed.

(** X9. What a failed submission writes, for every family: the timeline
    gains one [error] entry whose text is the prefix of the family followed
    by the message of the error, and the console one line under the label
    of the family.  The message is the one of the rejection of the request,
    [Server error: ] and the status code for a response that is not ok, and
    for an application-level error its [message], or [Unknown error] when
    that is missing or empty. *)
Theorem failed_submission_message :
  (forall (f : family) (sessionId : value) (selectedIndex : nat) (answer : value)
          (reply : throws Response) (w : World) (error : exn),
      resume reply = inl error ->
      exists w',
        submit f sessionId selectedIndex answer reply w = Returns w' /\
        logs (app w')
          = (logs (app w)
               ++ [Handlers.failure_entry f (Js.message error) (dates w)])%list /\
        console w' = (console w ++ [(Handlers.failure_label f, error)])%list /\
        dates w' = S (dates w)) /\
  (forall (f : family) (sessionId : value) (selectedIndex : nat) (answer : value)
          (error : exn) (w : World),
      exists w',
        submit f sessionId selectedIndex answer (inl error) w = Returns w' /\
        logs (app w')
          = (logs (app w)
               ++ [Handlers.failure_entry f (Js.message error) (dates w)])%list) /\
  (forall (f : family) (sessionId : value) (selectedIndex : nat) (answer : value)
          (response : Response) (w : World),
      ok response = false ->
      exists w',
        submit f sessionId selectedIndex answer (inr response) w = Returns w' /\
        logs (app w')
          = (logs (app w)
               ++ [Handlers.failure_entry f
                     ("Server error: " ++ digits_of (status response))
                     (dates w)])%list) /\
  (forall (f : family) (sessionId : value) (selectedIndex : nat) (answer : value)
          (response : Response) (result : value) (w : World),
      ok response = true -> json response = inr result ->
      is_str (field result "status") "error" = true ->
      truthy (field result "message") = false ->
      exists w',
        submit f sessionId selectedIndex answer (inr response) w = Returns w' /\
        logs (app w')
          = (logs (app w)
               ++ [Handlers.failure_entry f "Unknown error" (dates w)])%list) /\
  (forall (f : family) (sessionId : value) (selectedIndex : nat) (answer : value)
          (response : Response) (result : value) (text : string) (w : World),
      ok response = true -> json response = inr result ->
      is_str (field result "status") "error" = true ->
      field result "message" = VStr text -> text <> EmptyString ->
      exists w',
        submit f sessionId selectedIndex answer (inr response) w = Returns w' /\
        logs (app w')
          = (logs (app w) ++ [Handlers.failure_entry f text (dates w)])%list).
Proof.
  split; [exact failure_logged|]. split; [|split; [|split]].
  - intros f sid i answer error w.
    destruct (failure_logged f sid i answer (inl error) w error eq_refl)
      as (w' & E & L & _).
    eauto.
  - intros f sid i answer response w H.
    destruct (failure_logged f sid i answer (inr response) w
                (Error ("Server error: " ++ digits_of (status response))))
      as (w' & E & L & _); [|eauto].
    unfold resume, bind. rewrite H. reflexivity.
  - intros f sid i answer response result w Hok Hj Hs Hm.
    destruct (failure_logged f sid i answer (inr response) w (Error "Unknown error"))
      as (w' & E & L & _); [|eauto].
    unfold resume, bind. rewrite Hok, Hj. cbn [negb].
    destruct (str_field_is_object _ _ _ Hs) as [props ->].
    rewrite !(get_field (VObj props) _ eq_refl), Hs.
    unfold or_else. rewrite Hm. reflexivity.
  - intros f sid i answer response result text w Hok Hj Hs Hm Ht.
    destruct (failure_logged f sid i answer (inr response) w (Error text))
      as (w' & E & L & _); [|eauto].
    unfold resume, bind. rewrite Hok, Hj. cbn [negb].
    destruct (str_field_is_object _ _ _ Hs) as [props ->].
    rewrite !(get_field (VObj props) _ eq_refl), Hs, Hm.
    unfold or_else. cbn [truthy]. rewrite (eqb_empty _ Ht). reflexivity.
Qed.

Lemma failed_submission_message_witness :
  (exists w',
      submit Address (VStr "s1") 0 VNull (inr server_error) first_products_shown
        = Returns w' /\
      logs (app w')
        = (logs (app first_products_shown)
             ++ [Handlers.failure_entry Address (Js.message (Error "Server error: 500"))
                   (dates first_products_shown)])%list /\
      console w'
        = (console first_products_shown
             ++ [(Handlers.failure_label Address, Error "Server error: 500")])%list /\
      dates w' = S (dates first_products_shown)) /\
  (exists w',
      submit FreeText (VStr "s7") 0 (VStr "blue") (inr server_error) question_shown
        = Returns w' /\
      logs (app w')
        = (logs (app question_shown)
             ++ [Handlers.failure_entry FreeText
                   ("Server error: " ++ digits_of (status server_error))
                   (dates question_shown)])%list) /\
  (exists w',
      submit Payment (VStr "s1") 0 VNull
        (inr (mkResponse true 200 (inr (VObj [("status", VStr "error")]))))
        (world_of initial) = Returns w' /\
      logs (app w')
        = (logs (app (world_of initial))
             ++ [Handlers.failure_entry Payment "Unknown error"
                   (dates (world_of initial))])%list) /\
  (exists w',
      submit Product (VStr "s1") 0 VNull (inr unknown_session) first_products_shown
        = Returns w' /\
      logs (app w')
        = (logs (app first_products_shown)
             ++ [Handlers.failure_entry Product "Session not found"
                   (dates first_products_shown)])%list).
Proof.
  split; [|split; [|split]].
  - apply (proj1 failed_submission_message Address (VStr "s1") 0 VNull
             (inr server_error) first_products_shown (Error "Server error: 500")).
    reflexivity.
  - apply (proj1 (proj2 (proj2 failed_submission_message)) FreeText (VStr "s7") 0
             (VStr "blue") server_error question_shown).
    reflexivity.
  - apply (proj1 (proj2 (proj2 (proj2 failed_submission_message))) Payment
             (VStr "s1") 0 VNull
             (mkResponse true 200 (inr (VObj [("status", VStr "error")])))
             (VObj [("status", VStr "error")]) (world_of initial)); reflexivity.
  - apply (proj2 (proj2 (proj2 (proj2 failed_submission_message))) Product
             (VStr "s1") 0 VNull unknown_session
             (VObj [("status", VStr "error"); ("message", VStr "Session not found")])
             "Session not found" first_products_shown); try reflexivity.
    discriminate.
Defined.

Lemma show_printed (answer : value) (k : string) :
  nullish answer = false -> primitive (field answer k) = true ->
  exists s, show (get answer k) = inr s.
Proof.
  intros Hn Hp. rewrite (get_field answer k Hn). now apply primitive_prints.
Qed.

Lemma choice_acknowledged (f : family) (sessionId : value) (selectedIndex : nat)
  (answer : value) (reply : throws Response) (w : World) :
  f <> FreeText ->
  failed reply = false ->
  Handlers.confirmable f answer = true ->
  exists w' confirmed,
    submit f sessionId selectedIndex answer reply w = Returns w' /\
    pending f (app w') = Handlers.closed (pending f (app w)) /\
    (forall g, g <> f -> pending g (app w') = pending g (app w)) /\
    isRunning (app w') = isRunning (app w) /\
    batchStatus (app w') = batchStatus (app w) /\
    console w' = console w /\
    logs (app w') = (logs (app w) ++ [confirmed])%list /\
    type confirmed = "text".
Proof.
  intros Hf Hr Hc.
  destruct (resume_not_failed reply Hr) as [result Hres].
  unfold Handlers.confirmable in Hc.
  destruct f; try congruence;
    unfold submit, handleProductSelect, handleAddressSelect, handlePaymentSelect,
      handleOptionSelect; rewrite Hres;
    cbn [Handlers.printed forallb] in Hc;
    apply andb_true_iff in Hc as [Hn Hp]; apply negb_true_iff in Hn;
    repeat (apply andb_true_iff in Hp as [?Hp Hp]);
    repeat match goal with
           | H : primitive (field answer ?k) = true |- _ =>
               let s := fresh "s" in
               let Hs := fresh "Hs" in
               destruct (show_printed answer k Hn H) as [s Hs];
               unfold text_entry, template, lit, bind; rewrite Hs; clear H
           end;
    simpl; eexists; eexists; (split; [reflexivity|]); (split; [reflexivity|]);
    (split; [intros g Hg; destruct g; try reflexivity; congruence|]);
    repeat split.
Qed.

(** X10. An acknowledged submission closes the prompt of its own family and
    keeps what the prompt showed (message, choices, session); it leaves the
    prompts of the other families, the run flag, the tracker and the
    console alone, and appends one [text] entry for a choice and nothing
    for a free-text answer. *)
Theorem acknowledged_submission_closes_its_prompt :
  forall (f : family) (sessionId : value) (selectedIndex : nat) (answer : value)
         (reply : throws Response) (w : World),
    failed reply = false ->
    Handlers.confirmable f answer = true ->
    exists w',
      submit f sessionId selectedIndex answer reply w = Returns w' /\
      pending f (app w') = Handlers.closed (pending f (app w)) /\
      (forall g, g <> f -> pending g (app w') = pending g (app w)) /\
      isRunning (app w') = isRunning (app w) /\
      batchStatus (app w') = batchStatus (app w) /\
      console w' = console w /\
      (exists entries,
          logs (app w') = (logs (app w) ++ entries)%list /\
          length entries = match f with FreeText => 0 | _ => 1 end /\
          Forall (fun entry => type entry = "text") entries).
Proof.
  intros f sessionId selectedIndex answer reply w Hr Hc.
  destruct (family_eq_dec f FreeText) as [->|Hf].
  - destruct (resume_not_failed reply Hr) as [result Hres].
    unfold submit, handleHitlSubmit. rewrite Hres.
    eexists. split; [reflexivity|]. split; [reflexivity|].
    split; [intros g Hg; destruct g; try reflexivity; congruence|].
    repeat (split; [reflexivity|]).
    exists []. rewrite app_nil_r. repeat split. constructor.
  - destruct (choice_acknowledged f sessionId selectedIndex answer reply w Hf Hr Hc)
      as (w' & confirmed & E & P & O & R & B & K & L & T).
    exists w'. repeat (split; [assumption|]).
    exists [confirmed]. split; [exact L|]. split.
    + destruct f; try reflexivity. congruence.
    + repeat constructor. exact T.
Qed.

Lemma acknowledged_submission_closes_its_prompt_witness :
  exists w',
    submit Product (VStr "s1") 0 ChatInterface.kettle acknowledged first_products_shown
      = Returns w' /\
    pending Product (app w')
      = Handlers.closed (pending Product (app first_products_shown)) /\
    (forall g, g <> Product ->
       pending g (app w') = pending g (app first_products_shown)) /\
    isRunning (app w') = isRunning (app first_products_shown) /\
    batchStatus (app w') = batchStatus (app first_products_shown) /\
    console w' = console first_products_shown /\
    (exists entries,
        logs (app w') = (logs (app first_products_shown) ++ entries)%list /\
        length entries = 1 /\
        Forall (fun entry => type entry = "text") entries).
Proof.
  apply (acknowledged_submission_closes_its_prompt Product (VStr "s1") 0
           ChatInterface.kettle acknowledged first_products_shown);
    reflexivity.
Defined.

(** *** Prompts stay open until they are answered *)

Lemma handleEvent_keeps_open (event : value) (w : World) (g : family) :
  PendingPrompt.isOpen (pending g (app w)) = true ->
  match handleEvent event w with
  | Returns w' | Throws _ w' => PendingPrompt.isOpen (pending g (app w')) = true
  | Unmounts _ => True
  end.
Proof.
  intros Hg. unfold handleEvent. cbv zeta.
  destruct (truthy event); cbn [negb]; [|exact Hg].
  unfold append_log, text_entry, bind.
  repeat (case_scrutinee; cbn [logs app dates update setLogs setBatchStatus
            setHitlData setProductChoices setAddressChoices setPaymentChoices
            setGeneralOptions]);
    try exact I; try exact Hg; destruct g; try exact Hg; reflexivity.
Qed.

Lemma processLine_keeps_open (line : string) (w w' : World) (g : family) :
  PendingPrompt.isOpen (pending g (app w)) = true ->
  processLine line w = Live w' ->
  PendingPrompt.isOpen (pending g (app w')) = true.
Proof.
  intros Hg. unfold processLine.
  destruct (startsWith line "data: "); [|intros [= <-]; exact Hg].
  cbv zeta. destruct (slice 6 line =? EmptyString); [intros [= <-]; exact Hg|].
  destruct (JSON_parse (slice 6 line)) as [event|]; [|intros [= <-]; exact Hg].
  pose proof (handleEvent_keeps_open event w g Hg) as K.
  destruct (handleEvent event w) as [w1 | e w1 | e]; simpl;
    [intros [= <-]; exact K | intros [= <-]; exact K | discriminate].
Qed.

Lemma processLines_keeps_open (lines : list string) (w w' : World) (g : family) :
  PendingPrompt.isOpen (pending g (app w)) = true ->
  processLines lines w = Live w' ->
  PendingPrompt.isOpen (pending g (app w')) = true.
Proof.
  revert w. induction lines as [|line lines IH]; intros w Hg; simpl.
  - intros [= <-]. exact Hg.
  - destruct (processLine line w) as [w1|e] eqn:E; [|discriminate].
    apply IH. exact (processLine_keeps_open _ _ _ _ Hg E).
Qed.

Lemma readLoop_keeps_open (chunks : list string) (w w' : World) (g : family) :
  PendingPrompt.isOpen (pending g (app w)) = true ->
  readLoop chunks w = Live w' ->
  PendingPrompt.isOpen (pending g (app w')) = true.
Proof.
  revert w. induction chunks as [|chunk chunks IH]; intros w Hg; simpl.
  - intros [= <-]. exact Hg.
  - unfold processChunk.
    destruct (processLines (split_nn chunk) w) as [w1|e] eqn:E; [|discriminate].
    apply IH. exact (processLines_keeps_open _ _ _ _ Hg E).
Qed.

(** X11. No event closes a prompt: a prompt that is open stays open through
    any dispatch, any sequence of reads, and a whole run from its start to
    its end; only a submission closes it. *)
Theorem open_prompt_survives_events_and_runs :
  (forall (event : value) (w w' : World) (g : family),
      PendingPrompt.isOpen (pending g (app w)) = true ->
      handleEvent event w = Returns w' ->
      PendingPrompt.isOpen (pending g (app w')) = true) /\
  (forall (chunks : list string) (w w' : World) (g : family),
      PendingPrompt.isOpen (pending g (app w)) = true ->
      readLoop chunks w = Live w' ->
      PendingPrompt.isOpen (pending g (app w')) = true) /\
  (forall (stream : Stream) (w w' : World) (g : family),
      PendingPrompt.isOpen (pending g (app w)) = true ->
      runAgent stream w = Live w' \/ runBatchAgent stream w = Live w' ->
      PendingPrompt.isOpen (pending g (app w')) = true).
Proof.
  split; [|split; [exact readLoop_keeps_open|]].
  - intros event w w' g Hg H. pose proof (handleEvent_keeps_open event w g Hg) as K.
    now rewrite H in K.
  - intros [chunks failure] w w' g Hg [H|H];
      [unfold runAgent in H | unfold runBatchAgent in H]; simpl in H;
      destruct (readLoop chunks _) as [w1|e] eqn:E; try discriminate;
      injection H as <-;
      (assert (K : PendingPrompt.isOpen (pending g (app w1)) = true)
         by (eapply readLoop_keeps_open; [|exact E];
             destruct g; exact Hg));
      destruct failure; destruct g; exact K.
Qed.

Lemma open_prompt_survives_events_and_runs_witness :
  (exists w',
      handleEvent first_products question_shown = Returns w' /\
      PendingPrompt.isOpen (pending FreeText (app w')) = true) /\
  (exists w',
      readLoop sample_reads question_shown = Live w' /\
      PendingPrompt.isOpen (pending FreeText (app w')) = true) /\
  exists w',
    runBatchAgent (mkStream sample_reads None) question_shown = Live w' /\
    PendingPrompt.isOpen (pending FreeText (app w')) = true.
Proof.
  split; [|split].
  { eexists. split; [reflexivity|].
    apply (proj1 open_prompt_survives_events_and_runs first_products
             question_shown _ FreeText); reflexivity. }
  { eexists. split; [reflexivity|].
    apply (proj1 (proj2 open_prompt_survives_events_and_runs) sample_reads
             question_shown _ FreeText); reflexivity. }
  eexists. split; [reflexivity|].
  apply (proj2 (proj2 open_prompt_survives_events_and_runs)
           (mkStream sample_reads None) question_shown _ FreeText).
  - reflexivity.
  - right. reflexivity.
Defined.




(** *** The entries and how they are rendered *)

Lemma entries_written (event : value) (date : nat) :
  Forall (fun entry => ChatInterface.written_type (type entry) = true
                       /\ timestamp entry = Some date)
         (entries_of event date).
Proof.
  unfold entries_of, handleEvent. cbv zeta.
  destruct (truthy event); cbn [negb]; [|constructor].
  unfold append_log, text_entry, bind.
  repeat (case_scrutinee; cbn [logs app dates update setLogs setBatchStatus
            setHitlData setProductChoices setAddressChoices setPaymentChoices
            setGeneralOptions initial Datatypes.app]);
    repeat constructor.
Qed.

Lemma written_app (s : AppState) (entries : list LogEntry) (l : list LogEntry) :
  Handlers.written s -> l = (logs s ++ entries)%list ->
  Forall (fun entry => ChatInterface.written_type (type entry) = true) entries ->
  Forall (fun entry => ChatInterface.written_type (type entry) = true) l.
Proof. intros H -> He. apply Forall_app. split; assumption. Qed.

Lemma handleEvent_written (event : value) (w w' : World) (e : exn) :
  Handlers.written (app w) ->
  handleEvent event w = Returns w' \/ handleEvent event w = Throws e w' ->
  Handlers.written (app w').
Proof.
  intros Hw H. pose proof (handleEvent_timeline event w) as T.
  assert (L : logs (app w') = (logs (app w) ++ entries_of event (dates w))%list).
  { destruct H as [H|H]; rewrite H in T; apply T. }
  unfold Handlers.written. apply (written_app (app w) _ _ Hw L).
  eapply Forall_impl; [|apply entries_written]. simpl. tauto.
Qed.

Lemma submit_written (f : family) (sessionId : value) (selectedIndex : nat)
  (answer : value) (reply : throws Response) (w w' : World) :
  Handlers.written (app w) ->
  submit f sessionId selectedIndex answer reply w = Returns w' ->
  Handlers.written (app w').
Proof.
  intros Hw. unfold Handlers.written in *.
  destruct (resume reply) as [error|result] eqn:R.
  - rewrite (submit_failure f _ _ _ _ _ _ R). intros [= <-]. simpl.
    apply Forall_app. split; [exact Hw | repeat constructor].
  - destruct f; unfold submit, handleHitlSubmit, handleProductSelect,
      handleAddressSelect, handlePaymentSelect, handleOptionSelect; rewrite R;
      unfold append_log, text_entry, bind;
      repeat (case_scrutinee; cbn [logs app dates update setLogs]);
      try discriminate; intros [= <-]; simpl; try exact Hw;
      (apply Forall_app; split; [exact Hw | repeat constructor]).
Qed.

Lemma processLine_written (line : string) (w w' : World) :
  Handlers.written (app w) -> processLine line w = Live w' ->
  Handlers.written (app w').
Proof.
  intros Hw. unfold processLine.
  destruct (startsWith line "data: "); [|intros [= <-]; exact Hw].
  cbv zeta. destruct (slice 6 line =? EmptyString); [intros [= <-]; exact Hw|].
  destruct (JSON_parse (slice 6 line)) as [event|]; [|intros [= <-]; exact Hw].
  destruct (handleEvent event w) as [w1 | e w1 | e] eqn:E; simpl.
  - intros [= <-]. apply (handleEvent_written event w w1 (Error "") Hw). now left.
  - intros [= <-]. apply (handleEvent_written event w w1 e Hw). now right.
  - discriminate.
Qed.

Lemma processLines_written (lines : list string) (w w' : World) :
  Handlers.written (app w) -> processLines lines w = Live w' ->
  Handlers.written (app w').
Proof.
  revert w. induction lines as [|line lines IH]; intros w Hw; simpl.
  - intros [= <-]. exact Hw.
  - destruct (processLine line w) as [w1|e] eqn:E; [|discriminate].
    apply IH. exact (processLine_written _ _ _ Hw E).
Qed.

Lemma readLoop_written (chunks : list string) (w w' : World) :
  Handlers.written (app w) -> readLoop chunks w = Live w' ->
  Handlers.written (app w').
Proof.
  revert w. induction chunks as [|chunk chunks IH]; intros w Hw; simpl.
  - intros [= <-]. exact Hw.
  - unfold processChunk.
    destruct (processLines (split_nn chunk) w) as [w1|e] eqn:E; [|discriminate].
    apply IH. exact (processLines_written _ _ _ Hw E).
Qed.

Lemma finish_written (label : string) (failure : option exn) (w : World) :
  Handlers.written (app w) -> Handlers.written (app (finish label failure w)).
Proof.
  intros Hw. unfold Handlers.written, finish.
  destruct failure as [error|]; simpl; [|exact Hw].
  apply Forall_app. split; [exact Hw | repeat constructor].
Qed.

(** X13. Every entry of the timeline has one of six types ([text],
    [batch-start], [batch-complete], [result-json], [success], [error]):
    this holds at the start and is kept by every dispatch, every
    submission and every run.  So the interface never takes its image
    branch for an entry: it renders a product card or a text. *)
Theorem entries_have_written_types :
  Handlers.written initial /\
  (forall (event : value) (w w' : World),
      Handlers.written (app w) -> handleEvent event w = Returns w' ->
      Handlers.written (app w')) /\
  (forall (f : family) (sessionId : value) (selectedIndex : nat) (answer : value)
          (reply : throws Response) (w w' : World),
      Handlers.written (app w) ->
      submit f sessionId selectedIndex answer reply w = Returns w' ->
      Handlers.written (app w')) /\
  (forall (stream : Stream) (w w' : World),
      runAgent stream w = Live w' \/ runBatchAgent stream w = Live w' ->
      Handlers.written (app w')) /\
  (forall (s : AppState) (entry : LogEntry),
      Handlers.written s -> In entry (logs s) ->
      ChatInterface.log_content entry = ChatInterface.Product (content entry) \/
      ChatInterface.log_content entry = ChatInterface.Markdown (content entry)).
Proof.
  split; [constructor|]. split; [|split; [exact submit_written|split]].
  - intros event w w' Hw H.
    apply (handleEvent_written event w w' (Error "") Hw). now left.
  - intros [chunks failure] w w' [H|H];
      [unfold runAgent in H | unfold runBatchAgent in H]; simpl in H;
      destruct (readLoop chunks _) as [w1|e] eqn:E; try discriminate;
      injection H as <-; apply finish_written;
      (eapply readLoop_written; [|exact E]); constructor.
  - intros s entry Hw Hin. unfold Handlers.written in Hw.
    rewrite Forall_forall in Hw. specialize (Hw entry Hin).
    unfold ChatInterface.log_content.
    destruct (type entry =? "image") eqn:Ei.
    + apply String.eqb_eq in Ei. rewrite Ei in Hw. discriminate.
    + destruct (type entry =? "result-json"); [left | right]; reflexivity.
Qed.

Lemma entries_have_written_types_witness :
  Handlers.written (app first_products_shown) /\
  (exists w',
      submit Product (VStr "s1") 0 ChatInterface.kettle (inr server_error)
             (world_of initial) = Returns w' /\
      Handlers.written (app w')) /\
  (ChatInterface.log_content (text_log "a" 0)
     = ChatInterface.Product (content (text_log "a" 0)) \/
   ChatInterface.log_content (text_log "a" 0)
     = ChatInterface.Markdown (content (text_log "a" 0))) /\
  (exists w',
      runAgent (mkStream sample_reads (Some (TypeError "network error")))
               first_products_shown = Live w' /\
      Handlers.written (app w')).
Proof.
  split; [|split; [|split]].
  - apply (proj1 (proj2 entries_have_written_types) first_products (world_of initial)
             first_products_shown); [constructor | reflexivity].
  - eexists. split; [reflexivity|].
    apply (proj1 (proj2 (proj2 entries_have_written_types)) Product (VStr "s1") 0
             ChatInterface.kettle (inr server_error) (world_of initial));
      [constructor | reflexivity].
  - apply (proj2 (proj2 (proj2 (proj2 entries_have_written_types)))
             (setLogs (fun _ => [text_log "a" 0]) initial) (text_log "a" 0)).
    + repeat constructor.
    + simpl. left. reflexivity.
  - eexists. split; [reflexivity|].
    apply (proj1 (proj2 (proj2 (proj2 entries_have_written_types)))
             (mkStream sample_reads (Some (TypeError "network error")))
             first_products_shown).
    left. reflexivity.
Defined.

Lemma primitive_child (v : value) :
  primitive v = true -> ChatInterface.child_ok v = true.
Proof. destruct v; simpl; try discriminate; reflexivity. Qed.

Lemma primitive_printed (v : value) :
  primitive v = true -> ChatInterface.prints v = true.
Proof.
  intros H. unfold ChatInterface.prints.
  destruct (primitive_prints v H) as [s ->]. reflexivity.
Qed.

(** X14. A [result] event whose content is a JSON text gives an entry
    that the interface hands to the product card with the parsed value.
    The card is an error of the render for [null].  It shows a product
    when the value has a name that is a text and is not empty, and a price,
    a rating and a link that are primitives, the link not a number: the
    actions of the link are shown only when the link is truthy.  It is an
    error of the render when the name is truthy and the name, the price or
    the rating is an object.  It dumps the value when the name is falsy.
    (A name or a link that is a number is left out: its truth depends on
    the rounding of the number.) *)
Theorem result_entry_rendering :
  (forall (event : value) (text : string) (data : value) (w : World),
      is_str (field event "type") "result" = true ->
      field event "content" = VStr text ->
      JSON_parse text = Some data ->
      exists w' entry,
        handleEvent event w = Returns w' /\
        logs (app w') = (logs (app w) ++ [entry])%list /\
        ChatInterface.product_view entry = Some (ChatInterface.ProductCard data)) /\
  (forall data : value,
      nullish data = true ->
      ChatInterface.ProductCard data = ChatInterface.RenderError) /\
  (forall (data : value) (name : string),
      nullish data = false ->
      field data "product_name" = VStr name -> name <> EmptyString ->
      primitive (field data "price") = true ->
      primitive (field data "rating") = true ->
      primitive (field data "product_url") = true ->
      is_num (field data "product_url") = false ->
      ChatInterface.ProductCard data
        = ChatInterface.Element
            (ChatInterface.Card (VStr name) (field data "price")
               (field data "rating")
               (if truthy (field data "product_url")
                then Some (field data "product_url") else None))) /\
  (forall (data : value) (k : string),
      nullish data = false ->
      truthy (field data "product_name") = true ->
      is_num (field data "product_name") = false ->
      In k ["product_name"; "price"; "rating"] ->
      is_obj (field data k) = true ->
      ChatInterface.ProductCard data = ChatInterface.RenderError) /\
  (forall data : value,
      nullish data = false -> truthy (field data "product_name") = false ->
      ChatInterface.ProductCard data
        = ChatInterface.Element (ChatInterface.Dump data)).
Proof.
  split; [|split; [|split; [|split]]].
  - intros event text data w Hty Hc H.
    destruct (typed_is_object _ _ Hty) as [props ->].
    apply is_str_true in Hty. dispatch_on Hty. rewrite Hc.
    cbn [ToString bind]. rewrite H.
    eexists. eexists. split; [reflexivity|]. split; reflexivity.
  - intros data H. unfold ChatInterface.ProductCard. now rewrite H.
  - intros data name Hn Hname Hne Hp Hr Hu Hnum. unfold ChatInterface.ProductCard.
    rewrite Hn, Hname. cbv zeta. cbn [truthy ChatInterface.child_ok].
    rewrite (eqb_empty _ Hne), (primitive_child _ Hp), (primitive_child _ Hr).
    cbn [negb andb].
    replace (if truthy (field data "product_url")
             then ChatInterface.prints (field data "product_url") else true)
      with true
      by (rewrite (primitive_printed _ Hu); now destruct (truthy _)).
    reflexivity.
  - intros data k Hn Ht _ Hk Ho. unfold ChatInterface.ProductCard.
    rewrite Hn, Ht. cbv zeta.
    assert (Hc : ChatInterface.child_ok (field data k) = false)
      by (destruct (field data k); try discriminate; reflexivity).
    destruct Hk as [<- | [<- | [<- | []]]]; rewrite Hc;
      rewrite ?andb_false_r; reflexivity.
  - intros data Hn Ht. unfold ChatInterface.ProductCard. now rewrite Hn, Ht.
Qed.

Lemma result_entry_rendering_witness :
  (exists w' entry,
      handleEvent (result_event (quoted "{'product_name':'X','price':'$9'}"))
                  first_products_shown = Returns w' /\
      logs (app w') = (logs (app first_products_shown) ++ [entry])%list /\
      ChatInterface.product_view entry
        = Some (ChatInterface.ProductCard
                  (VObj [("product_name", VStr "X"); ("price", VStr "$9")]))) /\
  ChatInterface.ProductCard (VObj [("product_name", VStr "X"); ("price", VStr "$9")])
    = ChatInterface.Element
        (ChatInterface.Card (VStr "X") (VStr "$9") VUndefined None) /\
  (exists w' entry,
      handleEvent (result_event "null") (world_of initial) = Returns w' /\
      logs (app w') = (logs (app (world_of initial)) ++ [entry])%list /\
      ChatInterface.product_view entry = Some (ChatInterface.ProductCard VNull)) /\
  ChatInterface.ProductCard VNull = ChatInterface.RenderError /\
  ChatInterface.ProductCard
    (VObj [("product_name", VStr "X"); ("price", VObj [("amount", VNum 9 0)])])
    = ChatInterface.RenderError /\
  ChatInterface.ProductCard (VArr [])
    = ChatInterface.Element (ChatInterface.Dump (VArr [])).
Proof.
  split; [|split; [|split; [|split; [|split]]]].
  - apply (proj1 result_entry_rendering
             (result_event (quoted "{'product_name':'X','price':'$9'}"))
             (quoted "{'product_name':'X','price':'$9'}")
             (VObj [("product_name", VStr "X"); ("price", VStr "$9")])
             first_products_shown); reflexivity.
  - apply (proj1 (proj2 (proj2 result_entry_rendering))
             (VObj [("product_name", VStr "X"); ("price", VStr "$9")]) "X");
      try reflexivity.
    discriminate.
  - apply (proj1 result_entry_rendering (result_event "null") "null" VNull
             (world_of initial)); reflexivity.
  - apply (proj1 (proj2 result_entry_rendering) VNull). reflexivity.
  - apply (proj1 (proj2 (proj2 (proj2 result_entry_rendering)))
             (VObj [("product_name", VStr "X");
                    ("price", VObj [("amount", VNum 9 0)])]) "price");
      try reflexivity.
    simpl. tauto.
  - apply (proj2 (proj2 (proj2 (proj2 result_entry_rendering))) (VArr []));
      reflexivity.
Defined.

(** *** The inline choices and the batch panel *)

Lemma clicks_selected (events : list (list value * value * nat)) (i : nat) :
  ChatInterface.clicks events (Some i) = (Some i, []).
Proof.
  induction events as [|[[choices sid] j] events IH]; simpl; [reflexivity|].
  unfold ChatInterface.click. destruct (nth_error choices j); rewrite IH; reflexivity.
Qed.

Lemma clicks_missed (events : list (list value * value * nat)) :
  Forall (fun ev => nth_error (fst (fst ev)) (snd ev) = None) events ->
  ChatInterface.clicks events None = (None, []).
Proof.
  induction 1 as [|[[choices sid] j] events Hj _ IH]; simpl; [reflexivity|].
  simpl in Hj. unfold ChatInterface.click. rewrite Hj, IH. reflexivity.
Qed.

Lemma clicks_first (before after : list (list value * value * nat))
  (choices : list value) (sid : value) (i : nat) (item : value) :
  Forall (fun ev => nth_error (fst (fst ev)) (snd ev) = None) before ->
  nth_error choices i = Some item ->
  ChatInterface.clicks (before ++ (choices, sid, i) :: after) None
    = (Some i, [ChatInterface.mkSelection sid i item]).
Proof.
  intros Hb Hi. induction Hb as [|[[choices' sid'] j] before Hj _ IH]; simpl.
  - unfold ChatInterface.click, ChatInterface.handleSelect. rewrite Hi.
    rewrite clicks_selected. reflexivity.
  - simpl in Hj. unfold ChatInterface.click at 1. rewrite Hj, IH. reflexivity.
Qed.

Lemma clicks_at_most_one (events : list (list value * value * nat)) :
  length (snd (ChatInterface.clicks events None)) <= 1.
Proof.
  induction events as [|[[choices sid] j] events IH]; simpl; [lia|].
  unfold ChatInterface.click, ChatInterface.handleSelect.
  destruct (nth_error choices j) as [item|].
  - rewrite clicks_selected. simpl. lia.
  - destruct (ChatInterface.clicks events None). simpl in *. exact IH.
Qed.

(** *** A failed submission and the prompt that made it *)

Lemma rerender_open (f : family) (s s' : AppState) (selectedIndex : option nat) :
  PendingPrompt.isOpen (pending f s) = true ->
  PendingPrompt.isOpen (pending f s') = true ->
  ChatInterface.rerender f s s' selectedIndex = selectedIndex.
Proof. intros H H'. unfold ChatInterface.rerender. now rewrite H, H'. Qed.

(** C3.  When a submission fails, every prompt of the registry is left as
    it was, the open one included, and the timeline grows by exactly one
    entry, of type [error].  The operator can retry a free-text answer: the
    input of the prompt hands the next answer to the submitter.  The
    operator cannot retry a choice: the prompt stays open, so its list
    stays mounted with the index that was selected, every select button of
    the list is disabled, and no click hands a selection to the submitter
    again, not even after a later event, a new list for the same prompt
    included.  The last part is the list of two products, the choice of the
    second, and the answer 500 of the server. *)
Theorem failed_submission_keeps_prompt :
  (forall (f : family) (sessionId : value) (selectedIndex : nat) (answer : value)
          (reply : throws Response) (w : World),
      failed reply = true ->
      exists (w' : World) (entry : LogEntry),
        submit f sessionId selectedIndex answer reply w = Returns w' /\
        (forall g, pending g (app w') = pending g (app w)) /\
        logs (app w') = (logs (app w) ++ [entry])%list /\
        type entry = "error" /\
        isRunning (app w') = isRunning (app w) /\
        batchStatus (app w') = batchStatus (app w)) /\
  (forall (sessionId : value) (input again : string) (reply : throws Response)
          (w : World),
      PendingPrompt.isOpen (pending FreeText (app w)) = true ->
      PendingPrompt.sessionId (pending FreeText (app w)) = sessionId ->
      failed reply = true ->
      Text.trim input <> EmptyString -> Text.trim again <> EmptyString ->
      exists w',
        ChatInterface.handleSubmit sessionId input
          = (EmptyString, [(sessionId, input)]) /\
        submit FreeText sessionId 0 (VStr input) reply w = Returns w' /\
        pending FreeText (app w') = pending FreeText (app w) /\
        ChatInterface.handleSubmit
            (PendingPrompt.sessionId (pending FreeText (app w'))) again
          = (EmptyString, [(sessionId, again)])) /\
  (forall (f : family) (items : list value) (i : nat) (item : value)
          (sessionId : value) (reply : throws Response) (w : World),
      f <> FreeText ->
      PendingPrompt.isOpen (pending f (app w)) = true ->
      PendingPrompt.choices (pending f (app w)) = Some (VArr items) ->
      PendingPrompt.sessionId (pending f (app w)) = sessionId ->
      nth_error items i = Some item ->
      failed reply = true ->
      exists w',
        ChatInterface.click items sessionId i None
          = (Some i, [ChatInterface.mkSelection sessionId i item]) /\
        submit f sessionId i item reply w = Returns w' /\
        pending f (app w') = pending f (app w) /\
        ChatInterface.rerender f (app w) (app w') (Some i) = Some i /\
        (forall later : list (list value * value * nat),
            snd (ChatInterface.clicks later
                   (ChatInterface.rerender f (app w) (app w') (Some i))) = []) /\
        (forall (event : value) (w'' : World)
                (later : list (list value * value * nat)),
            handleEvent event w' = Returns w'' ->
            snd (ChatInterface.clicks later
                   (ChatInterface.rerender f (app w') (app w'') (Some i))) = [])) /\
  (exists w',
      pending Product (app ChatInterface.two_products_shown)
        = PendingPrompt.mk true (VStr "s1") (VStr "Pick one")
            (Some (VArr [ChatInterface.kettle; ChatInterface.mug])) None /\
      ChatInterface.click [ChatInterface.kettle; ChatInterface.mug] (VStr "s1") 1 None
        = (Some 1, [ChatInterface.mkSelection (VStr "s1") 1 ChatInterface.mug]) /\
      ChatInterface.mug_refused = Returns w' /\
      pending Product (app w') = pending Product (app ChatInterface.two_products_shown) /\
      logs (app w')
        = (logs (app ChatInterface.two_products_shown)
             ++ [mkLog "error" (VStr "Failed to submit selection: Server error: 500")
                       None (Some 1)])%list /\
      ChatInterface.click [ChatInterface.kettle; ChatInterface.mug] (VStr "s1") 1
        (ChatInterface.rerender Product (app ChatInterface.two_products_shown)
           (app w') (Some 1))
        = (Some 1, []) /\
      ChatInterface.click [ChatInterface.kettle; ChatInterface.mug] (VStr "s1") 0
        (ChatInterface.rerender Product (app ChatInterface.two_products_shown)
           (app w') (Some 1))
        = (Some 1, [])).
Proof.
  split; [exact failed_submission_cells|]. split; [|split].
  - intros sid input again reply w Ho Hs Hr Hi Ha.
    destruct (failed_submission_cells FreeText sid 0 (VStr input) reply w Hr)
      as (w' & entry & E & P & _).
    exists w'. rewrite (P FreeText), Hs. unfold ChatInterface.handleSubmit.
    rewrite (eqb_empty _ Hi), (eqb_empty _ Ha).
    split; [reflexivity|]. split; [exact E|]. split; reflexivity.
  - intros f items i item sid reply w Hf Ho Hch Hs Hi Hr.
    destruct (failed_submission_cells f sid i item reply w Hr)
      as (w' & entry & E & P & _).
    assert (Ho' : PendingPrompt.isOpen (pending f (app w')) = true)
      by now rewrite P.
    exists w'. split.
    { unfold ChatInterface.click, ChatInterface.handleSelect. now rewrite Hi. }
    split; [exact E|]. split; [apply P|].
    split; [now apply rerender_open|]. split.
    + intros later. rewrite (rerender_open f _ _ _ Ho Ho').
      now rewrite clicks_selected.
    + intros event w'' later H.
      pose proof (handleEvent_keeps_open event w' f Ho') as K. rewrite H in K.
      rewrite (rerender_open f _ _ _ Ho' K). now rewrite clicks_selected.
  - eexists. repeat split.
Qed.

Lemma failed_submission_keeps_prompt_witness :
  refused server_error = true /\ refused unknown_session = true /\
  (exists (w' : World) (entry : LogEntry),
      submit Address (VStr "s1") 0 VNull (inr unknown_session) first_products_shown
        = Returns w' /\
      (forall g, pending g (app w') = pending g (app first_products_shown)) /\
      logs (app w') = (logs (app first_products_shown) ++ [entry])%list /\
      type entry = "error" /\
      isRunning (app w') = isRunning (app first_products_shown) /\
      batchStatus (app w') = batchStatus (app first_products_shown)) /\
  (exists w',
      ChatInterface.handleSubmit (VStr "s7") "blue"
        = (EmptyString, [(VStr "s7", "blue")]) /\
      submit FreeText (VStr "s7") 0 (VStr "blue") (inr server_error) question_shown
        = Returns w' /\
      pending FreeText (app w') = pending FreeText (app question_shown) /\
      ChatInterface.handleSubmit
          (PendingPrompt.sessionId (pending FreeText (app w'))) "navy"
        = (EmptyString, [(VStr "s7", "navy")])) /\
  (exists w',
      ChatInterface.click [ChatInterface.kettle; ChatInterface.mug] (VStr "s1") 1 None
        = (Some 1, [ChatInterface.mkSelection (VStr "s1") 1 ChatInterface.mug]) /\
      submit Product (VStr "s1") 1 ChatInterface.mug (inr server_error)
             ChatInterface.two_products_shown = Returns w' /\
      pending Product (app w') = pending Product (app ChatInterface.two_products_shown) /\
      ChatInterface.rerender Product (app ChatInterface.two_products_shown) (app w')
        (Some 1) = Some 1 /\
      (forall later : list (list value * value * nat),
          snd (ChatInterface.clicks later
                 (ChatInterface.rerender Product
                    (app ChatInterface.two_products_shown) (app w') (Some 1)))
            = []) /\
      (forall (event : value) (w'' : World)
              (later : list (list value * value * nat)),
          handleEvent event w' = Returns w'' ->
          snd (ChatInterface.clicks later
                 (ChatInterface.rerender Product (app w') (app w'') (Some 1))) = [])).
Proof.
  split; [reflexivity|]. split; [reflexivity|]. split; [|split].
  - apply (proj1 failed_submission_keeps_prompt Address (VStr "s1") 0 VNull
             (inr unknown_session) first_products_shown).
    reflexivity.
  - apply (proj1 (proj2 failed_submission_keeps_prompt) (VStr "s7") "blue" "navy"
             (inr server_error) question_shown).
    + reflexivity.
    + reflexivity.
    + reflexivity.
    + vm_compute. discriminate.
    + vm_compute. discriminate.
  - apply (proj1 (proj2 (proj2 failed_submission_keeps_prompt)) Product
             [ChatInterface.kettle; ChatInterface.mug] 1 ChatInterface.mug (VStr "s1")
             (inr server_error) ChatInterface.two_products_shown).
    + discriminate.
    + reflexivity.
    + reflexivity.
    + reflexivity.
    + reflexivity.
    + reflexivity.
Defined.

(** X15. An inline list of choices hands at most one selection to its
    submitter while it is mounted, whatever is clicked and however its
    props change: clicks where the list has no card do nothing, the first
    click on a card selects its index and passes the item at that index,
    and every later click is on a disabled button. *)
Theorem one_selection_per_mounted_prompt :
  (forall events : list (list value * value * nat),
      length (snd (ChatInterface.clicks events None)) <= 1) /\
  (forall (events : list (list value * value * nat)) (i : nat),
      ChatInterface.clicks events (Some i) = (Some i, [])) /\
  (forall events : list (list value * value * nat),
      Forall (fun ev => nth_error (fst (fst ev)) (snd ev) = None) events ->
      ChatInterface.clicks events None = (None, [])) /\
  (forall (before after : list (list value * value * nat))
          (choices : list value) (sid : value) (i : nat) (item : value),
      Forall (fun ev => nth_error (fst (fst ev)) (snd ev) = None) before ->
      nth_error choices i = Some item ->
      ChatInterface.clicks (before ++ (choices, sid, i) :: after) None
        = (Some i, [ChatInterface.mkSelection sid i item])).
Proof.
  split; [exact clicks_at_most_one|]. split; [exact clicks_selected|].
  split; [exact clicks_missed | exact clicks_first].
Qed.

Lemma one_selection_per_mounted_prompt_witness :
  ChatInterface.clicks [([ChatInterface.kettle], VStr "s1", 3)] None = (None, []) /\
  ChatInterface.clicks
    ([([ChatInterface.kettle], VStr "s1", 3)]
       ++ ([ChatInterface.kettle; ChatInterface.mug], VStr "s1", 1)
       :: [([ChatInterface.kettle; ChatInterface.mug], VStr "s1", 0);
           ([ChatInterface.mug], VStr "s2", 0)]) None
  = (Some 1, [ChatInterface.mkSelection (VStr "s1") 1 ChatInterface.mug]).
Proof.
  split.
  { apply (proj1 (proj2 (proj2 one_selection_per_mounted_prompt))
             [([ChatInterface.kettle], VStr "s1", 3)]).
    repeat constructor. }
  apply (proj2 (proj2 (proj2 one_selection_per_mounted_prompt))
           [([ChatInterface.kettle], VStr "s1", 3)]).
  - repeat constructor.
  - reflexivity.
Defined.

Lemma count_status_filter (lit : string) (items : list value) :
  Forall (fun item => nullish item = false) items ->
  ChatInterface.count_status lit items
    = inr (length (filter (fun item => is_str (field item "status") lit) items)).
Proof.
  induction 1 as [|item items Hi _ IH]; simpl; [reflexivity|].
  rewrite (get_field item "status" Hi), IH. cbn [bind].
  destruct (is_str (field item "status") lit); reflexivity.
Qed.

Lemma status_cases (s : value) :
  s = VStr "success" \/ s = VStr "failed" \/ s = VStr "pending"
  \/ s = VStr "in_progress" \/ ChatInterface.known_status s = false.
Proof.
  unfold ChatInterface.known_status.
  destruct (is_str s "success") eqn:E1; [left; now apply is_str_true|].
  destruct (is_str s "failed") eqn:E2; [right; left; now apply is_str_true|].
  destruct (is_str s "pending") eqn:E3; [right; right; left; now apply is_str_true|].
  destruct (is_str s "in_progress") eqn:E4;
    [right; right; right; left; now apply is_str_true|].
  right; right; right; right. reflexivity.
Qed.

Lemma unknown_status (s : value) :
  ChatInterface.known_status s = false ->
  is_str s "success" = false /\ is_str s "failed" = false /\
  is_str s "pending" = false /\ is_str s "in_progress" = false.
Proof.
  unfold ChatInterface.known_status. intros H.
  repeat (apply orb_false_iff in H as [H ?]). auto.
Qed.

Lemma counts_add_up (items : list value) :
  let n lit := length (filter (fun item => is_str (field item "status") lit) items) in
  n "success" = ChatInterface.rows_with ChatInterface.CheckCircle items /\
  n "failed" = ChatInterface.rows_with ChatInterface.XCircle items /\
  n "in_progress" = ChatInterface.rows_with ChatInterface.Loader items /\
  n "pending" + ChatInterface.uncounted items
    = ChatInterface.rows_with ChatInterface.Clock items /\
  n "success" + n "failed" + (n "pending" + n "in_progress")
    + ChatInterface.uncounted items = length items.
Proof.
  cbv zeta.
  unfold ChatInterface.rows_with, ChatInterface.uncounted, ChatInterface.getStatusIcon.
  induction items as [|item items IH]; [simpl; repeat split; lia|].
  destruct IH as (I1 & I2 & I3 & I4 & I5).
  cbn [filter].
  destruct (status_cases (field item "status")) as [E|[E|[E|[E|E]]]].
  1-4: rewrite E; simpl; repeat split; lia.
  destruct (unknown_status _ E) as (U1 & U2 & U3 & U4).
  rewrite E, U1, U2, U3, U4. simpl. repeat split; lia.
Qed.

Lemma plain_row_inv (item : value) :
  ChatInterface.plain_row item = true ->
  nullish item = false /\
  (exists s, field item "product_url" = VStr s) /\
  primitive (field item "index") = true /\
  primitive (field item "status") = true /\
  primitive (field item "quantity") = true /\
  primitive (field item "color") = true /\
  primitive (field item "message") = true /\
  primitive (field item "error") = true.
Proof.
  unfold ChatInterface.plain_row. cbn [forallb]. rewrite andb_true_r. intros H.
  apply andb_true_iff in H as [H P]. apply andb_true_iff in H as [Ho Hu].
  repeat (apply andb_true_iff in P as [? P]).
  split; [destruct item; try discriminate; reflexivity|].
  split; [destruct (field item "product_url"); try discriminate; eauto|].
  repeat split; assumption.
Qed.

Lemma plain_row_renders (item : value) :
  ChatInterface.plain_row item = true ->
  exists r, ChatInterface.row item = Some r /\
            ChatInterface.status_icon r
              = ChatInterface.getStatusIcon (field item "status").
Proof.
  intros H.
  destruct (plain_row_inv item H) as (Hn & [s Hs] & Hi & Hst & Hq & Hc & Hm & He).
  unfold ChatInterface.row. rewrite Hn. cbv zeta.
  rewrite (primitive_printed _ Hst), (primitive_printed _ Hi), Hs.
  cbn [negb orb ChatInterface.link_child].
  rewrite (primitive_child _ Hq), (primitive_child _ Hc),
    (primitive_printed _ Hm), (primitive_printed _ He).
  cbn [negb orb]. rewrite !andb_false_r. cbn [orb].
  eexists. split; reflexivity.
Qed.

Lemma plain_rows_render (items : list value) :
  Forall (fun item => ChatInterface.plain_row item = true) items ->
  exists rs, ChatInterface.rows items = Some rs /\
             map ChatInterface.status_icon rs
               = map (fun item => ChatInterface.getStatusIcon (field item "status"))
                     items.
Proof.
  induction 1 as [|item items Hi _ [rs [E M]]]; [exists []; split; reflexivity|].
  destruct (plain_row_renders item Hi) as [r [Er Ir]].
  exists (r :: rs). cbn [ChatInterface.rows map]. rewrite Er, E, Ir, M.
  split; reflexivity.
Qed.

Lemma rows_fail (items : list value) (item : value) :
  In item items -> ChatInterface.row item = None -> ChatInterface.rows items = None.
Proof.
  induction items as [|x items IH]; [contradiction|].
  intros [-> | Hin] H; cbn [ChatInterface.rows].
  - now rewrite H.
  - rewrite (IH Hin H). destruct (ChatInterface.row x); reflexivity.
Qed.

Lemma row_without_link (item : value) :
  nullish (field item "product_url") = true -> ChatInterface.row item = None.
Proof.
  intros H. unfold ChatInterface.row. destruct (nullish item); [reflexivity|].
  cbv zeta. destruct (negb _ || negb _); [reflexivity|].
  destruct (field item "product_url"); try discriminate; reflexivity.
Qed.

Lemma summary_of_rows (items : list value) :
  items <> [] -> ChatInterface.summary (VArr items) <> inr None.
Proof.
  intros Hne. unfold ChatInterface.summary.
  cbn [truthy negb orb field get String.eqb Ascii.eqb Bool.eqb of_nat
       ChatInterface.is_zero ChatInterface.filter_length].
  replace (Z.of_nat (length items) =? 0)%Z with false
    by (destruct items; [congruence | reflexivity]).
  unfold bind.
  repeat match goal with
         | |- context [match ChatInterface.count_status ?l ?i with _ => _ end] =>
             destruct (ChatInterface.count_status l i)
         end; discriminate.
Qed.

(** X16. The batch panel, for a list of items that is not empty and whose
    items are objects with a text as their link and primitives in the
    other places the panel shows: the panel is rendered with one row for
    each item, each with the icon of the status of its item; in the header
    [done] counts the rows with the success icon, [failed] those with the
    failure icon, and [remaining] the rows with the progress or the clock
    icon except those whose status is none of the four known ones, which
    get the clock icon but are counted nowhere; so the three counts add up
    to the number of rows exactly when every status is known.  The panel
    renders nothing for an empty list or a falsy tracker.  It is an error
    of the render when an item of the list has no link, and when the
    tracker is a text that is not empty. *)
Theorem batch_summary_adds_up :
  (forall items : list value,
      items <> [] -> Forall (fun item => ChatInterface.plain_row item = true) items ->
      exists counts rs,
        ChatInterface.BatchStatusPanel (VArr items)
          = ChatInterface.Element (ChatInterface.mkPanel counts rs) /\
        map ChatInterface.status_icon rs
          = map (fun item => ChatInterface.getStatusIcon (field item "status")) items /\
        ChatInterface.done counts
          = ChatInterface.rows_with ChatInterface.CheckCircle items /\
        ChatInterface.failed counts
          = ChatInterface.rows_with ChatInterface.XCircle items /\
        ChatInterface.remaining counts + ChatInterface.uncounted items
          = ChatInterface.rows_with ChatInterface.Loader items
            + ChatInterface.rows_with ChatInterface.Clock items /\
        ChatInterface.done counts + ChatInterface.failed counts
          + ChatInterface.remaining counts + ChatInterface.uncounted items
          = length rs) /\
  ChatInterface.BatchStatusPanel (VArr []) = ChatInterface.Nothing /\
  (forall batchStatus : value,
      truthy batchStatus = false ->
      ChatInterface.BatchStatusPanel batchStatus = ChatInterface.Nothing) /\
  (forall (items : list value) (item : value),
      In item items -> nullish (field item "product_url") = true ->
      ChatInterface.BatchStatusPanel (VArr items) = ChatInterface.RenderError) /\
  (forall text : string,
      js_length text <> 0 ->
      ChatInterface.BatchStatusPanel (VStr text) = ChatInterface.RenderError).
Proof.
  split; [|split; [reflexivity|split; [|split]]].
  - intros items Hne Hall.
    assert (Hnn : Forall (fun item => nullish item = false) items).
    { eapply Forall_impl; [|exact Hall]. intros item H.
      apply (plain_row_inv item H). }
    destruct (plain_rows_render items Hall) as [rs [Er Mr]].
    unfold ChatInterface.BatchStatusPanel, ChatInterface.summary.
    cbn [truthy negb orb field get String.eqb Ascii.eqb Bool.eqb of_nat
         ChatInterface.is_zero ChatInterface.filter_length].
    replace (Z.of_nat (length items) =? 0)%Z with false
      by (destruct items; [congruence | reflexivity]).
    rewrite !(count_status_filter _ items Hnn). cbn [bind]. rewrite Er.
    eexists. eexists. split; [reflexivity|]. split; [exact Mr|].
    cbn [ChatInterface.done ChatInterface.failed ChatInterface.remaining].
    destruct (counts_add_up items) as (C1 & C2 & C3 & C4 & C5).
    assert (Hl : length rs = length items)
      by (rewrite <- (length_map ChatInterface.status_icon rs), Mr; apply length_map).
    repeat split; lia.
  - intros v H. unfold ChatInterface.BatchStatusPanel, ChatInterface.summary.
    rewrite H. reflexivity.
  - intros items item Hin Hu. unfold ChatInterface.BatchStatusPanel.
    rewrite (rows_fail items item Hin (row_without_link item Hu)).
    assert (Hne : items <> []) by (intros ->; contradiction).
    pose proof (summary_of_rows items Hne) as Hs.
    destruct (ChatInterface.summary (VArr items)) as [e | [counts|]];
      [reflexivity | reflexivity | congruence].
  - intros text H. unfold ChatInterface.BatchStatusPanel, ChatInterface.summary.
    assert (Ht : text <> EmptyString) by (intros ->; now apply H).
    cbn [truthy]. rewrite (eqb_empty _ Ht).
    cbn [negb orb field get String.eqb Ascii.eqb Bool.eqb of_nat
         ChatInterface.is_zero].
    replace (Z.of_nat (js_length text) =? 0)%Z with false
      by (symmetry; apply Z.eqb_neq; lia).
    reflexivity.
Qed.

Lemma batch_summary_adds_up_witness :
  (exists counts rs,
      ChatInterface.BatchStatusPanel (VArr ChatInterface.mixed_batch)
        = ChatInterface.Element (ChatInterface.mkPanel counts rs) /\
      map ChatInterface.status_icon rs
        = map (fun item => ChatInterface.getStatusIcon (field item "status"))
              ChatInterface.mixed_batch /\
      ChatInterface.done counts
        = ChatInterface.rows_with ChatInterface.CheckCircle ChatInterface.mixed_batch /\
      ChatInterface.failed counts
        = ChatInterface.rows_with ChatInterface.XCircle ChatInterface.mixed_batch /\
      ChatInterface.remaining counts + ChatInterface.uncounted ChatInterface.mixed_batch
        = ChatInterface.rows_with ChatInterface.Loader ChatInterface.mixed_batch
          + ChatInterface.rows_with ChatInterface.Clock ChatInterface.mixed_batch /\
      ChatInterface.done counts + ChatInterface.failed counts
        + ChatInterface.remaining counts
        + ChatInterface.uncounted ChatInterface.mixed_batch
        = length rs) /\
  ChatInterface.BatchStatusPanel VNull = ChatInterface.Nothing /\
  ChatInterface.BatchStatusPanel (VArr [batch_item 0 "pending"])
    = ChatInterface.RenderError /\
  ChatInterface.BatchStatusPanel (VStr "done") = ChatInterface.RenderError.
Proof.
  split; [|split; [|split]].
  - apply (proj1 batch_summary_adds_up ChatInterface.mixed_batch).
    + discriminate.
    + repeat constructor.
  - apply (proj1 (proj2 (proj2 batch_summary_adds_up)) VNull). reflexivity.
  - apply (proj1 (proj2 (proj2 (proj2 batch_summary_adds_up)))
             [batch_item 0 "pending"] (batch_item 0 "pending")).
    + left. reflexivity.
    + reflexivity.
  - apply (proj2 (proj2 (proj2 (proj2 batch_summary_adds_up))) "done").
    vm_compute. discriminate.
Defined.

(** *** Splitting and trimming *)

Lemma split_nonempty (sep : ascii) (s : string) : Text.split sep s <> [].
Proof.
  destruct s as [|c s]; simpl; [discriminate|].
  destruct (c =? sep)%char; [discriminate|].
  destruct (Text.split sep s); discriminate.
Qed.

Lemma split_no_sep (sep : ascii) (s : string) :
  Text.has sep s = false -> Text.split sep s = [s].
Proof.
  induction s as [|c s IH]; simpl; [reflexivity|].
  intros H. apply orb_false_iff in H as [Hc Hs].
  rewrite Hc, (IH Hs). reflexivity.
Qed.

Lemma split_app (sep : ascii) (a b : string) :
  Text.has sep a = false ->
  Text.split sep (a ++ String sep b) = a :: Text.split sep b.
Proof.
  induction a as [|c a IH]; simpl.
  - intros _. now rewrite Ascii.eqb_refl.
  - intros H. apply orb_false_iff in H as [Hc Ha].
    rewrite Hc, (IH Ha). reflexivity.
Qed.

(** A piece of a split has no separator, and only characters of the text. *)
Lemma split_pieces (sep : ascii) (s p : string) :
  In p (Text.split sep s) ->
  Text.has sep p = false /\ forall c, Text.has c p = true -> Text.has c s = true.
Proof.
  revert p. induction s as [|c s IH]; simpl; intros p.
  - intros [<-|[]]. split; [reflexivity | discriminate].
  - destruct (c =? sep)%char eqn:E.
    + intros [<-|H].
      * split; [reflexivity | discriminate].
      * destruct (IH p H) as [H1 H2]. split; [exact H1|].
        intros x Hx. rewrite (H2 x Hx). apply orb_true_r.
    + intros H. pose proof (split_nonempty sep s) as Hne.
      destruct (Text.split sep s) as [|h t] eqn:Es; [congruence|].
      simpl in H. destruct H as [<-|H].
      * destruct (IH h (or_introl eq_refl)) as [H1 H2]. split.
        -- simpl. now rewrite E, H1.
        -- intros x. simpl. intros Hx. apply orb_true_iff in Hx as [Hx|Hx].
           ++ rewrite Hx. reflexivity.
           ++ rewrite (H2 x Hx). apply orb_true_r.
      * destruct (IH p (or_intror H)) as [H1 H2]. split; [exact H1|].
        intros x Hx. rewrite (H2 x Hx). apply orb_true_r.
Qed.

Lemma trimStart_cons (a : ascii) (s1 : string) :
  Text.trimStart (String a s1) =
    if Text.space1 a then Text.trimStart s1
    else
      match s1 with
      | String b s2 =>
          if Text.space2 a b then Text.trimStart s2
          else
            match s2 with
            | String c s3 =>
                if Text.space3 a b c then Text.trimStart s3 else String a s1
            | EmptyString => String a s1
            end
      | EmptyString => String a s1
      end.
Proof. reflexivity. Qed.

(** What [trimStart] gives is the end of the text. *)
Lemma trimStart_suffix (s : string) : exists p, s = p ++ Text.trimStart s.
Proof.
  remember (String.length s) as n eqn:Hn. revert s Hn.
  induction n as [n IH] using lt_wf_ind. intros s Hn. subst n.
  destruct s as [|a s1]; [exists EmptyString; reflexivity|].
  rewrite trimStart_cons.
  destruct (Text.space1 a).
  { destruct (IH (String.length s1) ltac:(simpl; lia) s1 eq_refl) as [p Hp].
    exists (String a p). simpl. now rewrite <- Hp. }
  destruct s1 as [|b s2]; [exists EmptyString; reflexivity|].
  destruct (Text.space2 a b).
  { destruct (IH (String.length s2) ltac:(simpl; lia) s2 eq_refl) as [p Hp].
    exists (String a (String b p)). simpl. now rewrite <- Hp. }
  destruct s2 as [|c s3]; [exists EmptyString; reflexivity|].
  destruct (Text.space3 a b c); [|exists EmptyString; reflexivity].
  destruct (IH (String.length s3) ltac:(simpl; lia) s3 eq_refl) as [p Hp].
  exists (String a (String b (String c p))). simpl. now rewrite <- Hp.
Qed.

Lemma trimEnd_cons (a : ascii) (s : string) :
  Text.trimEnd (String a s) =
    if Text.trimStart (String a s) =? EmptyString then EmptyString
    else String a (Text.trimEnd s).
Proof. reflexivity. Qed.

(** What [trimEnd] gives is the beginning of the text. *)
Lemma trimEnd_prefix (s : string) : exists q, s = Text.trimEnd s ++ q.
Proof.
  induction s as [|a s [q IH]]; [exists EmptyString; reflexivity|].
  rewrite trimEnd_cons.
  destruct (Text.trimStart (String a s) =? EmptyString).
  - exists (String a s). reflexivity.
  - exists q. simpl. now rewrite <- IH.
Qed.

Lemma has_app (c : ascii) (a b : string) :
  Text.has c (a ++ b) = Text.has c a || Text.has c b.
Proof.
  induction a as [|x a IH]; simpl; [reflexivity|].
  now rewrite IH, orb_assoc.
Qed.

Lemma trim_char (c : ascii) (s : string) :
  Text.has c s = false -> Text.has c (Text.trim s) = false.
Proof.
  intros H. unfold Text.trim.
  destruct (trimStart_suffix s) as [p Hp].
  destruct (trimEnd_prefix (Text.trimStart s)) as [q Hq].
  rewrite Hp, Hq, !has_app in H.
  apply orb_false_iff in H as [_ H]. now apply orb_false_iff in H as [H _].
Qed.

Lemma length_trimStart (s : string) :
  String.length (Text.trimStart s) <= String.length s.
Proof.
  destruct (trimStart_suffix s) as [p Hp].
  rewrite Hp at 2. rewrite length_append. lia.
Qed.

Lemma length_trimEnd (s : string) :
  String.length (Text.trimEnd s) <= String.length s.
Proof.
  destruct (trimEnd_prefix s) as [q Hq].
  rewrite Hq at 2. rewrite length_append. lia.
Qed.

(** The first character of a text that [trimStart] keeps as it is. *)
Lemma trimStart_fixed (a : ascii) (s : string) :
  Text.trimStart (String a s) = String a s ->
  Text.space1 a = false /\
  match s with
  | String b s2 =>
      Text.space2 a b = false /\
      match s2 with
      | String d _ => Text.space3 a b d = false
      | EmptyString => True
      end
  | EmptyString => True
  end.
Proof.
  intros H.
  assert (L : forall t, Text.trimStart t = String a s ->
                        String.length t < String.length (String a s) -> False).
  { intros t Ht Hl. pose proof (length_trimStart t) as Hle. rewrite Ht in Hle. lia. }
  rewrite trimStart_cons in H.
  destruct (Text.space1 a); [exfalso; apply (L s H); simpl; lia|].
  split; [reflexivity|].
  destruct s as [|b s2]; [exact I|].
  destruct (Text.space2 a b); [exfalso; apply (L s2 H); simpl; lia|].
  split; [reflexivity|].
  destruct s2 as [|d s3]; [exact I|].
  destruct (Text.space3 a b d); [exfalso; apply (L s3 H); simpl; lia | reflexivity].
Qed.

Lemma space2_ascii (a b : ascii) : (code b < 128)%N -> Text.space2 a b = false.
Proof.
  intros H. unfold Text.space2.
  destruct (N.eqb_spec (code b) 160); [lia | apply andb_false_r].
Qed.

Lemma space3_ascii_mid (a b c : ascii) : (code b < 128)%N -> Text.space3 a b c = false.
Proof.
  intros H. unfold Text.space3. cbv zeta.
  destruct (N.eqb_spec (code b) 154); [lia|].
  destruct (N.eqb_spec (code b) 128); [lia|].
  destruct (N.eqb_spec (code b) 129); [lia|].
  destruct (N.eqb_spec (code b) 187); [lia|].
  rewrite !andb_false_r. reflexivity.
Qed.

Lemma space3_ascii_last (a b c : ascii) : (code c < 128)%N -> Text.space3 a b c = false.
Proof.
  intros H. unfold Text.space3. cbv zeta.
  destruct (N.eqb_spec (code c) 128); [lia|].
  destruct (N.eqb_spec (code c) 159); [lia|].
  destruct (N.eqb_spec (code c) 168); [lia|].
  destruct (N.eqb_spec (code c) 169); [lia|].
  destruct (N.eqb_spec (code c) 175); [lia|].
  destruct (N.eqb_spec (code c) 191); [lia|].
  destruct (N.leb_spec 128 (code c)); [lia|].
  simpl. rewrite !andb_false_r. reflexivity.
Qed.

Lemma space2_ascii_first (a b : ascii) : (code a < 128)%N -> Text.space2 a b = false.
Proof.
  intros H. unfold Text.space2.
  destruct (N.eqb_spec (code a) 194); [lia | reflexivity].
Qed.

Lemma space3_ascii_first (a b c : ascii) : (code a < 128)%N -> Text.space3 a b c = false.
Proof.
  intros H. unfold Text.space3. cbv zeta.
  destruct (N.eqb_spec (code a) 225); [lia|].
  destruct (N.eqb_spec (code a) 226); [lia|].
  destruct (N.eqb_spec (code a) 227); [lia|].
  destruct (N.eqb_spec (code a) 239); [lia|].
  reflexivity.
Qed.

(** A text that [trimStart] keeps, followed by an ASCII character that is
    no white space, is kept with what follows. *)
Lemma trimStart_fixed_app (u : string) (x : ascii) (r : string) :
  Text.trimStart u = u -> u <> EmptyString -> (code x < 128)%N ->
  Text.trimStart (u ++ String x r) = u ++ String x r.
Proof.
  intros H Hu Hx. destruct u as [|a s]; [congruence|].
  destruct (trimStart_fixed a s H) as [H1 H2].
  cbn [append Text.trimStart]. rewrite H1.
  destruct s as [|b s2].
  - cbn [append]. rewrite (space2_ascii a x Hx).
    destruct r as [|d r']; [reflexivity|].
    now rewrite (space3_ascii_mid a x d Hx).
  - destruct H2 as [H2 H3]. cbn [append]. rewrite H2.
    destruct s2 as [|d s3].
    + cbn [append]. now rewrite (space3_ascii_last a b x Hx).
    + cbn [append]. now rewrite H3.
Qed.

Lemma trimEnd_nonempty (s : string) :
  Text.trimStart s <> EmptyString -> Text.trimEnd s <> EmptyString.
Proof.
  destruct s as [|a s]; [simpl; congruence|].
  intros H. cbn [Text.trimEnd]. rewrite (eqb_empty _ H). discriminate.
Qed.

Lemma append_same_length (p t s : string) :
  s = p ++ t -> String.length t = String.length s -> t = s.
Proof.
  intros -> H. rewrite length_append in H.
  destruct p; [reflexivity | simpl in H; lia].
Qed.

Lemma trim_fixed (s : string) :
  Text.trim s = s -> Text.trimStart s = s /\ Text.trimEnd s = s.
Proof.
  unfold Text.trim. intros H.
  pose proof (length_trimStart s) as L1.
  pose proof (length_trimEnd (Text.trimStart s)) as L2.
  assert (E : String.length (Text.trimStart s) = String.length s).
  { rewrite H in L2. lia. }
  destruct (trimStart_suffix s) as [p Hp].
  pose proof (append_same_length p _ s Hp E) as S1.
  split; [exact S1|]. now rewrite S1 in H.
Qed.

Lemma all_space1_blank (s : string) :
  Text.all_space1 s = true -> Text.trim s = EmptyString.
Proof.
  intros H. unfold Text.trim.
  assert (E : Text.trimStart s = EmptyString).
  { induction s as [|c s IH]; [reflexivity|].
    simpl in H. apply andb_true_iff in H as [Hc Hs].
    rewrite trimStart_cons, Hc. now apply IH. }
  now rewrite E.
Qed.

(** X17. The free-text prompt: an answer made of spaces, tabs and line
    breaks is not sent and stays in the field; any answer with something
    else in it is sent as typed, with the session of the event that opened
    the prompt, and the field is emptied; once acknowledged, the prompt is
    closed with what it showed and nothing else has changed since before
    the event. *)
Theorem free_text_answer_flow :
  (forall (sessionId : value) (input : string),
      Text.all_space1 input = true ->
      ChatInterface.handleSubmit sessionId input = (input, [])) /\
  (forall (event : value) (input : string) (reply : throws Response) (w : World),
      opens FreeText event = true ->
      Text.trim input <> EmptyString ->
      failed reply = false ->
      exists w1 w2,
        handleEvent event w = Returns w1 /\
        pending FreeText (app w1) = announced FreeText event /\
        ChatInterface.handleSubmit (HitlData.sessionId (hitlData (app w1))) input
          = (EmptyString, [(field event "session_id", input)]) /\
        handleHitlSubmit (field event "session_id") (VStr input) reply w1
          = Returns w2 /\
        pending FreeText (app w2) = Handlers.closed (announced FreeText event) /\
        logs (app w2) = logs (app w) /\
        (forall g, g <> FreeText -> pending g (app w2) = pending g (app w))).
Proof.
  split.
  - intros sessionId input H. unfold ChatInterface.handleSubmit.
    now rewrite (all_space1_blank input H).
  - intros event input reply w Ho Hi Hr.
    unfold opens in Ho. cbv zeta in Ho. rewrite andb_true_r in Ho.
    destruct (typed_is_object _ _ Ho) as [props ->].
    apply is_str_true in Ho.
    destruct (resume_not_failed reply Hr) as [result Hres].
    eexists. eexists.
    split; [dispatch_on Ho; reflexivity|].
    split; [reflexivity|].
    split.
    { unfold ChatInterface.handleSubmit. now rewrite (eqb_empty _ Hi). }
    split; [unfold handleHitlSubmit; rewrite Hres; reflexivity|].
    split; [reflexivity|]. split; [reflexivity|].
    intros g Hg. destruct g; try reflexivity. congruence.
Qed.

Lemma free_text_answer_flow_witness :
  ChatInterface.handleSubmit (VStr "s7") ("  " ++ nl) = ("  " ++ nl, []) /\
  exists w1 w2,
    handleEvent (VObj [("type", VStr "request_input");
                       ("content", VStr "Which colour?");
                       ("session_id", VStr "s7")]) (world_of initial) = Returns w1 /\
    pending FreeText (app w1)
      = announced FreeText (VObj [("type", VStr "request_input");
                                  ("content", VStr "Which colour?");
                                  ("session_id", VStr "s7")]) /\
    ChatInterface.handleSubmit (HitlData.sessionId (hitlData (app w1))) " blue"
      = (EmptyString,
         [(field (VObj [("type", VStr "request_input");
                        ("content", VStr "Which colour?");
                        ("session_id", VStr "s7")]) "session_id", " blue")]) /\
    handleHitlSubmit
        (field (VObj [("type", VStr "request_input");
                      ("content", VStr "Which colour?");
                      ("session_id", VStr "s7")]) "session_id")
        (VStr " blue") acknowledged w1 = Returns w2 /\
    pending FreeText (app w2)
      = Handlers.closed
          (announced FreeText (VObj [("type", VStr "request_input");
                                     ("content", VStr "Which colour?");
                                     ("session_id", VStr "s7")])) /\
    logs (app w2) = logs (app (world_of initial)) /\
    (forall g, g <> FreeText -> pending g (app w2) = pending g (app (world_of initial))).
Proof.
  split.
  - apply (proj1 free_text_answer_flow (VStr "s7") ("  " ++ nl)). reflexivity.
  - apply (proj2 free_text_answer_flow
             (VObj [("type", VStr "request_input");
                    ("content", VStr "Which colour?");
                    ("session_id", VStr "s7")]) " blue" acknowledged
             (world_of initial)).
    + reflexivity.
    + vm_compute. discriminate.
    + reflexivity.
Defined.

(** *** Decimal digits and parseInt *)

Lemma string_of_uint_digits (d : Decimal.uint) :
  Text.all_digits (NilEmpty.string_of_uint d) = true.
Proof. induction d; simpl; auto. Qed.

Lemma digits_of_digits (n : N) : Text.all_digits (digits_of n) = true.
Proof. apply string_of_uint_digits. Qed.

Lemma digits_of_nonempty (n : N) : digits_of n <> EmptyString.
Proof.
  unfold digits_of. destruct n as [|p]; [discriminate|]. simpl.
  pose proof (Unsigned.to_uint_nonnil p) as H.
  destruct (Pos.to_uint p); [congruence | discriminate..].
Qed.

Lemma all_digits_has (x : ascii) (s : string) :
  Text.all_digits s = true -> is_digit x = false -> Text.has x s = false.
Proof.
  intros Hs Hx. induction s as [|c s IH]; [reflexivity|].
  simpl in *. apply andb_true_iff in Hs as [Hc Hs].
  rewrite (IH Hs), orb_false_r.
  destruct (Ascii.eqb_spec c x); [congruence | reflexivity].
Qed.

Lemma digit_not_space (c : ascii) : is_digit c = true -> Text.space1 c = false.
Proof.
  intros H. apply digit_code in H. unfold Text.space1. cbv zeta.
  destruct (N.leb_spec (code c) 13); [lia|].
  destruct (N.eqb_spec (code c) 32); [lia|].
  now rewrite andb_false_r.
Qed.

Lemma trimStart_ascii (c : ascii) (s : string) :
  Text.space1 c = false -> (code c < 128)%N ->
  Text.trimStart (String c s) = String c s.
Proof.
  intros H1 H2. rewrite trimStart_cons, H1.
  destruct s as [|b s2]; [reflexivity|].
  rewrite (space2_ascii_first c b H2).
  destruct s2 as [|d s3]; [reflexivity|].
  now rewrite (space3_ascii_first c b d H2).
Qed.

Lemma trimStart_digits (s : string) :
  Text.all_digits s = true -> Text.trimStart s = s.
Proof.
  destruct s as [|c s]; [reflexivity|]. simpl Text.all_digits.
  intros H. apply andb_true_iff in H as [Hc _].
  apply trimStart_ascii; [now apply digit_not_space|].
  apply digit_code in Hc. lia.
Qed.

Lemma trimEnd_digits (s : string) :
  Text.all_digits s = true -> Text.trimEnd s = s.
Proof.
  induction s as [|c s IH]; [reflexivity|].
  intros H. rewrite trimEnd_cons, (trimStart_digits _ H). simpl.
  simpl in H. apply andb_true_iff in H as [_ H]. now rewrite (IH H).
Qed.

Lemma trim_digits (s : string) : Text.all_digits s = true -> Text.trim s = s.
Proof.
  intros H. unfold Text.trim. rewrite (trimStart_digits s H).
  now apply trimEnd_digits.
Qed.

Lemma scan_int_step (c : ascii) (k a : N) (s : string) :
  Text.digit_of 10 c = Some k ->
  Text.scan_int 10 (Some a) (String c s) = Text.scan_int 10 (Some (10 * a + k)%N) s.
Proof. intros H. simpl. now rewrite H. Qed.

Lemma scan_int_acc (d : Decimal.uint) (acc : positive) :
  Text.scan_int 10 (Some (N.pos acc)) (NilEmpty.string_of_uint d)
    = Some (N.pos (Pos.of_uint_acc d acc)).
Proof.
  revert acc. induction d; intros acc;
    cbn [NilEmpty.string_of_uint Pos.of_uint_acc]; [reflexivity|..];
    erewrite scan_int_step by reflexivity;
    rewrite <- IHd;
    match goal with
    | |- context [(code ?c - 48)%N] =>
        let v := eval vm_compute in (code c - 48)%N in
        change (code c - 48)%N with v
    end;
    match goal with
    | |- Text.scan_int _ (Some ?x) _ = Text.scan_int _ (Some ?y) _ =>
        replace x with y by lia
    end; reflexivity.
Qed.

Lemma scan_int_zero (d : Decimal.uint) :
  Text.scan_int 10 (Some 0%N) (NilEmpty.string_of_uint d) = Some (Pos.of_uint d).
Proof.
  induction d; cbn [NilEmpty.string_of_uint Pos.of_uint]; [reflexivity|..];
    erewrite scan_int_step by reflexivity;
    match goal with
    | |- context [(code ?c - 48)%N] =>
        let v := eval vm_compute in (code c - 48)%N in
        change (code c - 48)%N with v
    end;
    [exact IHd | apply (scan_int_acc d)..].
Qed.

Lemma scan_int_start (d : Decimal.uint) :
  d <> Decimal.Nil ->
  Text.scan_int 10 None (NilEmpty.string_of_uint d) = Some (Pos.of_uint d).
Proof.
  intros H. rewrite <- scan_int_zero. destruct d; [congruence | reflexivity..].
Qed.

Lemma scan_int_digits_of (n : N) : Text.scan_int 10 None (digits_of n) = Some n.
Proof.
  unfold digits_of. rewrite scan_int_start.
  - f_equal. apply DecimalN.Unsigned.of_to.
  - destruct n as [|p]; [discriminate | apply Unsigned.to_uint_nonnil].
Qed.

Lemma digits_no_sign (s : string) :
  Text.all_digits s = true -> scan_sign s = (false, s).
Proof.
  destruct s as [|c s]; [reflexivity|]. simpl. intros H.
  apply andb_true_iff in H as [Hc _]. apply digit_code in Hc.
  destruct (c =? "-")%char eqn:E1;
    [apply char_code in E1; change (code "-") with 45%N in E1; lia|].
  destruct (c =? "+")%char eqn:E2;
    [apply char_code in E2; change (code "+") with 43%N in E2; lia|].
  reflexivity.
Qed.

Lemma digits_no_hex (s : string) :
  Text.all_digits s = true -> prefix "0x" s || prefix "0X" s = false.
Proof.
  destruct s as [|c [|b s]]; cbn [prefix Text.all_digits].
  - reflexivity.
  - intros _. destruct (ascii_dec "0" c); reflexivity.
  - intros H. apply andb_true_iff in H as [_ H].
    apply andb_true_iff in H as [Hb _].
    destruct (ascii_dec "0" c); [|reflexivity].
    destruct (ascii_dec "x" b) as [<-|]; [discriminate|].
    destruct (ascii_dec "X" b) as [<-|]; [discriminate|].
    reflexivity.
Qed.

Lemma parseInt_digits_of (n : N) : Text.parseInt (digits_of n) = Some (Z.of_N n).
Proof.
  unfold Text.parseInt.
  rewrite (trimStart_digits _ (digits_of_digits n)).
  rewrite (digits_no_sign _ (digits_of_digits n)).
  rewrite (digits_no_hex _ (digits_of_digits n)).
  now rewrite scan_int_digits_of.
Qed.

Lemma parseInt_or_1_nonzero (s : string) : Text.parseInt_or_1 s <> 0%Z.
Proof.
  unfold Text.parseInt_or_1. destruct (Text.parseInt s) as [z|]; [|discriminate].
  destruct (Z.eqb_spec z 0); [discriminate | assumption].
Qed.

(** *** The upload of a batch *)

Lemma data_rows_flat (u : nat) (q c : option nat) (lines : list string)
  (items : list ControlPanel.Item.t) :
  ControlPanel.data_rows u q c lines items
    = (items ++ flat_map (fun line =>
                            match ControlPanel.row_item u q c line with
                            | Some item => [item]
                            | None => []
                            end) lines)%list.
Proof.
  revert items. induction lines as [|line lines IH]; intros items; simpl.
  - now rewrite app_nil_r.
  - rewrite IH. destruct (ControlPanel.row_item u q c line).
    + now rewrite <- app_assoc.
    + reflexivity.
Qed.

Lemma filled_inv (values : list string) (i : nat) (v : string) :
  ControlPanel.filled values i = Some v -> In v values /\ v <> EmptyString.
Proof.
  unfold ControlPanel.filled. destruct (nth_error values i) as [x|] eqn:E; [|discriminate].
  destruct (x =? EmptyString) eqn:Ex; [discriminate|].
  intros [= <-]. split; [exact (nth_error_In _ _ E)|].
  intros ->. discriminate.
Qed.

Lemma row_item_shape (u : nat) (q c : option nat) (line : string)
  (item : ControlPanel.Item.t) :
  Text.has LF line = false ->
  ControlPanel.row_item u q c line = Some item ->
  ControlPanel.Item.product_url item <> EmptyString /\
  Text.has "," (ControlPanel.Item.product_url item) = false /\
  Text.has LF (ControlPanel.Item.product_url item) = false /\
  ControlPanel.Item.quantity item <> 0%Z /\
  ControlPanel.Item.color item <> Some EmptyString.
Proof.
  intros Hl. unfold ControlPanel.row_item. cbv zeta.
  destruct (ControlPanel.filled _ u) as [url|] eqn:Eu; [|discriminate].
  intros [= <-]. cbn [ControlPanel.Item.product_url ControlPanel.Item.quantity
                      ControlPanel.Item.color].
  destruct (filled_inv _ _ _ Eu) as [Hin Hne].
  apply in_map_iff in Hin as [p [<- Hp]].
  destruct (split_pieces "," line p Hp) as [Hc Hs].
  split; [exact Hne|]. split; [now apply trim_char|]. split.
  { apply trim_char. destruct (Text.has LF p) eqn:E; [|reflexivity].
    rewrite (Hs LF E) in Hl. discriminate. }
  split.
  - destruct q as [q|]; [|discriminate].
    destruct (ControlPanel.filled _ q); [apply parseInt_or_1_nonzero | discriminate].
  - destruct c as [c|]; [|discriminate].
    destruct (ControlPanel.filled _ c) as [v|] eqn:Ec; [|discriminate].
    destruct (filled_inv _ _ _ Ec) as [_ Hv]. congruence.
Qed.

Lemma lines_of_no_LF (text line : string) :
  In line (ControlPanel.lines_of text) -> Text.has LF line = false.
Proof.
  unfold ControlPanel.lines_of. intros H. apply filter_In in H as [H _].
  apply (split_pieces LF text line H).
Qed.

Lemma flat_map_length_le {A B : Type} (f : A -> option B) (l : list A) :
  length (flat_map (fun x => match f x with Some y => [y] | None => [] end) l)
    <= length l.
Proof.
  induction l as [|x l IH]; simpl; [lia|].
  destruct (f x); simpl; lia.
Qed.

Lemma onload_loaded (text : string) (items : list ControlPanel.Item.t) :
  ControlPanel.onload text = ControlPanel.Loaded items ->
  exists u q c,
    2 <= length (ControlPanel.lines_of text) /\
    items = flat_map (fun line =>
                        match ControlPanel.row_item u q c line with
                        | Some item => [item]
                        | None => []
                        end) (tl (ControlPanel.lines_of text)).
Proof.
  unfold ControlPanel.onload. cbv zeta.
  destruct (Nat.ltb_spec (length (ControlPanel.lines_of text)) 2); [discriminate|].
  destruct (Text.findIndex _ _) as [u|]; [|discriminate].
  intros [= <-]. rewrite data_rows_flat. simpl. eauto.
Qed.

(** X18. Every item an upload loads has a product link that is not empty
    and has no comma and no line feed, a quantity that is not zero, and a
    colour that is absent or not empty; there are fewer items than lines
    that are not blank.  The quantity field of the form never gives zero
    either. *)
Theorem uploaded_items_are_orders :
  (forall (text : string) (items : list ControlPanel.Item.t),
      ControlPanel.onload text = ControlPanel.Loaded items ->
      Forall (fun item =>
                ControlPanel.Item.product_url item <> EmptyString /\
                Text.has "," (ControlPanel.Item.product_url item) = false /\
                Text.has LF (ControlPanel.Item.product_url item) = false /\
                ControlPanel.Item.quantity item <> 0%Z /\
                ControlPanel.Item.color item <> Some EmptyString) items /\
      length items < length (ControlPanel.lines_of text)) /\
  (forall value : string, ControlPanel.quantity_onChange value <> 0%Z).
Proof.
  split; [|exact parseInt_or_1_nonzero].
  intros text items H. destruct (onload_loaded text items H) as (u & q & c & Hl & ->).
  split.
  - apply Forall_forall. intros item Hin.
    apply in_flat_map in Hin as [line [Hline Hitem]].
    destruct (ControlPanel.row_item u q c line) as [item'|] eqn:E; [|destruct Hitem].
    destruct Hitem as [<-|[]].
    apply (row_item_shape u q c line item'); [|exact E].
    apply (lines_of_no_LF text).
    destruct (ControlPanel.lines_of text); [destruct Hline | now right].
  - pose proof (flat_map_length_le (ControlPanel.row_item u q c)
                  (tl (ControlPanel.lines_of text))) as L.
    destruct (ControlPanel.lines_of text); simpl in *; lia.
Qed.

Lemma uploaded_items_are_orders_witness :
  Forall (fun item =>
            ControlPanel.Item.product_url item <> EmptyString /\
            Text.has "," (ControlPanel.Item.product_url item) = false /\
            Text.has LF (ControlPanel.Item.product_url item) = false /\
            ControlPanel.Item.quantity item <> 0%Z /\
            ControlPanel.Item.color item <> Some EmptyString)
         ControlPanel.sample_items /\
  length ControlPanel.sample_items
    < length (ControlPanel.lines_of ControlPanel.sample_csv).
Proof.
  apply (proj1 uploaded_items_are_orders ControlPanel.sample_csv
           ControlPanel.sample_items).
  reflexivity.
Defined.

Lemma findIndex_none {A : Type} (p : A -> bool) (l : list A) :
  (forall x, In x l -> p x = false) -> Text.findIndex p l = None.
Proof.
  induction l as [|x l IH]; intros H; simpl; [reflexivity|].
  rewrite (H x (or_introl eq_refl)), IH; [reflexivity|].
  intros y Hy. apply H. now right.
Qed.

Lemma split_one_line (text : string) :
  Text.has LF text = false -> length (ControlPanel.lines_of text) < 2.
Proof.
  intros H. unfold ControlPanel.lines_of. rewrite (split_no_sep LF text H).
  simpl. destruct (negb _); simpl; lia.
Qed.

(** X19. An upload leaves the list of the batch as it was when no file is
    chosen, when the text has fewer than two lines that are not blank (so
    for every text of one line), and when no column title contains [url];
    in the last two cases it shows one alert.  Whenever an upload shows an
    alert, the list is unchanged. *)
Theorem refused_upload_changes_nothing :
  (forall csvData : list ControlPanel.Item.t,
      ControlPanel.handleFileUpload None csvData = ([], csvData)) /\
  (forall (text : string) (csvData : list ControlPanel.Item.t),
      length (ControlPanel.lines_of text) < 2 ->
      ControlPanel.handleFileUpload (Some text) csvData
        = ([ControlPanel.no_rows], csvData)) /\
  (forall (text : string) (csvData : list ControlPanel.Item.t),
      Text.has LF text = false ->
      ControlPanel.handleFileUpload (Some text) csvData
        = ([ControlPanel.no_rows], csvData)) /\
  (forall (text : string) (csvData : list ControlPanel.Item.t),
      2 <= length (ControlPanel.lines_of text) ->
      (forall h, In h (ControlPanel.header_of (hd EmptyString (ControlPanel.lines_of text))) ->
                 Text.includes h "url" = false) ->
      ControlPanel.handleFileUpload (Some text) csvData
        = ([ControlPanel.no_url_column], csvData)) /\
  (forall (file : option string) (csvData csvData' : list ControlPanel.Item.t)
          (alerts : list string),
      ControlPanel.handleFileUpload file csvData = (alerts, csvData') ->
      alerts <> [] -> csvData' = csvData).
Proof.
  assert (R : forall text csvData,
             length (ControlPanel.lines_of text) < 2 ->
             ControlPanel.handleFileUpload (Some text) csvData
               = ([ControlPanel.no_rows], csvData)).
  { intros text csvData H. unfold ControlPanel.handleFileUpload, ControlPanel.onload.
    cbv zeta. destruct (Nat.ltb_spec (length (ControlPanel.lines_of text)) 2);
      [reflexivity | lia]. }
  split; [reflexivity|]. split; [exact R|]. split; [|split].
  - intros text csvData H. apply R. now apply split_one_line.
  - intros text csvData Hl Hh.
    unfold ControlPanel.handleFileUpload, ControlPanel.onload. cbv zeta.
    destruct (Nat.ltb_spec (length (ControlPanel.lines_of text)) 2); [lia|].
    rewrite findIndex_none; [reflexivity|].
    intros h Hin. rewrite (Hh h Hin). simpl.
    destruct (String.eqb_spec h "product_url") as [->|]; [|reflexivity].
    specialize (Hh _ Hin). discriminate.
  - intros file csvData csvData' alerts. unfold ControlPanel.handleFileUpload.
    destruct file as [text|]; [|intros [= <- <-]; congruence].
    destruct (ControlPanel.onload text); intros [= <- <-]; congruence.
Qed.

Lemma refused_upload_changes_nothing_witness :
  ControlPanel.handleFileUpload (Some (nl ++ "url" ++ nl ++ "  " ++ nl))
                                ControlPanel.sample_items
    = ([ControlPanel.no_rows], ControlPanel.sample_items) /\
  ControlPanel.sample_items = ControlPanel.sample_items /\
  ControlPanel.handleFileUpload (Some "product_url,quantity") ControlPanel.sample_items
    = ([ControlPanel.no_rows], ControlPanel.sample_items) /\
  ControlPanel.handleFileUpload (Some ("name,price" ++ nl ++ "Kettle,9"))
                                ControlPanel.sample_items
    = ([ControlPanel.no_url_column], ControlPanel.sample_items).
Proof.
  split; [|split; [|split]].
  - apply (proj1 (proj2 refused_upload_changes_nothing)
             (nl ++ "url" ++ nl ++ "  " ++ nl) ControlPanel.sample_items).
    vm_compute. lia.
  - apply (proj2 (proj2 (proj2 (proj2 refused_upload_changes_nothing)))
             (Some "url") ControlPanel.sample_items ControlPanel.sample_items
             [ControlPanel.no_rows]); [reflexivity | discriminate].
  - apply (proj1 (proj2 (proj2 refused_upload_changes_nothing))
             "product_url,quantity" ControlPanel.sample_items).
    reflexivity.
  - apply (proj1 (proj2 (proj2 (proj2 refused_upload_changes_nothing)))
             ("name,price" ++ nl ++ "Kettle,9") ControlPanel.sample_items).
    + vm_compute. lia.
    + intros h Hh. vm_compute in Hh.
      destruct Hh as [<-|[<-|[]]]; reflexivity.
Defined.

(** *** A table in the layout of the hint *)

Lemma plain_inv (s : string) :
  ControlPanel.plain s = true ->
  Text.has "," s = false /\ Text.has LF s = false /\ Text.trim s = s.
Proof.
  unfold ControlPanel.plain. intros H.
  apply andb_true_iff in H as [H Ht]. apply andb_true_iff in H as [Hc Hl].
  apply negb_true_iff in Hc, Hl. apply String.eqb_eq in Ht. auto.
Qed.

Lemma plain_item_inv (item : ControlPanel.Item.t) :
  ControlPanel.plain_item item = true -> ControlPanel.plain_parts item.
Proof.
  unfold ControlPanel.plain_item. intros H.
  apply andb_true_iff in H as [H Hc]. apply andb_true_iff in H as [H Hq].
  apply andb_true_iff in H as [Hu Hn].
  apply negb_true_iff in Hn. apply andb_true_iff in Hq as [Hq Hq'].
  apply Z.ltb_lt in Hq. apply Z.leb_le in Hq'.
  constructor; try assumption; try lia.
  - intros E. rewrite E in Hn. discriminate.
  - destruct (ControlPanel.Item.color item) as [c|]; [|exact I].
    apply andb_true_iff in Hc as [Hc Hn']. apply negb_true_iff in Hn'.
    split; [exact Hc|]. intros E. rewrite E in Hn'. discriminate.
Qed.

Lemma color_text_plain (item : ControlPanel.Item.t) :
  ControlPanel.plain_parts item ->
  Text.has "," (ControlPanel.color_text item) = false /\ Text.has LF (ControlPanel.color_text item) = false /\
  Text.trim (ControlPanel.color_text item) = ControlPanel.color_text item /\
  ControlPanel.filled
    [ControlPanel.Item.product_url item;
     digits_of (Z.to_N (ControlPanel.Item.quantity item)); ControlPanel.color_text item] 2
    = ControlPanel.Item.color item.
Proof.
  intros [_ _ _ Hc]. unfold ControlPanel.color_text, ControlPanel.filled. simpl.
  destruct (ControlPanel.Item.color item) as [c|].
  - destruct Hc as [Hp Hn]. destruct (plain_inv c Hp) as (H1 & H2 & H3).
    rewrite (eqb_empty _ Hn). auto.
  - auto.
Qed.

Lemma comma_not_digit : is_digit "," = false.
Proof. reflexivity. Qed.

Lemma LF_not_digit : is_digit LF = false.
Proof. reflexivity. Qed.

Lemma csv_row_split (item : ControlPanel.Item.t) :
  ControlPanel.plain_parts item ->
  map Text.trim (Text.split "," (ControlPanel.csv_row item))
    = [ControlPanel.Item.product_url item;
       digits_of (Z.to_N (ControlPanel.Item.quantity item)); ControlPanel.color_text item].
Proof.
  intros P. destruct (color_text_plain item P) as (C1 & C2 & C3 & _).
  destruct P as [Hu _ _ _]. destruct (plain_inv _ Hu) as (U1 & U2 & U3).
  unfold ControlPanel.csv_row.
  change ("," ++ ?x) with (String "," x).
  rewrite (split_app "," _ _ U1).
  change ("," ++ ?x) with (String "," x).
  rewrite (split_app "," _ _
             (all_digits_has "," _ (digits_of_digits _) comma_not_digit)).
  rewrite (split_no_sep "," _ C1). simpl.
  now rewrite U3, C3, (trim_digits _ (digits_of_digits _)).
Qed.

Lemma csv_row_item (item : ControlPanel.Item.t) :
  ControlPanel.plain_parts item ->
  ControlPanel.row_item 0 (Some 1) (Some 2) (ControlPanel.csv_row item) = Some item.
Proof.
  intros P. unfold ControlPanel.row_item. cbv zeta.
  rewrite (csv_row_split item P).
  destruct (color_text_plain item P) as (_ & _ & _ & C4). rewrite C4.
  destruct P as [_ Hn Hq _].
  unfold ControlPanel.filled at 1. cbn [nth_error]. rewrite (eqb_empty _ Hn).
  unfold ControlPanel.filled. cbn [nth_error].
  rewrite (eqb_empty _ (digits_of_nonempty _)).
  unfold Text.parseInt_or_1. rewrite parseInt_digits_of.
  rewrite Z2N.id by lia.
  destruct (Z.eqb_spec (ControlPanel.Item.quantity item) 0); [lia|].
  destruct item; reflexivity.
Qed.

Lemma csv_row_no_LF (item : ControlPanel.Item.t) :
  ControlPanel.plain_parts item -> Text.has LF (ControlPanel.csv_row item) = false.
Proof.
  intros P. destruct (color_text_plain item P) as (_ & C2 & _ & _).
  destruct P as [Hu _ _ _]. destruct (plain_inv _ Hu) as (_ & U2 & _).
  unfold ControlPanel.csv_row.
  rewrite !has_app, U2, C2,
    (all_digits_has LF _ (digits_of_digits _) LF_not_digit).
  reflexivity.
Qed.

Lemma csv_row_not_blank (item : ControlPanel.Item.t) :
  ControlPanel.plain_parts item -> Text.trim (ControlPanel.csv_row item) <> EmptyString.
Proof.
  intros [Hu Hn _ _]. destruct (plain_inv _ Hu) as (_ & _ & U3).
  destruct (trim_fixed _ U3) as [S1 _].
  unfold Text.trim. apply trimEnd_nonempty.
  unfold ControlPanel.csv_row. change ("," ++ ?x) with (String "," x).
  rewrite !(trimStart_fixed_app _ "," _ S1 Hn) by reflexivity.
  destruct (ControlPanel.Item.product_url item); [congruence | simpl; discriminate].
Qed.

Lemma csv_rows_lines (items : list ControlPanel.Item.t) :
  Forall ControlPanel.plain_parts items ->
  ControlPanel.lines_of (ControlPanel.csv_rows items)
    = map ControlPanel.csv_row items.
Proof.
  unfold ControlPanel.lines_of.
  induction 1 as [|item items P _ IH]; [reflexivity|].
  cbn [ControlPanel.csv_rows map]. unfold nl at 1.
  change (String LF EmptyString ++ ?x) with (String LF x).
  rewrite (split_app LF _ _ (csv_row_no_LF item P)). cbn [filter].
  rewrite (eqb_empty _ (csv_row_not_blank item P)). cbn [negb].
  now rewrite IH.
Qed.

Lemma csv_text_lines (items : list ControlPanel.Item.t) :
  Forall ControlPanel.plain_parts items ->
  ControlPanel.lines_of (ControlPanel.csv_text items)
    = "product_url,quantity,color" :: map ControlPanel.csv_row items.
Proof.
  intros H. pose proof (csv_rows_lines items H) as R.
  unfold ControlPanel.lines_of in *. unfold ControlPanel.csv_text, nl.
  change (String LF EmptyString ++ ?x) with (String LF x).
  rewrite (split_app LF "product_url,quantity,color" _ eq_refl).
  cbn [filter]. rewrite R.
  replace (Text.trim "product_url,quantity,color" =? EmptyString) with false
    by (vm_compute; reflexivity).
  reflexivity.
Qed.

Lemma rows_read_back (items : list ControlPanel.Item.t) :
  Forall ControlPanel.plain_parts items ->
  flat_map (fun line =>
              match ControlPanel.row_item 0 (Some 1) (Some 2) line with
              | Some item => [item]
              | None => []
              end) (map ControlPanel.csv_row items) = items.
Proof.
  induction 1 as [|item items P _ IH]; [reflexivity|].
  cbn [map flat_map]. rewrite (csv_row_item item P), IH. reflexivity.
Qed.

Lemma hinted_header :
  let header := ControlPanel.header_of "product_url,quantity,color" in
  Text.findIndex (fun h => Text.includes h "url" || (h =? "product_url")) header
    = Some 0 /\
  Text.findIndex (fun h => Text.includes h "qty" || Text.includes h "quantity") header
    = Some 1 /\
  Text.findIndex (fun h => Text.includes h "color" || Text.includes h "variant") header
    = Some 2.
Proof. vm_compute. auto. Qed.

(** X20. A table written the way the panel asks for (the three column
    titles, then for each item its link, its quantity in decimal and its
    colour or nothing, separated by commas) is read back as the items it
    was written from, when the items are plain. *)
Theorem table_in_hinted_layout_is_read_back :
  forall items : list ControlPanel.Item.t,
    items <> [] -> forallb ControlPanel.plain_item items = true ->
    ControlPanel.onload (ControlPanel.csv_text items) = ControlPanel.Loaded items /\
    forall csvData : list ControlPanel.Item.t,
      ControlPanel.handleFileUpload (Some (ControlPanel.csv_text items)) csvData
        = ([], items).
Proof.
  intros items Hne Hp.
  assert (P : Forall ControlPanel.plain_parts items).
  { rewrite forallb_forall in Hp. apply Forall_forall.
    intros item Hin. apply plain_item_inv. now apply Hp. }
  assert (L : ControlPanel.onload (ControlPanel.csv_text items)
              = ControlPanel.Loaded items).
  { unfold ControlPanel.onload. cbv zeta. rewrite (csv_text_lines items P).
    destruct items as [|item items]; [congruence|].
    cbn [length map Nat.ltb Nat.leb hd tl].
    destruct hinted_header as (H1 & H2 & H3). rewrite H1, H2, H3.
    rewrite data_rows_flat. cbn [Datatypes.app].
    change (ControlPanel.csv_row item :: map ControlPanel.csv_row items)
      with (map ControlPanel.csv_row (item :: items)).
    now rewrite (rows_read_back _ P). }
  split; [exact L|]. intros csvData. unfold ControlPanel.handleFileUpload.
  now rewrite L.
Qed.

Lemma table_in_hinted_layout_is_read_back_witness :
  ControlPanel.onload (ControlPanel.csv_text ControlPanel.sample_items)
    = ControlPanel.Loaded ControlPanel.sample_items /\
  forall csvData : list ControlPanel.Item.t,
    ControlPanel.handleFileUpload
      (Some (ControlPanel.csv_text ControlPanel.sample_items)) csvData
      = ([], ControlPanel.sample_items).
Proof.
  apply (table_in_hinted_layout_is_read_back ControlPanel.sample_items).
  - discriminate.
  - reflexivity.
Defined.

(** *** Carriage returns in an upload *)

Lemma CR_ascii : (code (ascii_of_N 13) < 128)%N.
Proof. reflexivity. Qed.

Lemma trimStart_CR (x : string) :
  Text.trimStart (x ++ ControlPanel.CR) =
    if Text.trimStart x =? EmptyString then EmptyString
    else Text.trimStart x ++ ControlPanel.CR.
Proof.
  remember (String.length x) as n eqn:Hn. revert x Hn.
  induction n as [n IH] using lt_wf_ind. intros x Hn. subst n.
  destruct x as [|a s1]; [reflexivity|].
  rewrite app_String, !trimStart_cons.
  destruct (Text.space1 a) eqn:Ea.
  { apply (IH (String.length s1)); [simpl; lia | reflexivity]. }
  destruct s1 as [|b s2].
  { cbn [append ControlPanel.CR]. now rewrite (space2_ascii a _ CR_ascii). }
  rewrite app_String.
  destruct (Text.space2 a b) eqn:Eb.
  { apply (IH (String.length s2)); [simpl; lia | reflexivity]. }
  destruct s2 as [|c s3].
  { cbn [append ControlPanel.CR]. now rewrite (space3_ascii_last a b _ CR_ascii). }
  rewrite app_String.
  destruct (Text.space3 a b c) eqn:Ec.
  { apply (IH (String.length s3)); [simpl; lia | reflexivity]. }
  reflexivity.
Qed.

Lemma append_CR_nonempty (x : string) : x ++ ControlPanel.CR <> EmptyString.
Proof. destruct x; discriminate. Qed.

Lemma trimEnd_CR (t : string) :
  Text.trimEnd (t ++ ControlPanel.CR) = Text.trimEnd t.
Proof.
  induction t as [|a t IH]; [reflexivity|].
  rewrite app_String, !trimEnd_cons, IH.
  rewrite <- app_String, trimStart_CR.
  destruct (Text.trimStart (String a t) =? EmptyString) eqn:E; [reflexivity|].
  now rewrite (eqb_empty _ (append_CR_nonempty _)).
Qed.

Lemma trim_CR (x : string) : Text.trim (x ++ ControlPanel.CR) = Text.trim x.
Proof.
  unfold Text.trim. rewrite trimStart_CR.
  destruct (Text.trimStart x =? EmptyString) eqn:E.
  - apply String.eqb_eq in E. now rewrite E.
  - apply trimEnd_CR.
Qed.

Lemma split_append_last (sep : ascii) (l t : string) :
  Text.has sep t = false ->
  Text.split sep (l ++ t)
    = (removelast (Text.split sep l)
         ++ [(last (Text.split sep l) EmptyString ++ t)%string])%list.
Proof.
  intros Ht. induction l as [|c l IH].
  - simpl. now rewrite (split_no_sep sep t Ht).
  - rewrite app_String. cbn [Text.split]. rewrite IH.
    pose proof (split_nonempty sep l) as Hne.
    destruct (Text.split sep l) as [|h tl] eqn:E; [congruence|].
    destruct (c =? sep)%char.
    + reflexivity.
    + destruct tl as [|h' tl']; reflexivity.
Qed.

Lemma map_trim_CR (l : string) :
  map Text.trim (Text.split "," (l ++ ControlPanel.CR))
    = map Text.trim (Text.split "," l).
Proof.
  rewrite (split_append_last "," l ControlPanel.CR eq_refl).
  pose proof (split_nonempty "," l) as Hne.
  rewrite (app_removelast_last EmptyString Hne) at 3.
  rewrite !map_app. cbn [map]. now rewrite trim_CR.
Qed.

Lemma header_of_CR (l : string) :
  ControlPanel.header_of (l ++ ControlPanel.CR) = ControlPanel.header_of l.
Proof.
  unfold ControlPanel.header_of.
  rewrite <- !(map_map Text.trim Text.toLowerCase). now rewrite map_trim_CR.
Qed.

Lemma row_item_CR (u : nat) (q c : option nat) (l : string) :
  ControlPanel.row_item u q c (l ++ ControlPanel.CR) = ControlPanel.row_item u q c l.
Proof. unfold ControlPanel.row_item. now rewrite map_trim_CR. Qed.

Lemma split_unlines (e : string) (lines : list string) :
  Text.has LF e = false ->
  Forall (fun l => Text.has LF l = false) lines ->
  Text.split LF (ControlPanel.unlines (e ++ nl) lines)
    = (map (fun l => (l ++ e)%string) lines ++ [EmptyString])%list.
Proof.
  intros He. induction 1 as [|l lines Hl _ IH]; [reflexivity|].
  cbn [ControlPanel.unlines map Datatypes.app].
  rewrite <- IH, (append_assoc e nl), <- (append_assoc l e).
  change (nl ++ ?x) with (String LF x). apply split_app.
  now rewrite has_app, Hl, He.
Qed.

Lemma lines_of_unlines_CR (lines : list string) :
  Forall (fun l => Text.has LF l = false) lines ->
  ControlPanel.lines_of (ControlPanel.unlines (ControlPanel.CR ++ nl) lines)
    = map (fun l => l ++ ControlPanel.CR)
          (filter (fun line => negb (Text.trim line =? EmptyString)) lines).
Proof.
  intros H. unfold ControlPanel.lines_of.
  rewrite (split_unlines ControlPanel.CR lines eq_refl H).
  rewrite filter_app. cbn [filter]. simpl (negb _). rewrite app_nil_r.
  clear H. induction lines as [|l lines IH]; [reflexivity|].
  cbn [map filter]. rewrite trim_CR.
  destruct (negb (Text.trim l =? EmptyString)); cbn [map]; now rewrite IH.
Qed.

Lemma lines_of_unlines (lines : list string) :
  Forall (fun l => Text.has LF l = false) lines ->
  ControlPanel.lines_of (ControlPanel.unlines nl lines)
    = filter (fun line => negb (Text.trim line =? EmptyString)) lines.
Proof.
  intros H. unfold ControlPanel.lines_of.
  pose proof (split_unlines EmptyString lines eq_refl H) as S.
  cbn [append] in S. rewrite S.
  rewrite filter_app. cbn [filter]. simpl (negb _). rewrite app_nil_r.
  f_equal. clear. induction lines as [|l lines IH]; [reflexivity|].
  cbn [map]. now rewrite append_nil_r, IH.
Qed.

Lemma rows_CR (u : nat) (q c : option nat) (L : list string) :
  flat_map (fun line =>
              match ControlPanel.row_item u q c line with
              | Some item => [item]
              | None => []
              end) (map (fun l => l ++ ControlPanel.CR) L)
  = flat_map (fun line =>
                match ControlPanel.row_item u q c line with
                | Some item => [item]
                | None => []
                end) L.
Proof.
  induction L as [|l L IH]; [reflexivity|].
  cbn [map flat_map]. now rewrite row_item_CR, IH.
Qed.

(** X21. An upload whose lines end with a carriage return and a line feed
    loads what the same lines ending with a line feed load. *)
Theorem carriage_returns_do_not_matter :
  forall lines : list string,
    Forall (fun l => Text.has LF l = false) lines ->
    ControlPanel.onload (ControlPanel.unlines (ControlPanel.CR ++ nl) lines)
      = ControlPanel.onload (ControlPanel.unlines nl lines).
Proof.
  intros lines H. unfold ControlPanel.onload. cbv zeta.
  rewrite (lines_of_unlines_CR lines H), (lines_of_unlines lines H).
  set (L := filter (fun line => negb (Text.trim line =? EmptyString)) lines).
  rewrite length_map.
  destruct (length L <? 2)%nat; [reflexivity|].
  destruct L as [|h L']; [reflexivity|].
  cbn [map hd tl]. rewrite header_of_CR.
  destruct (Text.findIndex _ _) as [u|]; [|reflexivity].
  now rewrite !data_rows_flat, rows_CR.
Qed.

Lemma carriage_returns_do_not_matter_witness :
  ControlPanel.onload
    (ControlPanel.unlines (ControlPanel.CR ++ nl)
       ["url,qty"; "https://shop.example/p/1,2"])
  = ControlPanel.onload
      (ControlPanel.unlines nl ["url,qty"; "https://shop.example/p/1,2"]).
Proof.
  apply (carriage_returns_do_not_matter ["url,qty"; "https://shop.example/p/1,2"]).
  repeat constructor.
Defined.

(** *** The list of the batch and the run button *)

Lemma filter_from_skip (index k : nat) (l : list ControlPanel.Item.t) :
  k > index ->
  Text.filter_from (fun _ i => negb (i =? index)%nat) k l = l.
Proof.
  revert k. induction l as [|x l IH]; intros k Hk; simpl; [reflexivity|].
  replace (k =? index)%nat with false by (symmetry; apply Nat.eqb_neq; lia).
  simpl. rewrite IH; [reflexivity | lia].
Qed.

Lemma filter_from_remove (index k : nat) (l : list ControlPanel.Item.t) :
  Text.filter_from (fun _ i => negb (i =? k + index)%nat) k l
    = (firstn index l ++ skipn (S index) l)%list.
Proof.
  revert index k. induction l as [|x l IH]; intros index k; simpl.
  - destruct index; reflexivity.
  - destruct index as [|index].
    + rewrite Nat.add_0_r, Nat.eqb_refl. simpl.
      apply (filter_from_skip k (S k) l). lia.
    + replace (k =? k + S index)%nat with false
        by (symmetry; apply Nat.eqb_neq; lia).
      simpl. f_equal. replace (k + S index) with (S k + index) by lia. apply IH.
Qed.

(** X22. Removing the item at an index gives the items before it followed
    by the items after it: one item less when the index is in the list,
    and the same list when it is not. *)
Theorem removeItem_removes_one :
  (forall (index : nat) (prev : list ControlPanel.Item.t),
      ControlPanel.removeItem index prev
        = (firstn index prev ++ skipn (S index) prev)%list) /\
  (forall (index : nat) (prev : list ControlPanel.Item.t),
      index < length prev ->
      S (length (ControlPanel.removeItem index prev)) = length prev) /\
  (forall (index : nat) (prev : list ControlPanel.Item.t),
      length prev <= index -> ControlPanel.removeItem index prev = prev).
Proof.
  assert (R : forall index prev,
             ControlPanel.removeItem index prev
               = (firstn index prev ++ skipn (S index) prev)%list).
  { intros index prev. unfold ControlPanel.removeItem.
    exact (filter_from_remove index 0 prev). }
  split; [exact R|]. split.
  - intros index prev H. rewrite R, length_app, length_firstn, length_skipn. lia.
  - intros index prev H. rewrite R, firstn_all2, skipn_all2, app_nil_r; [reflexivity | lia | lia].
Qed.

Lemma removeItem_removes_one_witness :
  S (length (ControlPanel.removeItem 1 ControlPanel.sample_items))
    = length ControlPanel.sample_items /\
  ControlPanel.removeItem 3 ControlPanel.sample_items = ControlPanel.sample_items.
Proof.
  split.
  - apply (proj1 (proj2 removeItem_removes_one) 1 ControlPanel.sample_items).
    simpl. lia.
  - apply (proj2 (proj2 removeItem_removes_one) 3 ControlPanel.sample_items).
    simpl. lia.
Defined.

(** X23. When the run button is enabled, no run is in progress and the run
    it starts has what it needs: a batch run is started only in the order
    mode with a list of items that is not empty, and a single run with a
    search text (in the search mode) or a product link (in the order
    mode). *)
Theorem run_button_guard :
  forall p : ControlPanel.Props,
    ControlPanel.action p = "search" \/ ControlPanel.action p = "order" ->
    ControlPanel.run_disabled p = false ->
    ControlPanel.isRunning p = false /\
    match ControlPanel.run_onClick p with
    | ControlPanel.onRunBatch =>
        ControlPanel.action p = "order" /\ ControlPanel.isBatchMode p = true /\
        ControlPanel.csvData p <> []
    | ControlPanel.onRun =>
        (ControlPanel.action p = "search" /\
         ControlPanel.userMessage p <> EmptyString) \/
        (ControlPanel.action p = "order" /\ ControlPanel.isBatchMode p = false /\
         ControlPanel.productUrl p <> EmptyString)
    end.
Proof.
  intros p Ha H. unfold ControlPanel.run_disabled in H.
  apply orb_false_iff in H as [Hr H]. split; [exact Hr|].
  unfold ControlPanel.run_onClick.
  destruct Ha as [Ha|Ha]; rewrite Ha in *; simpl in *.
  - left. split; [reflexivity|]. intros E. rewrite E in H. discriminate.
  - destruct (ControlPanel.isBatchMode p).
    + repeat split. intros E. rewrite E in H. discriminate.
    + right. repeat split. intros E. rewrite E in H. discriminate.
Qed.

Lemma run_button_guard_witness :
  ControlPanel.isRunning
    (ControlPanel.mkProps "order" EmptyString EmptyString false true
       ControlPanel.sample_items) = false /\
  ControlPanel.action
    (ControlPanel.mkProps "order" EmptyString EmptyString false true
       ControlPanel.sample_items) = "order" /\
  ControlPanel.isBatchMode
    (ControlPanel.mkProps "order" EmptyString EmptyString false true
       ControlPanel.sample_items) = true /\
  ControlPanel.csvData
    (ControlPanel.mkProps "order" EmptyString EmptyString false true
       ControlPanel.sample_items) <> [].
Proof.
  apply (run_button_guard
           (ControlPanel.mkProps "order" EmptyString EmptyString false true
       ControlPanel.sample_items)).
  - right. reflexivity.
  - reflexivity.
Defined.

(** *** The links in the preview of the list *)

Lemma utf16_units_le (c : ascii) : utf16_units c <= 2.
Proof.
  unfold utf16_units. cbv zeta.
  destruct (nat_of_ascii c <? 128)%nat; [lia|].
  destruct (nat_of_ascii c <? 192)%nat; [lia|].
  destruct (nat_of_ascii c <? 240)%nat; lia.
Qed.

Lemma units_of_continuation (n : N) :
  utf16_units (ascii_of_N (128 + n mod 64)) = 0.
Proof.
  unfold utf16_units. cbv zeta.
  assert (B : (n mod 64 < 64)%N) by (apply N.mod_lt; discriminate).
  remember (n mod 64)%N as m eqn:Em. clear Em.
  unfold nat_of_ascii. rewrite N_ascii_embedding by lia.
  destruct (Nat.ltb_spec (N.to_nat (128 + m)) 128); [lia|].
  destruct (Nat.ltb_spec (N.to_nat (128 + m)) 192); [reflexivity | lia].
Qed.

Lemma length_high_surrogate (c : ascii) (s : string) :
  js_length (Text.high_surrogate c s) = 1.
Proof.
  unfold Text.high_surrogate. cbv zeta. cbn [js_length].
  rewrite !units_of_continuation. reflexivity.
Qed.

Lemma length_substring0 (n : nat) (s : string) :
  js_length (Text.substring0 n s) = Nat.min n (js_length s).
Proof.
  revert n. induction s as [|c s IH]; intros n; [simpl; lia|].
  cbn [Text.substring0 js_length]. cbv zeta.
  pose proof (utf16_units_le c) as U.
  destruct (Nat.leb_spec (utf16_units c) n).
  - cbn [js_length]. rewrite IH. lia.
  - destruct (Nat.eqb_spec n 1).
    + rewrite length_high_surrogate. lia.
    + simpl. lia.
Qed.

Lemma js_length_append (a b : string) :
  js_length (a ++ b) = js_length a + js_length b.
Proof. induction a as [|c a IH]; simpl; [reflexivity | rewrite IH; lia]. Qed.

Lemma ascii_unit (c : ascii) : (code c <? 128)%N = true -> utf16_units c = 1.
Proof.
  intros H. apply N.ltb_lt in H. unfold utf16_units, nat_of_ascii. cbv zeta.
  unfold code in H.
  destruct (Nat.ltb_spec (N.to_nat (N_of_ascii c)) 128); [reflexivity | lia].
Qed.

(** The first code units of a text of ASCII characters are its first
    characters. *)
Lemma substring0_ascii (n : nat) (s : string) :
  Text.is_ascii s = true -> Text.substring0 n s = substring 0 n s.
Proof.
  revert n. induction s as [|c s IH]; intros n H; [destruct n; reflexivity|].
  cbn [Text.is_ascii] in H. apply andb_true_iff in H as [Hc Hs].
  cbn [Text.substring0]. cbv zeta. rewrite (ascii_unit c Hc).
  destruct n as [|n]; [reflexivity|].
  cbn [Nat.leb substring]. replace (S n - 1) with n by lia. f_equal.
  now apply IH.
Qed.

Lemma js_length_ascii (s : string) :
  Text.is_ascii s = true -> js_length s = String.length s.
Proof.
  induction s as [|c s IH]; [reflexivity|].
  cbn [Text.is_ascii js_length String.length]. intros H.
  apply andb_true_iff in H as [Hc Hs].
  now rewrite (ascii_unit c Hc), (IH Hs).
Qed.

(** X24. The link of an item in the preview of the list has at most 43
    code units: it is the link itself when that has at most 40, and
    otherwise its first 40 code units followed by three dots; for a link
    of ASCII characters these are its first 40 characters. *)
Theorem preview_is_short :
  (forall item : ControlPanel.Item.t,
      js_length (ControlPanel.preview item) <= 43) /\
  (forall item : ControlPanel.Item.t,
      js_length (ControlPanel.Item.product_url item) <= 40 ->
      ControlPanel.preview item = ControlPanel.Item.product_url item) /\
  (forall item : ControlPanel.Item.t,
      40 < js_length (ControlPanel.Item.product_url item) ->
      ControlPanel.preview item
        = Text.substring0 40 (ControlPanel.Item.product_url item) ++ "..." /\
      js_length (ControlPanel.preview item) = 43) /\
  (forall item : ControlPanel.Item.t,
      Text.is_ascii (ControlPanel.Item.product_url item) = true ->
      40 < String.length (ControlPanel.Item.product_url item) ->
      ControlPanel.preview item
        = substring 0 40 (ControlPanel.Item.product_url item) ++ "...").
Proof.
  assert (L : forall item,
             40 < js_length (ControlPanel.Item.product_url item) ->
             ControlPanel.preview item
               = Text.substring0 40 (ControlPanel.Item.product_url item) ++ "..." /\
             js_length (ControlPanel.preview item) = 43).
  { intros item H. unfold ControlPanel.preview.
    destruct (Nat.ltb_spec 40 (js_length (ControlPanel.Item.product_url item)));
      [|lia].
    split; [reflexivity|].
    rewrite js_length_append, length_substring0.
    change (js_length "...") with 3. lia. }
  assert (S : forall item,
             js_length (ControlPanel.Item.product_url item) <= 40 ->
             ControlPanel.preview item = ControlPanel.Item.product_url item).
  { intros item H. unfold ControlPanel.preview.
    destruct (Nat.ltb_spec 40 (js_length (ControlPanel.Item.product_url item)));
      [lia | reflexivity]. }
  split; [|split; [exact S|split; [exact L|]]].
  - intros item.
    destruct (Nat.le_gt_cases (js_length (ControlPanel.Item.product_url item)) 40)
      as [H|H].
    + rewrite (S item H). lia.
    + destruct (L item H) as [_ ->]. lia.
  - intros item Ha Hl. rewrite <- (js_length_ascii _ Ha) in Hl.
    destruct (L item Hl) as [-> _].
    now rewrite (substring0_ascii 40 _ Ha).
Qed.

Lemma preview_is_short_witness :
  ControlPanel.preview (ControlPanel.Item.mk "https://shop.example/p/1" 2 None)
    = "https://shop.example/p/1" /\
  (ControlPanel.preview ControlPanel.long_link
     = Text.substring0 40 (ControlPanel.Item.product_url ControlPanel.long_link)
       ++ "..." /\
   js_length (ControlPanel.preview ControlPanel.long_link) = 43) /\
  ControlPanel.preview
    (ControlPanel.Item.mk "https://shop.example/p/0123456789abcdefghijklmnop" 1 None)
    = substring 0 40 "https://shop.example/p/0123456789abcdefghijklmnop" ++ "...".
Proof.
  split; [|split].
  - apply (proj1 (proj2 preview_is_short)
             (ControlPanel.Item.mk "https://shop.example/p/1" 2 None)).
    vm_compute. lia.
  - apply (proj1 (proj2 (proj2 preview_is_short)) ControlPanel.long_link).
    vm_compute. lia.
  - apply (proj2 (proj2 (proj2 preview_is_short))
             (ControlPanel.Item.mk
                "https://shop.example/p/0123456789abcdefghijklmnop" 1 None)).
    + reflexivity.
    + vm_compute. lia.
Defined.
